(** * pbreports.io.align: crunching alignment records into per-movie tables

    A shallow embedding of [src/pbreports/io/align.py]:
    - [_getPct], the percentile helper,
    - [alignment_info_from_bam], the single pass over the indexed BAM
      records of one movie,
    - [from_alignment_file], which fixes the column list,
    - [CrunchedAlignments._numpify], which lays the crunched dictionaries out
      as arrays indexed per movie, and the accessors [reads] and [subreads].

    Conventions of the embedding.
    - Python integers are [Z]; lengths and offsets, which the code only ever
      obtains from [len] and sums of [len], are [nat].  The columns
      [aStart] and [aEnd] of the BAM index hold unsigned 32-bit numbers, and
      the difference of two of them wraps around.
    - Python floats are IEEE binary64 values, the primitive [float] type;
      [/] and [*] on them are the rounded operations of the machine.
    - A [dict] is an association list in iteration order whose keys are
      pairwise distinct.  Python 2 iterates a dict in an arbitrary order, so
      every statement about the table builder quantifies over the order.
      The set of movie names is a duplicate-free list, in the same way.
    - A raised exception is a value of [exn] returned through [result];
      a call of [warnings.warn] appends to a list of warnings.
    - The file reader ([IndexedBamReader]) is outside the module: the pass
      takes the list of records the reader yields. *)

From Stdlib Require Import String.
From Stdlib Require Import ZArith List Bool Lia Floats Permutation Sorted.
Import ListNotations.
Local Open Scope Z_scope.

Set Implicit Arguments.

(* ------------------------------------------------------------------------- *)
(** ** Python values, exceptions, indexing *)

(** The numbers stored in a subread tuple: Python ints and floats. *)
Inductive value : Type :=
| VInt (z : Z)
| VFloat (f : float).

(** [tuple(this_a)]: the fields of one subread row, in order. *)
Definition row : Type := list value.

(** The exceptions this module can raise. *)
Inductive exn : Type :=
| IndexError_out_of_range
    (* indexing a sequence outside its bounds, e.g. [sl[0]] on [[]] *)
| IndexError_incompatible (n c : nat)
    (* "Length of sl {n} len of columns {c} is incompatible." *)
| ValueError_tuple_size
    (* numpy: a tuple does not have one entry per dtype field *)
| ValueError_duplicate_field
    (* numpy: a field name occurs more than once in a dtype *)
| IndexError_float_index.
    (* numpy: a float used as an index ("only integers, slices ... are
       valid indices") *)

Inductive result (A : Type) : Type :=
| Ok (a : A)
| Raise (e : exn).

Arguments Ok {A} a.
Arguments Raise {A} e.

(** [seq[i]] for a Python sequence: a negative index counts from the end,
    an index outside [-len, len) raises IndexError. *)
Definition py_index {A : Type} (l : list A) (i : Z) : result A :=
  let n := Z.of_nat (List.length l) in
  let j := if i <? 0 then i + n else i in
  if (j <? 0) || (n <=? j) then Raise IndexError_out_of_range
  else match nth_error l (Z.to_nat j) with
       | Some x => Ok x
       | None => Raise IndexError_out_of_range
       end.

(** [seq[s:e]] for offsets [0 <= s <= e]. *)
Definition py_slice {A : Type} (s e : nat) (l : list A) : list A :=
  firstn (e - s) (skipn s l).

(* ------------------------------------------------------------------------- *)
(** ** Dictionaries and sets *)

(** Keys are compared with [==]; for tuples of strings and ints this is
    structural equality. *)
Class EqbKey (K : Type) : Type := keqb : K -> K -> bool.

Class EqbKeyOk (K : Type) `{EqbKey K} : Prop :=
  keqb_eq : forall a b : K, keqb a b = true <-> a = b.

Arguments EqbKeyOk K {_}.

Section Dict.
Context {K V : Type} `{EqbKey K}.

Definition dict : Type := list (K * V).

(** [d.get(k)] / [d[k]] *)
Fixpoint dict_get (k : K) (d : dict) : option V :=
  match d with
  | [] => None
  | (k', v) :: t => if keqb k k' then Some v else dict_get k t
  end.

(** [k in d] *)
Definition dict_mem (k : K) (d : dict) : bool :=
  match dict_get k d with Some _ => true | None => false end.

(** [d[k] = v]: overwrite the entry of [k] if there is one, else add one. *)
Fixpoint dict_set (k : K) (v : V) (d : dict) : dict :=
  match d with
  | [] => [(k, v)]
  | (k', v') :: t =>
      if keqb k k' then (k', v) :: t else (k', v') :: dict_set k v t
  end.

(** [d.setdefault(k, v)]: add [k -> v] only when [k] is absent. *)
Definition dict_setdefault (k : K) (v : V) (d : dict) : dict :=
  if dict_mem k d then d else dict_set k v d.

(** In-place mutation of the object stored under [k], as in
    [d[k][0] = ...] when the stored value is a list. *)
Fixpoint dict_adjust (k : K) (f : V -> V) (d : dict) : dict :=
  match d with
  | [] => []
  | (k', v) :: t =>
      if keqb k k' then (k', f v) :: t else (k', v) :: dict_adjust k f t
  end.

(** [len(d)] *)
Definition dict_len (d : dict) : nat := List.length d.

(** The keys of a dict are pairwise distinct. *)
Definition dict_wf (d : dict) : Prop := NoDup (map fst d).

End Dict.

Arguments dict K V : clear implicits.

(** [s.add(x)] on a set of strings, kept as a duplicate-free list. *)
Definition set_add (x : string) (s : list string) : list string :=
  if existsb (String.eqb x) s then s else s ++ [x].

(* ------------------------------------------------------------------------- *)
(** ** Keys *)

(** [(movie name, hole number)] *)
Definition zmw_id_t : Type := string * Z.
(** [(movie name, hole number, qs, qe)] *)
Definition subread_id_t : Type := string * Z * Z * Z.

Definition zmw_eqb (a b : zmw_id_t) : bool :=
  String.eqb (fst a) (fst b) && (snd a =? snd b).

Definition subread_eqb (a b : subread_id_t) : bool :=
  let '(ma, ha, sa, ea) := a in
  let '(mb, hb, sb, eb) := b in
  String.eqb ma mb && (ha =? hb) && (sa =? sb) && (ea =? eb).

#[export] Instance zmw_key : EqbKey zmw_id_t := zmw_eqb.
#[export] Instance subread_key : EqbKey subread_id_t := subread_eqb.

(** [k[0]] of either key: the movie name. *)
Definition zmw_movie (k : zmw_id_t) : string := fst k.
Definition subread_movie (k : subread_id_t) : string := fst (fst (fst k)).

(** [zmw_id != last_zmw_id], where [last_zmw_id] starts as [None]. *)
Definition zmw_differs (z : zmw_id_t) (last : option zmw_id_t) : bool :=
  match last with
  | None => true
  | Some z' => negb (zmw_eqb z z')
  end.

(* ------------------------------------------------------------------------- *)
(** ** The percentile helper *)

(** What [np.ceil] can return: an integral float, an infinity or NaN. *)
Inductive np_integral : Type :=
| IntegralZ (z : Z)
| PosInf
| NegInf
| NaN.

(** [np.ceil(x)] on a binary64 [x], read off its sign, mantissa and exponent:
    a finite [x] is [±m * 2^e], and its ceiling is computed exactly. *)
Definition np_ceil (x : float) : np_integral :=
  match Prim2SF x with
  | S754_zero _ => IntegralZ 0
  | S754_infinity s => if s then NegInf else PosInf
  | S754_nan => NaN
  | S754_finite s m e =>
      let v := if s then Z.neg m else Z.pos m in
      IntegralZ (if 0 <=? e then v * 2 ^ e else - ((- v) / 2 ^ (- e)))
  end.

(** The int-to-float conversion of [len(...)] in a float product (exact
    below 2^53). *)
Definition float_of_len (n : nat) : float :=
  PrimFloat.of_uint63 (Uint63.of_Z (Z.of_nat n)).

(** [index >= len(sorted_vector)] *)
Definition index_ge_len (index : np_integral) (n : nat) : bool :=
  match index with
  | IntegralZ z => Z.of_nat n <=? z
  | PosInf => true
  | NegInf | NaN => false
  end.

(** [np.ceil((percentile / 100.0) * n)] *)
Definition pct_index (percentile : float) (n : nat) : np_integral :=
  np_ceil (PrimFloat.mul (PrimFloat.div percentile 100%float) (float_of_len n)).

Section Percentile.
Variable A : Type.
(** The [<=] test of the vector's numbers. *)
Variable leb : A -> A -> bool.

Fixpoint sort_insert (x : A) (l : list A) : list A :=
  match l with
  | [] => [x]
  | y :: t => if leb x y then x :: l else y :: sort_insert x t
  end.

(** [np.sort(vector)]: the ascending rearrangement of [vector]. *)
Fixpoint np_sort (vector : list A) : list A :=
  match vector with
  | [] => []
  | x :: t => sort_insert x (np_sort t)
  end.

(** [sorted_vector[index]] with the float [index] that [np.ceil] returned:
    numpy takes no float as an index, whatever its value, and raises
    IndexError. *)
Definition float_index (l : list A) (index : np_integral) : result A :=
  Raise IndexError_float_index.

Definition _getPct (percentile : float) (vector : list A) : result A :=
  let sorted_vector := np_sort vector in
  let index := pct_index percentile (List.length sorted_vector) in
  if index_ge_len index (List.length sorted_vector)
  then py_index sorted_vector (-1)
  else float_index sorted_vector index.

End Percentile.

(* ------------------------------------------------------------------------- *)
(** ** The record-crunching pass *)

(** One alignment of the indexed BAM file: the reader's parallel columns
    ([qId] resolved to its movie name through [readGroupInfo], [holeNumber],
    [qStart], [qEnd], [aStart], [aEnd], [identity], [readQual]) read at the
    same index [i_aln]. *)
Record AlignmentRecord : Type := {
  MovieName : string;
  holeNumber : Z;
  qStart : Z;
  qEnd : Z;
  aStart : Z;
  aEnd : Z;
  identity : float;
  readQual : float
}.

(** [warnings.warn("Duplicate subread %s" % str(subread_id))] *)
Inductive warning : Type :=
| Duplicate_subread (subread_id : subread_id_t).

(** The local variables of [alignment_info_from_bam], and the warnings
    issued so far. *)
Record crunch_state : Type := {
  datum : dict subread_id_t row;
  unrolled : dict zmw_id_t (Z * Z);
  max_subread : dict zmw_id_t (subread_id_t * Z);
  movie_names : list string;
  last_zmw_id : option zmw_id_t;
  warned : list warning
}.

Definition crunch_init : crunch_state :=
  {| datum := []; unrolled := []; max_subread := []; movie_names := [];
     last_zmw_id := None; warned := [] |}.

(** [rend - rstart]: [aStart] and [aEnd] are unsigned 32-bit numbers, and
    so is their difference, which wraps around when [rend < rstart]. *)
Definition uint32_sub (rend rstart : Z) : Z := (rend - rstart) mod 2 ^ 32.

(** [(qs, qe)] after the fallback for the unclipped pair [(-1, -1)]. *)
Definition query_span (r : AlignmentRecord) : Z * Z :=
  if (qStart r =? -1) && (qEnd r =? -1)
  then (0, uint32_sub (aEnd r) (aStart r))
  else (qStart r, qEnd r).

Definition zmw_id_of (r : AlignmentRecord) : zmw_id_t :=
  (MovieName r, holeNumber r).

Definition subread_id_of (r : AlignmentRecord) : subread_id_t :=
  (MovieName r, holeNumber r, fst (query_span r), snd (query_span r)).

Definition subread_length (r : AlignmentRecord) : Z :=
  uint32_sub (aEnd r) (aStart r).

(** [tuple(this_a)] *)
Definition this_a (last : option zmw_id_t) (r : AlignmentRecord) : row :=
  [ VInt (subread_length r);
    VFloat (identity r);
    VFloat (readQual r);
    VFloat (if zmw_differs (zmw_id_of r) last then 1%float else 0%float);
    VInt 99999 ].

(** The span bookkeeping of one record:
    [unrolled.setdefault(zmw_id, [99999, 0])], then the two in-place
    updates with [min] and [max]. *)
Definition widen (zmw_id : zmw_id_t) (rstart rend : Z)
    (u : dict zmw_id_t (Z * Z)) : dict zmw_id_t (Z * Z) :=
  let u1 := dict_setdefault zmw_id (99999, 0) u in
  let u2 := dict_adjust zmw_id (fun v => (Z.min (fst v) rstart, snd v)) u1 in
  dict_adjust zmw_id (fun v => (fst v, Z.max (snd v) rend)) u2.

(** The longest-subread bookkeeping of one record. *)
Definition keep_longest (zmw_id : zmw_id_t) (subread_id : subread_id_t)
    (len : Z) (m : dict zmw_id_t (subread_id_t * Z))
    : dict zmw_id_t (subread_id_t * Z) :=
  match dict_get zmw_id m with
  | None => dict_set zmw_id (subread_id, len) m
  | Some (_, best) =>
      if best <? len then dict_set zmw_id (subread_id, len) m else m
  end.

(** The body of the loop over the records. *)
Definition crunch_record (movie_name : string) (st : crunch_state)
    (r : AlignmentRecord) : crunch_state :=
  let current_movie_name := MovieName r in
  let names := set_add current_movie_name (movie_names st) in
  if negb (String.eqb movie_name current_movie_name) then
    {| datum := datum st; unrolled := unrolled st;
       max_subread := max_subread st; movie_names := names;
       last_zmw_id := last_zmw_id st; warned := warned st |}
  else
    let zmw_id := zmw_id_of r in
    let subread_id := subread_id_of r in
    {| datum := dict_set subread_id (this_a (last_zmw_id st) r) (datum st);
       unrolled := widen zmw_id (aStart r) (aEnd r) (unrolled st);
       max_subread :=
         keep_longest zmw_id subread_id (subread_length r) (max_subread st);
       movie_names := names;
       last_zmw_id := Some zmw_id;
       warned :=
         if dict_mem subread_id (datum st)
         then warned st ++ [Duplicate_subread subread_id]
         else warned st |}.

(** [alignment_info_from_bam(bam_file_name, movie_name)], on the records the
    reader yields for the file. *)
Definition alignment_info_from_bam (bam : list AlignmentRecord)
    (movie_name : string) : crunch_state :=
  fold_left (crunch_record movie_name) bam crunch_init.

Definition columns : list string :=
  ["Length"; "Accuracy"; "Read quality"; "isFirst"; "modStart"]%string.

(** [from_alignment_file(movie_name, alignment_file_name)] returns
    [(movie_names, unrolled, datum, columns)]. *)
Definition from_alignment_file (movie_name : string)
    (bam : list AlignmentRecord)
    : list string * dict zmw_id_t (Z * Z) * dict subread_id_t row
      * list string :=
  let st := alignment_info_from_bam bam movie_name in
  (movie_names st, unrolled st, datum st, columns).

(* ------------------------------------------------------------------------- *)
(** ** The movie-indexed table *)

Record MovieIdx : Type := {
  name : string;
  rOffs : nat;
  rLen : nat;
  sOffs : nat;
  sLen : nat
}.

(** The local variables of [_numpify] and the list [self._movies]. *)
Record numpify_state : Type := {
  cur_rOffs : nat;
  cur_sOffs : nat;
  rl : list Z;
  sl : list row;
  movies_acc : list MovieIdx
}.

(** [[v[1] - v[0] for k, v in reads.iteritems() if k[0] == name]] *)
Definition reads_of (reads : dict zmw_id_t (Z * Z)) (nm : string) : list Z :=
  map (fun kv => snd (snd kv) - fst (snd kv))
      (filter (fun kv => String.eqb (zmw_movie (fst kv)) nm) reads).

(** [[v for k, v in subreads.iteritems() if k[0] == name]] *)
Definition subreads_of (subreads : dict subread_id_t row) (nm : string)
    : list row :=
  map snd (filter (fun kv => String.eqb (subread_movie (fst kv)) nm) subreads).

(** The body of the loop over the movie names. *)
Definition numpify_step (reads : dict zmw_id_t (Z * Z))
    (subreads : dict subread_id_t row) (st : numpify_state) (nm : string)
    : numpify_state :=
  let lr := reads_of reads nm in
  let ls := subreads_of subreads nm in
  let m := {| name := nm;
              rOffs := cur_rOffs st; rLen := List.length lr;
              sOffs := cur_sOffs st; sLen := List.length ls |} in
  {| cur_rOffs := (cur_rOffs st + rLen m)%nat;
     cur_sOffs := (cur_sOffs st + sLen m)%nat;
     rl := rl st ++ lr;
     sl := sl st ++ ls;
     movies_acc := movies_acc st ++ [m] |}.

Definition numpify_init : numpify_state :=
  {| cur_rOffs := 0; cur_sOffs := 0; rl := []; sl := []; movies_acc := [] |}.

Definition numpify_loop (mnames : list string)
    (reads : dict zmw_id_t (Z * Z)) (subreads : dict subread_id_t row)
    : numpify_state :=
  fold_left (numpify_step reads subreads) mnames numpify_init.

(** The field names of a dtype are pairwise distinct. *)
Fixpoint distinct_fields (cols : list string) : bool :=
  match cols with
  | [] => true
  | col :: rest =>
      negb (existsb (String.eqb col) rest) && distinct_fields rest
  end.

(** [np.array(sl, dtype=[(col, np.float64) for col in cols])]: the dtype is
    built first and needs pairwise distinct field names; then every tuple
    must have one entry per field.  The array is kept as the list of its
    tuples, with the entries as given: numpy holds their float64 values. *)
Definition np_array_struct (rows : list row) (cols : list string)
    : result (list row) :=
  if negb (distinct_fields cols) then Raise ValueError_duplicate_field
  else if forallb (fun r => Nat.eqb (List.length r) (List.length cols)) rows
  then Ok rows else Raise ValueError_tuple_size.

Record CrunchedAlignments : Type := {
  _movieNames : list string;
  _reads : dict zmw_id_t (Z * Z);
  _subreads : dict subread_id_t row;
  _cols : list string;
  _movies : list MovieIdx;
  _nReads : list Z;
  _nSubreads : list row
}.

(** [CrunchedAlignments(mnames, reads, subreads, cols)]: the constructor
    stores its arguments and runs [_numpify]. *)
Definition _numpify (mnames : list string) (reads : dict zmw_id_t (Z * Z))
    (subreads : dict subread_id_t row) (cols : list string)
    : result CrunchedAlignments :=
  let st := numpify_loop mnames reads subreads in
  match sl st with
  | [] => Raise IndexError_out_of_range                     (* sl[0] *)
  | first :: _ =>
      if negb (Nat.eqb (List.length first) (List.length cols)) then
        Raise (IndexError_incompatible (List.length first) (List.length cols))
      else
        match np_array_struct (sl st) cols with
        | Raise e => Raise e
        | Ok arr =>
            Ok {| _movieNames := mnames; _reads := reads;
                  _subreads := subreads; _cols := cols;
                  _movies := movies_acc st;
                  _nReads := rl st; _nSubreads := arr |}
        end
  end.

(** [self.reads(movie)] and [self.subreads(movie)] *)
Definition reads (t : CrunchedAlignments) (movie : option MovieIdx) : list Z :=
  match movie with
  | Some m => py_slice (rOffs m) (rOffs m + rLen m) (_nReads t)
  | None => _nReads t
  end.

Definition subreads (t : CrunchedAlignments) (movie : option MovieIdx)
    : list row :=
  match movie with
  | Some m => py_slice (sOffs m) (sOffs m + sLen m) (_nSubreads t)
  | None => _nSubreads t
  end.

(* ------------------------------------------------------------------------- *)
(** ** Vocabulary of the statements *)

(** The record belongs to the target movie: the loop does not [continue]. *)
Definition matching (movie_name : string) (r : AlignmentRecord) : bool :=
  String.eqb movie_name (MovieName r).

(** The records of the target movie, in stream order. *)
Definition matching_records (movie_name : string)
    (bam : list AlignmentRecord) : list AlignmentRecord :=
  filter (matching movie_name) bam.

(** The ZmwId of the last record of the target movie in [bam], if any. *)
Definition prev_zmw (movie_name : string) (bam : list AlignmentRecord)
    : option zmw_id_t :=
  match rev (matching_records movie_name bam) with
  | [] => None
  | r :: _ => Some (zmw_id_of r)
  end.

(** A record of the target movie that belongs to the read [k]. *)
Definition of_zmw (movie_name : string) (k : zmw_id_t)
    (r : AlignmentRecord) : Prop :=
  matching movie_name r = true /\ zmw_id_of r = k.

(** The [isFirst] field of a row: its fourth entry. *)
Definition isFirst_of (rw : row) : option value := nth_error rw 3.

(** The [Length] field of a row: its first entry. *)
Definition length_of (rw : row) : option value := nth_error rw 0.

(** The number of distinct keys in a list of keys. *)
Fixpoint distinct_count {K : Type} `{EqbKey K} (ks : list K) : nat :=
  match ks with
  | [] => 0
  | k :: t =>
      if existsb (keqb k) t then distinct_count t else S (distinct_count t)
  end.

(** The index entries [_numpify] builds for [mnames], starting at the
    offsets [ro] and [so]. *)
Fixpoint movie_index (reads : dict zmw_id_t (Z * Z))
    (subreads : dict subread_id_t row) (ro so : nat) (mnames : list string)
    : list MovieIdx :=
  match mnames with
  | [] => []
  | nm :: t =>
      let nr := List.length (reads_of reads nm) in
      let ns := List.length (subreads_of subreads nm) in
      {| name := nm; rOffs := ro; rLen := nr; sOffs := so; sLen := ns |}
      :: movie_index reads subreads (ro + nr) (so + ns) t
  end.

Definition total_rLen (ms : list MovieIdx) : nat :=
  fold_right (fun m acc => (rLen m + acc)%nat) 0%nat ms.

Definition total_sLen (ms : list MovieIdx) : nat :=
  fold_right (fun m acc => (sLen m + acc)%nat) 0%nat ms.

(** The [isFirst] field stored under the SubreadId of [r] after [bam]. *)
Definition stored_isFirst (movie_name : string) (bam : list AlignmentRecord)
    (r : AlignmentRecord) : option value :=
  match dict_get (subread_id_of r)
          (datum (alignment_info_from_bam bam movie_name)) with
  | Some rw => isFirst_of rw
  | None => None
  end.

(** The union span of the read [k] on the reference: the least start and
    the greatest end over the records of the target movie that belong to
    [k]; [None] when there is no such record. *)
Definition span_join (acc : option (Z * Z)) (s e : Z) : option (Z * Z) :=
  match acc with
  | None => Some (s, e)
  | Some (s0, e0) => Some (Z.min s0 s, Z.max e0 e)
  end.

Definition union_span (movie_name : string) (k : zmw_id_t)
    (bam : list AlignmentRecord) : option (Z * Z) :=
  fold_left
    (fun acc r =>
       if matching movie_name r && zmw_eqb (zmw_id_of r) k
       then span_join acc (aStart r) (aEnd r) else acc)
    bam None.

(* ------------------------------------------------------------------------- *)
(** ** Sample inputs *)

Definition aln (movie : string) (hole qs qe s e : Z) : AlignmentRecord :=
  {| MovieName := movie; holeNumber := hole; qStart := qs; qEnd := qe;
     aStart := s; aEnd := e;
     identity := 0.75%float; readQual := 0.5%float |}.

(** Two movies; hole 7 of [m1] has three subreads, the last two equally
    long. *)
Definition sample_bam : list AlignmentRecord :=
  [ aln "m1" 7 0 100 10 110;
    aln "m2" 3 0 50 0 50;
    aln "m1" 7 100 250 10 160;
    aln "m1" 7 300 450 0 150;
    aln "m1" 9 (-1) (-1) 20 60 ]%string.

(** One read aligned beyond reference position 99999. *)
Definition far_bam : list AlignmentRecord :=
  [ aln "m1" 8 (-1) (-1) 100000 100100 ]%string.

(** Two records with the same SubreadId, of lengths 100 and 150. *)
Definition dup_first : AlignmentRecord := aln "m1" 7 0 120 10 110.
Definition dup_second : AlignmentRecord := aln "m1" 7 0 120 10 160.

(** A row of four fields for a five-column schema. *)
Definition narrow_row : row :=
  [VInt 100; VFloat 0.75%float; VFloat 0.5%float; VFloat 1%float].

Definition narrow_subreads : dict subread_id_t row :=
  [ (("m1", 7, 0, 100)%string, narrow_row) ].

(** What [from_alignment_file] returns for [sample_bam] and movie [m1]. *)
Definition sample_names : list string :=
  movie_names (alignment_info_from_bam sample_bam "m1").
Definition sample_reads : dict zmw_id_t (Z * Z) :=
  unrolled (alignment_info_from_bam sample_bam "m1").
Definition sample_subreads : dict subread_id_t row :=
  datum (alignment_info_from_bam sample_bam "m1").

(* ========================================================================= *)
(** * pbreports.report.variants: consensus statistics per contig

    A shallow embedding of the data functions of
    [src/pbreports/report/variants.py]: [_validate_inputs],
    [_extract_alignment_summ_data], [_append_variants_gff_data],
    [_ref_ids_ordered_by_len], [_get_consensus_table_and_attributes] and
    the class [ContigVariants].

    What lies outside the file is taken as a parameter: [os.path.exists],
    the built-ins [int] and [float] on strings, [hashlib.md5] and the
    reference entry's [get_contig].  A GFF reader is the list of records it
    yields.  The plotting functions and the command-line wiring are not
    modelled. *)

Module Variants.

Inductive py_exn : Type :=
| PbReportError (msg : string)
| IOError (msg : string)
| KeyError (key : string)
| ValueError
| IndexError
| ZeroDivisionError
| OverflowError.

(** A call either returns a value or raises. *)
Inductive outcome (A : Type) : Type :=
| Return (a : A)
| Throw (e : py_exn).

Arguments Return {A} a.
Arguments Throw {A} e.

Definition bind {A B : Type} (c : outcome A) (k : A -> outcome B)
    : outcome B :=
  match c with
  | Return a => k a
  | Throw e => Throw e
  end.

Declare Scope outcome_scope.
Delimit Scope outcome_scope with outcome.
Notation "x <- c ;; k" := (bind c (fun x => k))
  (at level 61, c at next level, right associativity) : outcome_scope.
Local Open Scope outcome_scope.

#[export] Instance string_key : EqbKey string := String.eqb.

(* ------------------------------------------------------------------------- *)
(** ** Strings *)

(** The characters [str.split()] treats as separators. *)
Definition is_space (c : Ascii.ascii) : bool :=
  let n := Ascii.nat_of_ascii c in
  Nat.eqb n 32 || (Nat.leb 9 n && Nat.leb n 13).

(** [s.split()]: the maximal runs of non-space characters. *)
Fixpoint split_ws_from (cur s : string) : list string :=
  match s with
  | EmptyString => if String.eqb cur "" then [] else [cur]
  | String c t =>
      if is_space c
      then (if String.eqb cur "" then split_ws_from "" t
            else cur :: split_ws_from "" t)
      else split_ws_from (cur ++ String c "") t
  end.

Definition split_ws (s : string) : list string := split_ws_from "" s.

(** [s.split(sep)] for a one-character separator: never empty. *)
Fixpoint split_on_from (sep : Ascii.ascii) (cur s : string) : list string :=
  match s with
  | EmptyString => [cur]
  | String c t =>
      if Ascii.eqb c sep then cur :: split_on_from sep "" t
      else split_on_from sep (cur ++ String c "") t
  end.

Definition split_on (sep : Ascii.ascii) (s : string) : list string :=
  split_on_from sep "" s.

(** [seqid.split()[0]] *)
Definition first_token (s : string) : outcome string :=
  match split_ws s with
  | [] => Throw IndexError
  | tok :: _ => Return tok
  end.

(* ------------------------------------------------------------------------- *)
(** ** Numbers *)

(** [float(n)] and the conversion of an int operand in float arithmetic:
    the nearest binary64 value, OverflowError beyond the finite range. *)
Definition float_of_Z (n : Z) : outcome float :=
  match binary_normalize prec emax n 0 false with
  | S754_infinity _ => Throw OverflowError
  | sf => Return (SF2Prim sf)
  end.

(** [a / b] on floats. *)
Definition float_div (a b : float) : outcome float :=
  if PrimFloat.eqb b 0%float then Throw ZeroDivisionError
  else Return (PrimFloat.div a b).

(* ------------------------------------------------------------------------- *)
(** ** Records of the GFF files and contigs of the reference *)

Module Gff3Record.
Record t : Type := {
  seqid : string;
  start : Z;
  end_ : Z;
  attributes : dict string string
}.
End Gff3Record.

Module Contig.
Record t : Type := {
  id : string;
  name : string;
  header : string
}.
End Contig.

(** [d[key]] on the attributes of a record. *)
Definition getitem (d : dict string string) (key : string) : outcome string :=
  match dict_get key d with
  | Some v => Return v
  | None => Throw (KeyError key)
  end.

(** One entry of [ref_data]: the list [[0, 0, 0, 0]] indexed by the
    constants [LENGTH, GAPS, ERR, COV = 0, 1, 2, 3]. *)
Record ref_row : Type := {
  LENGTH : Z;
  GAPS : Z;
  ERR : Z;
  COV : float
}.

(* ------------------------------------------------------------------------- *)
(** ** [_validate_inputs] *)

Section ValidateInputs.
(** [os.path.exists] *)
Variable path_exists : string -> bool.

Fixpoint _validate_inputs (files : list (string * option string))
    : outcome unit :=
  match files with
  | [] => Return tt
  | f :: rest =>
      match snd f with
      | None => Throw (PbReportError (fst f ++ " cannot be None"))
      | Some path =>
          if path_exists path then _validate_inputs rest
          else Throw (IOError (path ++ " does not exist"))
      end
  end.

End ValidateInputs.

(* ------------------------------------------------------------------------- *)
(** ** [_ref_ids_ordered_by_len] *)

(** [sorted(tuples, key=lambda tup: tup[1], reverse=True)]: descending by
    key, tuples with equal keys in their original order. *)
Fixpoint insert_desc (x : string * Z) (l : list (string * Z))
    : list (string * Z) :=
  match l with
  | [] => [x]
  | y :: t => if snd y <=? snd x then x :: l else y :: insert_desc x t
  end.

Definition sorted_desc (l : list (string * Z)) : list (string * Z) :=
  fold_right insert_desc [] l.

Definition _ref_ids_ordered_by_len (ref_data : dict string ref_row)
    : list string :=
  let ordered_tuples := map (fun kv => (fst kv, LENGTH (snd kv))) ref_data in
  map fst (sorted_desc ordered_tuples).

(* ------------------------------------------------------------------------- *)
(** ** [_append_variants_gff_data] *)

(** [ref_data[seqid][ERR] += err_len] *)
Definition add_err (err_len : Z) (row : ref_row) : ref_row :=
  {| LENGTH := LENGTH row; GAPS := GAPS row;
     ERR := ERR row + err_len; COV := COV row |}.

(** The loop over the records of the variants file.  [ref_data] is updated
    in place and [log.warn] is called as the loop goes, so both are returned
    also when a record makes the loop raise. *)
Fixpoint _append_variants_gff_data (variants_gff : string)
    (ref_data : dict string ref_row) (log : list string)
    (reader : list Gff3Record.t)
    : dict string ref_row * list string * outcome unit :=
  match reader with
  | [] => (ref_data, log, Return tt)
  | record :: rest =>
      let err_len := Gff3Record.end_ record - Gff3Record.start record + 1 in
      match first_token (Gff3Record.seqid record) with
      | Throw e => (ref_data, log, Throw e)
      | Return seqid =>
          if dict_mem seqid ref_data
          then _append_variants_gff_data variants_gff
                 (dict_adjust seqid (add_err err_len) ref_data) log rest
          else _append_variants_gff_data variants_gff ref_data
                 (log ++ [("Unable to find " ++ seqid ++ " in "
                           ++ variants_gff)%string])
                 rest
      end
  end.

(* ------------------------------------------------------------------------- *)
(** ** [ContigVariants] and [_extract_alignment_summ_data] *)

Module ContigVariants.
Record t : Type := {
  seqid : string;
  name : string;
  variants : list (Z * Z * Z * Z);
  file_name : string
}.
End ContigVariants.

Section Extract.
(** [int(s)] and [float(s)] on a string: [None] is ValueError. *)
Variable py_int : string -> option Z.
Variable py_float : string -> option float.
(** [hashlib.md5(s).hexdigest()] *)
Variable md5_hexdigest : string -> string.

Definition parse {A : Type} (f : string -> option A) (s : string)
    : outcome A :=
  match f s with
  | Some a => Return a
  | None => Throw ValueError
  end.

(** [ContigVariants(seqId, name)] *)
Definition ContigVariants_init (seqId : string) (name : option string)
    : ContigVariants.t :=
  {| ContigVariants.seqid := seqId;
     ContigVariants.name := match name with None => seqId | Some n => n end;
     ContigVariants.variants := [];
     ContigVariants.file_name :=
       ("variants_plot_" ++ md5_hexdigest seqId ++ ".png")%string |}.

(** [self.add_data(gff3Record)]; [int(gff3Record.start)] is the start
    itself, an int already. *)
Definition add_data (self : ContigVariants.t) (gff3Record : Gff3Record.t)
    : outcome ContigVariants.t :=
  let atts := Gff3Record.attributes gff3Record in
  let startPos := Gff3Record.start gff3Record in
  s_ins <- getitem atts "ins" ;;
  inse <- parse py_int s_ins ;;
  s_del <- getitem atts "del" ;;
  de1e <- parse py_int s_del ;;
  s_sub <- getitem atts "sub" ;;
  snv <- parse py_int s_sub ;;
  Return
    {| ContigVariants.seqid := ContigVariants.seqid self;
       ContigVariants.name := ContigVariants.name self;
       ContigVariants.variants :=
         ContigVariants.variants self ++ [(startPos, inse, de1e, snv)];
       ContigVariants.file_name := ContigVariants.file_name self |}.

(** The inner function [_get_name]: the name of the first contig with this
    id, [None] when the loop falls through. *)
Fixpoint _get_name (contigs : list Contig.t) (id_ : string) : option string :=
  match contigs with
  | [] => None
  | c :: rest =>
      if String.eqb (Contig.id c) id_ then Some (Contig.name c)
      else _get_name rest id_
  end.

(** The separator of the [gaps] and [cov2] attributes: the comma. *)
Definition comma : Ascii.ascii := Ascii.ascii_of_nat 44.

(** [numGaps, lenGaps = s.split(sep)]: exactly two parts, else
    ValueError. *)
Definition unpack2 (parts : list string) : outcome (string * string) :=
  match parts with
  | [a; b] => Return (a, b)
  | _ => Throw ValueError
  end.

Definition set_length (e : Z) (row : ref_row) : ref_row :=
  {| LENGTH := Z.max e (LENGTH row); GAPS := GAPS row;
     ERR := ERR row; COV := COV row |}.

Definition add_gaps (n : Z) (row : ref_row) : ref_row :=
  {| LENGTH := LENGTH row; GAPS := GAPS row + n;
     ERR := ERR row; COV := COV row |}.

Definition add_cov (x : float) (row : ref_row) : ref_row :=
  {| LENGTH := LENGTH row; GAPS := GAPS row;
     ERR := ERR row; COV := PrimFloat.add (COV row) x |}.

(** The entry [[0, 0, 0, 0]]; the int 0 of the coverage slot only ever
    meets floats, where it acts as 0.0. *)
Definition ref_row_init : ref_row :=
  {| LENGTH := 0; GAPS := 0; ERR := 0; COV := 0%float |}.

(** The body of the loop over the records of the alignment summary. *)
Definition extract_record (contigs : list Contig.t)
    (st : dict string ref_row * dict string ContigVariants.t)
    (rec : Gff3Record.t)
    : outcome (dict string ref_row * dict string ContigVariants.t) :=
  let contig_ids := map Contig.id contigs in
  let '(ref_data, var_map) := st in
  seqid <- first_token (Gff3Record.seqid rec) ;;
  if negb (existsb (String.eqb seqid) contig_ids) then Return st
  else
    let ref_data := dict_setdefault seqid ref_row_init ref_data in
    let ref_data :=
      dict_adjust seqid (set_length (Gff3Record.end_ rec)) ref_data in
    s_gaps <- getitem (Gff3Record.attributes rec) "gaps" ;;
    gaps <- unpack2 (split_on comma s_gaps) ;;
    lenGaps <- parse py_int (snd gaps) ;;
    let ref_data := dict_adjust seqid (add_gaps lenGaps) ref_data in
    s_cov <- getitem (Gff3Record.attributes rec) "cov2" ;;
    cov <- parse py_float (hd ""%string (split_on comma s_cov)) ;;
    width <- float_of_Z (Gff3Record.end_ rec - Gff3Record.start rec + 1) ;;
    let ref_data :=
      dict_adjust seqid (add_cov (PrimFloat.mul cov width)) ref_data in
    let contig_var :=
      match dict_get seqid var_map with
      | Some cv => cv
      | None => ContigVariants_init seqid (_get_name contigs seqid)
      end in
    contig_var <- add_data contig_var rec ;;
    Return (ref_data, dict_set seqid contig_var var_map).

Fixpoint extract_loop (contigs : list Contig.t)
    (st : dict string ref_row * dict string ContigVariants.t)
    (reader : list Gff3Record.t)
    : outcome (dict string ref_row * dict string ContigVariants.t) :=
  match reader with
  | [] => Return st
  | rec :: rest =>
      st' <- extract_record contigs st rec ;;
      extract_loop contigs st' rest
  end.

(** [_extract_alignment_summ_data(aln_summ_gff, contigs)], on the records
    of the file. *)
Definition _extract_alignment_summ_data (reader : list Gff3Record.t)
    (contigs : list Contig.t)
    : outcome (dict string ref_row * dict string ContigVariants.t) :=
  extract_loop contigs ([], []) reader.

End Extract.

(* ------------------------------------------------------------------------- *)
(** ** [_get_consensus_table_and_attributes] *)

(** A concordance: a number, or the string ['NA']. *)
Inductive concordance_t : Type :=
| NA
| Concordance (f : float).

(** The table ['consensus_table'], as the values of its five columns
    [contig_name], [contig_len], [bases_called], [concordance],
    [coverage]. *)
Record Table : Type := {
  contig_name : list string;
  contig_len : list float;
  bases_called : list float;
  concordance : list concordance_t;
  coverage : list float
}.

(** The five attributes, in the order of the list the function builds. *)
Record Attributes : Type := {
  mean_contig_length : float;
  weighted_mean_bases_called : float;
  weighted_mean_concordance : concordance_t;
  weighted_mean_coverage : float;
  longest_contig_name : string
}.

(** The running values of the loop over the contigs. *)
Record consensus_state : Type := {
  table : Table;
  sum_lengths : float;
  mean_bases_called : float;
  mean_concord : concordance_t;
  mean_coverage : float
}.

Definition consensus_init : consensus_state :=
  {| table := {| contig_name := []; contig_len := []; bases_called := [];
                 concordance := []; coverage := [] |};
     sum_lengths := 0%float; mean_bases_called := 0%float;
     mean_concord := NA; mean_coverage := 0%float |}.

Section Consensus.
(** [reference_entry.get_contig(seqid)] and the [name] of the contig it
    returns, read when the row is added to the table. *)
Variable contig_t : Type.
Variable get_contig : string -> outcome contig_t.
Variable name_of : contig_t -> outcome string.

(** [ref_data[seqid]] *)
Definition ref_lookup (ref_data : dict string ref_row) (seqid : string)
    : outcome ref_row :=
  match dict_get seqid ref_data with
  | Some row => Return row
  | None => Throw (KeyError seqid)
  end.

(** The body of the loop over the ordered ids. *)
Definition consensus_row (ref_data : dict string ref_row)
    (st : consensus_state) (seqid : string) : outcome consensus_state :=
  contig <- get_contig seqid ;;
  row <- ref_lookup ref_data seqid ;;
  length <- float_of_Z (LENGTH row) ;;
  gaps <- float_of_Z (GAPS row) ;;
  errors <- float_of_Z (ERR row) ;;
  let cov := COV row in
  let sum_lengths' := PrimFloat.add (sum_lengths st) length in
  q <- float_div gaps length ;;
  let bases := PrimFloat.sub 1 q in
  let mean_bases' :=
    PrimFloat.add (mean_bases_called st) (PrimFloat.mul bases length) in
  cm <- (if negb (PrimFloat.eqb length gaps) then
           e <- float_div errors (PrimFloat.sub length gaps) ;;
           let concord := PrimFloat.sub 1 e in
           Return (Concordance concord,
                   match mean_concord st with
                   | NA => Concordance (PrimFloat.mul concord length)
                   | Concordance m =>
                       Concordance
                         (PrimFloat.add m (PrimFloat.mul concord length))
                   end)
         else Return (NA, mean_concord st)) ;;
  cvg <- float_div cov length ;;
  let mean_coverage' :=
    PrimFloat.add (mean_coverage st) (PrimFloat.mul cvg length) in
  let t := table st in
  cname <- name_of contig ;;
  Return
    {| table :=
         {| contig_name := contig_name t ++ [cname];
            contig_len := contig_len t ++ [length];
            bases_called := bases_called t ++ [bases];
            concordance := concordance t ++ [fst cm];
            coverage := coverage t ++ [cvg] |};
       sum_lengths := sum_lengths';
       mean_bases_called := mean_bases';
       mean_concord := snd cm;
       mean_coverage := mean_coverage' |}.

Fixpoint consensus_loop (ref_data : dict string ref_row)
    (st : consensus_state) (ordered_ids : list string)
    : outcome consensus_state :=
  match ordered_ids with
  | [] => Return st
  | seqid :: rest =>
      st' <- consensus_row ref_data st seqid ;;
      consensus_loop ref_data st' rest
  end.

Definition _get_consensus_table_and_attributes
    (ref_data : dict string ref_row) : outcome (Table * Attributes) :=
  let ordered_ids := _ref_ids_ordered_by_len ref_data in
  st <- consensus_loop ref_data consensus_init ordered_ids ;;
  n <- float_of_Z (Z.of_nat (List.length ordered_ids)) ;;
  mean_contig_length <- float_div (sum_lengths st) n ;;
  mean_bases <- float_div (mean_bases_called st) (sum_lengths st) ;;
  mean_conc <- match mean_concord st with
               | NA => Return NA
               | Concordance m =>
                   c <- float_div m (sum_lengths st) ;;
                   Return (Concordance c)
               end ;;
  mean_cov <- float_div (mean_coverage st) (sum_lengths st) ;;
  longest <- match ordered_ids with
             | [] => Throw IndexError
             | first :: _ => Return first
             end ;;
  Return (table st,
          {| mean_contig_length := mean_contig_length;
             weighted_mean_bases_called := mean_bases;
             weighted_mean_concordance := mean_conc;
             weighted_mean_coverage := mean_cov;
             longest_contig_name := longest |}).

End Consensus.

(* ------------------------------------------------------------------------- *)
(** ** Vocabulary of the statements *)

(** An input that passes: it has a value, and the path exists. *)
Definition input_ok (path_exists : string -> bool)
    (f : string * option string) : Prop :=
  exists path, snd f = Some path /\ path_exists path = true.

(** A record belongs to contig [k]: the first token of its seqid is [k]. *)
Definition of_contig (k : string) (rec : Gff3Record.t) : bool :=
  match first_token (Gff3Record.seqid rec) with
  | Return tok => String.eqb tok k
  | Throw _ => false
  end.

(** The records before the first one whose seqid has no token. *)
Fixpoint readable (reader : list Gff3Record.t) : list Gff3Record.t :=
  match reader with
  | [] => []
  | rec :: rest =>
      match first_token (Gff3Record.seqid rec) with
      | Return _ => rec :: readable rest
      | Throw _ => []
      end
  end.

(** The first token of the seqid of [rec] is no key of [ref_data]. *)
Definition unknown_contig (ref_data : dict string ref_row)
    (rec : Gff3Record.t) : bool :=
  negb (existsb (fun k => of_contig k rec) (map fst ref_data)).

(** The id [k] is the id of one of the contigs. *)
Definition listed (contigs : list Contig.t) (k : string) : bool :=
  existsb (String.eqb k) (map Contig.id contigs).

(** The greatest end of the records, 0 when there is none or none is
    positive. *)
Definition max_end (recs : list Gff3Record.t) : Z :=
  fold_right Z.max 0 (map Gff3Record.end_ recs).

(** The gap length a record announces: the second of the two
    comma-separated parts of its [gaps] attribute, read as an int (0 when
    the attribute is not of that form). *)
Definition gaps_of (py_int : string -> option Z) (rec : Gff3Record.t) : Z :=
  match dict_get "gaps"%string (Gff3Record.attributes rec) with
  | Some s =>
      match split_on comma s with
      | [_; lenGaps] =>
          match py_int lenGaps with Some n => n | None => 0 end
      | _ => 0
      end
  | None => 0
  end.

(** The number of positions of a record: [end - start + 1]. *)
Definition span_width (rec : Gff3Record.t) : Z :=
  Gff3Record.end_ rec - Gff3Record.start rec + 1.

Definition sum_Z (l : list Z) : Z := fold_right Z.add 0 l.

(** The record belongs to one of the contigs. *)
Definition listed_record (contigs : list Contig.t) (rec : Gff3Record.t)
    : bool :=
  match first_token (Gff3Record.seqid rec) with
  | Return tok => listed contigs tok
  | Throw _ => false
  end.

(** The seqid of the record has a token. *)
Definition has_token (rec : Gff3Record.t) : Prop :=
  exists tok, first_token (Gff3Record.seqid rec) = Return tok.

(** A reader of unsigned decimal numbers, to run the functions on sample
    records. *)
Fixpoint digits_from (acc : Z) (s : string) : option Z :=
  match s with
  | EmptyString => Some acc
  | String c t =>
      let n := Ascii.nat_of_ascii c in
      if Nat.leb 48 n && Nat.leb n 57
      then digits_from (10 * acc + Z.of_nat (n - 48)) t
      else None
  end.

Definition sample_int (s : string) : option Z :=
  match s with
  | EmptyString => None
  | _ => digits_from 0 s
  end.

Definition sample_float (s : string) : option float :=
  match sample_int s with
  | Some n => match float_of_Z n with Return f => Some f | Throw _ => None end
  | None => None
  end.

(** A small GFF stream for two contigs. *)
Definition gff (seqid : string) (s e : Z) (atts : dict string string)
    : Gff3Record.t :=
  {| Gff3Record.seqid := seqid; Gff3Record.start := s;
     Gff3Record.end_ := e; Gff3Record.attributes := atts |}.

Definition sample_ref_data : dict string ref_row :=
  [ ("ctgA"%string,
     {| LENGTH := 500; GAPS := 10; ERR := 0; COV := 1000%float |});
    ("ctgB"%string,
     {| LENGTH := 900; GAPS := 0; ERR := 2; COV := 450%float |});
    ("ctgC"%string,
     {| LENGTH := 500; GAPS := 500; ERR := 0; COV := 0%float |}) ].

Definition sample_contigs : list Contig.t :=
  [ {| Contig.id := "ctgA"; Contig.name := "Contig A";
       Contig.header := "ctgA first" |};
    {| Contig.id := "ctgB"; Contig.name := "Contig B";
       Contig.header := "ctgB second" |} ]%string.

Definition summ_atts (gaps cov2 : string) : dict string string :=
  [ ("gaps", gaps); ("cov2", cov2);
    ("ins", "0"); ("del", "1"); ("sub", "2") ]%string.

Definition sample_summary : list Gff3Record.t :=
  [ gff "ctgA first" 1 100 (summ_atts "1,10" "30,20,40");
    gff "ctgQ" 1 50 [];
    gff "ctgB" 1 200 (summ_atts "0,0" "12,10,15");
    gff "ctgA" 101 180 (summ_atts "2,25" "28,20,40") ].

Definition sample_variants : list Gff3Record.t :=
  [ gff "ctgB extra words" 10 10 [];
    gff "ctgZ" 5 9 [];
    gff "ctgA" 100 102 [];
    gff "ctgB" 700 700 [] ].

(** The numbers of one contig as the loop of
    [_get_consensus_table_and_attributes] reads them. *)
Record contig_floats : Type := {
  f_length : float;
  f_gaps : float;
  f_errors : float;
  f_cov : float
}.

Definition floats_of (ref_data : dict string ref_row) (k : string)
    : option contig_floats :=
  match dict_get k ref_data with
  | Some row =>
      match float_of_Z (LENGTH row), float_of_Z (GAPS row),
            float_of_Z (ERR row) with
      | Return l, Return g, Return e =>
          Some {| f_length := l; f_gaps := g; f_errors := e;
                  f_cov := COV row |}
      | _, _, _ => None
      end
  | None => None
  end.

(** The cells of the row of a contig. *)
Definition bases_cell (x : contig_floats) : float :=
  PrimFloat.sub 1 (PrimFloat.div (f_gaps x) (f_length x)).

Definition concordance_cell (x : contig_floats) : concordance_t :=
  if PrimFloat.eqb (f_length x) (f_gaps x) then NA
  else Concordance
         (PrimFloat.sub 1
            (PrimFloat.div (f_errors x)
               (PrimFloat.sub (f_length x) (f_gaps x)))).

Definition coverage_cell (x : contig_floats) : float :=
  PrimFloat.div (f_cov x) (f_length x).

(** Sums of floats, taken from left to right from 0.0. *)
Definition float_sum (l : list float) : float :=
  fold_left PrimFloat.add l 0%float.

(** The coverage a record adds: the first of the comma-separated parts of
    its [cov2] attribute, read as a float, times its number of positions
    (0.0 when the attribute is not of that form). *)
Definition cov_of (py_float : string -> option float) (rec : Gff3Record.t)
    : float :=
  match dict_get "cov2"%string (Gff3Record.attributes rec) with
  | Some s =>
      match py_float (hd ""%string (split_on comma s)),
            float_of_Z (Gff3Record.end_ rec - Gff3Record.start rec + 1) with
      | Some c, Return w => PrimFloat.mul c w
      | _, _ => 0%float
      end
  | None => 0%float
  end.

Definition weighted_sum (vals lens : list float) : float :=
  fold_left (fun acc p => PrimFloat.add acc (PrimFloat.mul (fst p) (snd p)))
    (combine vals lens) 0%float.

(* ------------------------------------------------------------------------- *)
(** ** Invariants of the loops *)

Section Invariants.
Variable py_int : string -> option Z.
Variable py_float : string -> option float.
Variable md5_hexdigest : string -> string.
Variable contigs : list Contig.t.

(** What the two dictionaries of [_extract_alignment_summ_data] hold after
    the records [recs]. *)
Definition summary_of (recs : list Gff3Record.t)
    (rd : dict string ref_row) (vm : dict string ContigVariants.t) : Prop :=
  map fst rd = map fst vm
  /\ (forall k, In k (map fst rd)
                <-> listed contigs k = true
                    /\ exists rec, In rec recs /\ of_contig k rec = true)
  /\ (forall k row, dict_get k rd = Some row ->
        LENGTH row = max_end (filter (of_contig k) recs)
        /\ GAPS row = sum_Z (map (gaps_of py_int) (filter (of_contig k) recs))
        /\ ERR row = 0
        /\ COV row
           = float_sum (map (cov_of py_float) (filter (of_contig k) recs)))
  /\ (forall k cv, dict_get k vm = Some cv ->
        map (fun v => fst (fst (fst v))) (ContigVariants.variants cv)
        = map Gff3Record.start (filter (of_contig k) recs)
        /\ ContigVariants.seqid cv = k
        /\ ContigVariants.name cv
           = match _get_name contigs k with Some n => n | None => k end
        /\ ContigVariants.file_name cv
           = ("variants_plot_" ++ md5_hexdigest k ++ ".png")%string).

End Invariants.

(** One contig as the consensus table shows it: its name and its
    numbers. *)
Definition row_of {contig_t : Type} (get_contig : string -> outcome contig_t)
    (name_of : contig_t -> outcome string) (ref_data : dict string ref_row)
    (k : string) (r : string * contig_floats) : Prop :=
  floats_of ref_data k = Some (snd r)
  /\ PrimFloat.eqb (f_length (snd r)) 0%float = false
  /\ exists c, get_contig k = Return c /\ name_of c = Return (fst r).

(** The running sums of [_get_consensus_table_and_attributes] are those of
    the columns built so far. *)
Definition sums_inv (st : consensus_state) : Prop :=
  List.length (bases_called (table st)) = List.length (contig_len (table st))
  /\ List.length (coverage (table st)) = List.length (contig_len (table st))
  /\ sum_lengths st = float_sum (contig_len (table st))
  /\ mean_bases_called st
     = weighted_sum (bases_called (table st)) (contig_len (table st))
  /\ mean_coverage st
     = weighted_sum (coverage (table st)) (contig_len (table st))
  /\ (mean_concord st = NA
      <-> Forall (fun c => c = NA) (concordance (table st))).

(** A reference whose contigs are their ids, named after them. *)
Definition sample_get_contig (k : string) : outcome string := Return k.

Definition sample_name_of (c : string) : outcome string :=
  Return ("Contig " ++ c)%string.

End Variants.

(* ========================================================================= *)
(** * Properties *)

(* ------------------------------------------------------------------------- *)
(** ** Keys *)

#[export] Instance zmw_key_ok : EqbKeyOk zmw_id_t.
Proof.
  intros [ma ha] [mb hb]; unfold keqb, zmw_key, zmw_eqb; simpl.
  rewrite andb_true_iff, String.eqb_eq, Z.eqb_eq.
  split; [intros [-> ->]; reflexivity | intros E; inversion E; auto].
Qed.

#[export] Instance subread_key_ok : EqbKeyOk subread_id_t.
Proof.
  intros [[[ma ha] sa] ea] [[[mb hb] sb] eb]; unfold keqb, subread_key; simpl.
  rewrite !andb_true_iff, String.eqb_eq, !Z.eqb_eq.
  split; [intros [[[-> ->] ->] ->]; reflexivity
         | intros E; inversion E; auto].
Qed.

(* ------------------------------------------------------------------------- *)
(** ** Dictionaries *)

Section DictFacts.
Context {K V : Type} `{EqbKeyOk K}.
Implicit Types (k : K) (v : V) (d : dict K V).

Lemma keqb_refl k : keqb k k = true.
Proof. apply keqb_eq; reflexivity. Qed.

Lemma keqb_neq k k' : k <> k' -> keqb k k' = false.
Proof.
  intros N; destruct (keqb k k') eqn:E; [|reflexivity].
  apply keqb_eq in E; contradiction.
Qed.

Lemma keqb_dec k k' : {k = k'} + {k <> k'}.
Proof.
  destruct (keqb k k') eqn:E.
  - left; apply keqb_eq; exact E.
  - right; intros ->; rewrite keqb_refl in E; discriminate.
Qed.

Lemma dict_get_set_eq k v d : dict_get k (dict_set k v d) = Some v.
Proof.
  induction d as [|[k0 v0] t IH]; simpl.
  - rewrite keqb_refl; reflexivity.
  - destruct (keqb k k0) eqn:E; simpl; rewrite E; auto.
Qed.

Lemma dict_get_set_neq k k' v d :
  k <> k' -> dict_get k' (dict_set k v d) = dict_get k' d.
Proof.
  intros N; induction d as [|[k0 v0] t IH]; simpl.
  - rewrite keqb_neq by congruence; reflexivity.
  - destruct (keqb k k0) eqn:E; simpl.
    + apply keqb_eq in E; subst k0.
      rewrite keqb_neq by congruence; reflexivity.
    + destruct (keqb k' k0); auto.
Qed.

Lemma dict_get_adjust_eq k f d :
  dict_get k (dict_adjust k f d) = option_map f (dict_get k d).
Proof.
  induction d as [|[k0 v0] t IH]; simpl; [reflexivity|].
  destruct (keqb k k0) eqn:E; simpl; rewrite E; auto.
Qed.

Lemma dict_get_adjust_neq k k' f d :
  k <> k' -> dict_get k' (dict_adjust k f d) = dict_get k' d.
Proof.
  intros N; induction d as [|[k0 v0] t IH]; simpl; [reflexivity|].
  destruct (keqb k k0) eqn:E; simpl.
  - apply keqb_eq in E; subst k0.
    rewrite keqb_neq by congruence; reflexivity.
  - destruct (keqb k' k0); auto.
Qed.

Lemma dict_get_setdefault_eq k v d :
  dict_get k (dict_setdefault k v d)
  = Some (match dict_get k d with Some x => x | None => v end).
Proof.
  unfold dict_setdefault, dict_mem.
  destruct (dict_get k d) eqn:E; [exact E | apply dict_get_set_eq].
Qed.

Lemma dict_get_setdefault_neq k k' v d :
  k <> k' -> dict_get k' (dict_setdefault k v d) = dict_get k' d.
Proof.
  intros N; unfold dict_setdefault.
  destruct (dict_mem k d); [reflexivity | apply dict_get_set_neq; exact N].
Qed.

Lemma dict_len_set k v d :
  dict_len (dict_set k v d)
  = if dict_mem k d then dict_len d else S (dict_len d).
Proof.
  unfold dict_mem, dict_len.
  induction d as [|[k0 v0] t IH]; simpl; [reflexivity|].
  destruct (keqb k k0); simpl; [reflexivity|].
  rewrite IH; destruct (dict_get k t); reflexivity.
Qed.

Lemma dict_get_None k d : dict_get k d = None <-> ~ In k (map fst d).
Proof.
  induction d as [|[k0 v0] t IH]; simpl; [tauto|].
  destruct (keqb k k0) eqn:E.
  - apply keqb_eq in E; subst k0; split; [discriminate | tauto].
  - rewrite IH; split; [|tauto].
    intros N [->|I]; [rewrite keqb_refl in E; discriminate | tauto].
Qed.

Lemma dict_keys_set k v d :
  map fst (dict_set k v d)
  = if dict_mem k d then map fst d else map fst d ++ [k].
Proof.
  unfold dict_mem.
  induction d as [|[k0 v0] t IH]; simpl; [reflexivity|].
  destruct (keqb k k0); simpl; [reflexivity|].
  rewrite IH; destruct (dict_get k t); reflexivity.
Qed.

Lemma dict_wf_set k v d : dict_wf d -> dict_wf (dict_set k v d).
Proof.
  unfold dict_wf; intros W; rewrite dict_keys_set; unfold dict_mem.
  destruct (dict_get k d) eqn:G; [exact W|].
  apply dict_get_None in G.
  apply NoDup_rev in W; rewrite <- (rev_involutive (_ ++ _)).
  apply NoDup_rev; rewrite rev_app_distr; simpl.
  constructor; [rewrite <- in_rev; exact G | exact W].
Qed.

Lemma dict_keys_adjust k f d : map fst (dict_adjust k f d) = map fst d.
Proof.
  induction d as [|[k0 v0] t IH]; simpl; [reflexivity|].
  destruct (keqb k k0); simpl; congruence.
Qed.

End DictFacts.

(* ------------------------------------------------------------------------- *)
(** ** The crunching pass, one record at a time *)

Section CrunchFacts.
Variable movie_name : string.
Implicit Types (bam : list AlignmentRecord) (r : AlignmentRecord).
Implicit Types (st : crunch_state) (k : zmw_id_t).

Lemma crunch_app bam1 bam2 :
  alignment_info_from_bam (bam1 ++ bam2) movie_name
  = fold_left (crunch_record movie_name) bam2
      (alignment_info_from_bam bam1 movie_name).
Proof. unfold alignment_info_from_bam; apply fold_left_app. Qed.

Lemma crunch_snoc bam r :
  alignment_info_from_bam (bam ++ [r]) movie_name
  = crunch_record movie_name (alignment_info_from_bam bam movie_name) r.
Proof. rewrite crunch_app; reflexivity. Qed.

Lemma crunch_record_skip st r :
  matching movie_name r = false ->
  crunch_record movie_name st r
  = {| datum := datum st; unrolled := unrolled st;
       max_subread := max_subread st;
       movie_names := set_add (MovieName r) (movie_names st);
       last_zmw_id := last_zmw_id st; warned := warned st |}.
Proof.
  unfold matching, crunch_record; intros ->; reflexivity.
Qed.

Lemma crunch_record_hit st r :
  matching movie_name r = true ->
  crunch_record movie_name st r
  = {| datum := dict_set (subread_id_of r) (this_a (last_zmw_id st) r)
                  (datum st);
       unrolled := widen (zmw_id_of r) (aStart r) (aEnd r) (unrolled st);
       max_subread := keep_longest (zmw_id_of r) (subread_id_of r)
                        (subread_length r) (max_subread st);
       movie_names := set_add (MovieName r) (movie_names st);
       last_zmw_id := Some (zmw_id_of r);
       warned := if dict_mem (subread_id_of r) (datum st)
                 then warned st ++ [Duplicate_subread (subread_id_of r)]
                 else warned st |}.
Proof.
  unfold matching, crunch_record; intros ->; reflexivity.
Qed.

Lemma matching_records_snoc bam r :
  matching_records movie_name (bam ++ [r])
  = matching_records movie_name bam
    ++ (if matching movie_name r then [r] else []).
Proof.
  unfold matching_records; rewrite filter_app; simpl.
  destruct (matching movie_name r); reflexivity.
Qed.

Lemma prev_zmw_snoc bam r :
  prev_zmw movie_name (bam ++ [r])
  = if matching movie_name r then Some (zmw_id_of r)
    else prev_zmw movie_name bam.
Proof.
  unfold prev_zmw; rewrite matching_records_snoc.
  destruct (matching movie_name r).
  - rewrite rev_app_distr; reflexivity.
  - rewrite app_nil_r; reflexivity.
Qed.

(** [last_zmw_id] is the key of the latest record of the target movie:
    records of other movies leave it alone. *)
Lemma last_zmw_id_spec bam :
  last_zmw_id (alignment_info_from_bam bam movie_name)
  = prev_zmw movie_name bam.
Proof.
  induction bam as [|r bam IH] using rev_ind; [reflexivity|].
  rewrite crunch_snoc, prev_zmw_snoc.
  destruct (matching movie_name r) eqn:M.
  - rewrite crunch_record_hit by exact M; reflexivity.
  - rewrite crunch_record_skip by exact M; exact IH.
Qed.

(** *** Read spans *)

Lemma widen_get_eq k s e (u : dict zmw_id_t (Z * Z)) :
  dict_get k (widen k s e u)
  = Some (let v := match dict_get k u with
                   | Some x => x
                   | None => (99999, 0)
                   end in
          (Z.min (fst v) s, Z.max (snd v) e)).
Proof.
  unfold widen.
  rewrite !dict_get_adjust_eq, dict_get_setdefault_eq; reflexivity.
Qed.

Lemma widen_get_neq k k' s e (u : dict zmw_id_t (Z * Z)) :
  k <> k' -> dict_get k' (widen k s e u) = dict_get k' u.
Proof.
  intros N; unfold widen.
  rewrite !dict_get_adjust_neq by exact N.
  apply dict_get_setdefault_neq; exact N.
Qed.

Lemma unrolled_ordered bam :
  (forall r, In r bam -> matching movie_name r = true ->
             aStart r <= aEnd r) ->
  forall k s e,
    dict_get k (unrolled (alignment_info_from_bam bam movie_name))
    = Some (s, e) ->
    s <= e.
Proof.
  induction bam as [|r bam IH] using rev_ind; intros Hord k s e.
  - discriminate.
  - rewrite crunch_snoc.
    assert (Hbam : forall r0, In r0 bam -> matching movie_name r0 = true ->
                              aStart r0 <= aEnd r0)
      by (intros r0 I; apply Hord, in_or_app; left; exact I).
    specialize (IH Hbam).
    destruct (matching movie_name r) eqn:M.
    + rewrite crunch_record_hit by exact M; simpl.
      assert (Hr : aStart r <= aEnd r)
        by (apply Hord; [apply in_or_app; right; left; reflexivity | exact M]).
      destruct (keqb_dec (zmw_id_of r) k) as [<-|N].
      * rewrite widen_get_eq.
        destruct (dict_get (zmw_id_of r) _) as [[s0 e0]|] eqn:G;
          simpl; intros [= <- <-].
        -- specialize (IH _ _ _ G); lia.
        -- lia.
      * rewrite widen_get_neq by exact N; apply IH.
    + rewrite crunch_record_skip by exact M; simpl; apply IH.
Qed.

Lemma unrolled_present bam r :
  In r bam -> matching movie_name r = true ->
  dict_get (zmw_id_of r) (unrolled (alignment_info_from_bam bam movie_name))
  <> None.
Proof.
  induction bam as [|x bam IH] using rev_ind; intros I M; [contradiction|].
  rewrite crunch_snoc.
  destruct (matching movie_name x) eqn:Mx.
  - rewrite crunch_record_hit by exact Mx; simpl.
    destruct (keqb_dec (zmw_id_of x) (zmw_id_of r)) as [E|N].
    + rewrite <- E, widen_get_eq; discriminate.
    + rewrite widen_get_neq by exact N.
      apply in_app_or in I; destruct I as [I|[->|[]]]; [auto | congruence].
  - rewrite crunch_record_skip by exact Mx; simpl.
    apply in_app_or in I; destruct I as [I|[->|[]]]; [auto | congruence].
Qed.

End CrunchFacts.

(* ------------------------------------------------------------------------- *)
(** ** The longest subread of each read *)

Section LongestFacts.
Variable movie_name : string.
Implicit Types (bam : list AlignmentRecord) (r : AlignmentRecord).
Implicit Types (k : zmw_id_t) (m : dict zmw_id_t (subread_id_t * Z)).

Lemma keep_longest_get_eq k sid len m :
  dict_get k (keep_longest k sid len m)
  = Some (match dict_get k m with
          | None => (sid, len)
          | Some (sid0, best) =>
              if best <? len then (sid, len) else (sid0, best)
          end).
Proof.
  unfold keep_longest.
  destruct (dict_get k m) as [[sid0 best]|] eqn:G.
  - destruct (best <? len); [apply dict_get_set_eq | exact G].
  - apply dict_get_set_eq.
Qed.

Lemma keep_longest_get_neq k k' sid len m :
  k <> k' -> dict_get k' (keep_longest k sid len m) = dict_get k' m.
Proof.
  intros N; unfold keep_longest.
  destruct (dict_get k m) as [[sid0 best]|].
  - destruct (best <? len); [apply dict_get_set_neq; exact N | reflexivity].
  - apply dict_get_set_neq; exact N.
Qed.

Lemma max_subread_present bam r :
  In r bam -> matching movie_name r = true ->
  dict_get (zmw_id_of r)
    (max_subread (alignment_info_from_bam bam movie_name)) <> None.
Proof.
  induction bam as [|x bam IH] using rev_ind; intros I M; [contradiction|].
  rewrite crunch_snoc.
  destruct (matching movie_name x) eqn:Mx.
  - rewrite crunch_record_hit by exact Mx; simpl.
    destruct (keqb_dec (zmw_id_of x) (zmw_id_of r)) as [E|N].
    + rewrite <- E, keep_longest_get_eq; discriminate.
    + rewrite keep_longest_get_neq by exact N.
      apply in_app_or in I; destruct I as [I|[->|[]]]; [auto | congruence].
  - rewrite crunch_record_skip by exact Mx; simpl.
    apply in_app_or in I; destruct I as [I|[->|[]]]; [auto | congruence].
Qed.

End LongestFacts.

(* ------------------------------------------------------------------------- *)
(** ** Subread rows: latest write wins, one warning per overwrite *)

Section DatumFacts.
Variable movie_name : string.
Implicit Types (bam pre post : list AlignmentRecord) (r : AlignmentRecord).

Lemma float_one_neq_zero : 1%float <> 0%float.
Proof.
  intros E.
  apply (f_equal (fun x => PrimFloat.eqb x 0%float)) in E.
  vm_compute in E; discriminate.
Qed.

Lemma zmw_differs_true (z : zmw_id_t) (last : option zmw_id_t) :
  zmw_differs z last = true <-> last <> Some z.
Proof.
  destruct last as [z'|]; simpl.
  - rewrite negb_true_iff; split.
    + intros E [= ->]. change (keqb z z = false) in E.
      rewrite keqb_refl in E; discriminate.
    + intros N. apply (keqb_neq (k := z) (k' := z')); congruence.
  - split; [discriminate | reflexivity].
Qed.

Lemma isFirst_this_a (last : option zmw_id_t) r :
  isFirst_of (this_a last r)
  = Some (VFloat (if zmw_differs (zmw_id_of r) last
                  then 1%float else 0%float)).
Proof. reflexivity. Qed.

Lemma isFirst_one_iff (last : option zmw_id_t) r :
  isFirst_of (this_a last r) = Some (VFloat 1%float)
  <-> last <> Some (zmw_id_of r).
Proof.
  rewrite isFirst_this_a, <- zmw_differs_true.
  destruct (zmw_differs (zmw_id_of r) last); split; auto; try discriminate.
Qed.

Lemma isFirst_zero_iff (last : option zmw_id_t) r :
  isFirst_of (this_a last r) = Some (VFloat 0%float)
  <-> last = Some (zmw_id_of r).
Proof.
  rewrite isFirst_this_a.
  destruct (zmw_differs (zmw_id_of r) last) eqn:D; split.
  - intros [= E]; apply float_one_neq_zero in E; contradiction.
  - intros E; apply zmw_differs_true in D; contradiction.
  - intros _. destruct last as [z|]; [|discriminate].
    simpl in D; apply negb_false_iff in D.
    change (keqb (zmw_id_of r) z = true) in D.
    apply keqb_eq in D; congruence.
  - reflexivity.
Qed.

(** The row found under a SubreadId is the one built for the last record
    of the target movie that produced this SubreadId. *)
Lemma datum_latest pre r post :
  matching movie_name r = true ->
  (forall x, In x post -> matching movie_name x = true ->
             subread_id_of x <> subread_id_of r) ->
  dict_get (subread_id_of r)
    (datum (alignment_info_from_bam (pre ++ r :: post) movie_name))
  = Some (this_a (prev_zmw movie_name pre) r).
Proof.
  intros M; induction post as [|x post IH] using rev_ind; intros Hpost.
  - rewrite crunch_snoc, crunch_record_hit by exact M; simpl.
    rewrite dict_get_set_eq, last_zmw_id_spec; reflexivity.
  - change (pre ++ r :: post ++ [x]) with (pre ++ (r :: post) ++ [x]).
    rewrite app_assoc, crunch_snoc.
    assert (IH' : forall y, In y post -> matching movie_name y = true ->
                            subread_id_of y <> subread_id_of r)
      by (intros y I; apply Hpost, in_or_app; left; exact I).
    specialize (IH IH').
    destruct (matching movie_name x) eqn:Mx.
    + rewrite crunch_record_hit by exact Mx; simpl.
      rewrite dict_get_set_neq; [exact IH|].
      apply Hpost; [apply in_or_app; right; left; reflexivity | exact Mx].
    + rewrite crunch_record_skip by exact Mx; simpl; exact IH.
Qed.

(** One record adds one warning exactly when it overwrites a row. *)
Lemma warned_snoc bam r :
  warned (alignment_info_from_bam (bam ++ [r]) movie_name)
  = warned (alignment_info_from_bam bam movie_name)
    ++ (if matching movie_name r
           && dict_mem (subread_id_of r)
                (datum (alignment_info_from_bam bam movie_name))
        then [Duplicate_subread (subread_id_of r)] else []).
Proof.
  rewrite crunch_snoc.
  destruct (matching movie_name r) eqn:M; simpl.
  - rewrite crunch_record_hit by exact M; simpl.
    destruct (dict_mem _ _); [reflexivity | rewrite app_nil_r; reflexivity].
  - rewrite crunch_record_skip by exact M; simpl.
    rewrite app_nil_r; reflexivity.
Qed.

(** Every record of the target movie either creates a row or warns. *)
Lemma warned_count bam :
  (List.length (warned (alignment_info_from_bam bam movie_name))
   + dict_len (datum (alignment_info_from_bam bam movie_name)))%nat
  = List.length (matching_records movie_name bam).
Proof.
  induction bam as [|r bam IH] using rev_ind; [reflexivity|].
  rewrite matching_records_snoc, length_app, <- IH, crunch_snoc.
  destruct (matching movie_name r) eqn:M.
  - rewrite crunch_record_hit by exact M; simpl.
    rewrite dict_len_set.
    destruct (dict_mem _ _); [rewrite length_app; simpl|]; lia.
  - rewrite crunch_record_skip by exact M; simpl; lia.
Qed.

Lemma datum_wf bam :
  dict_wf (datum (alignment_info_from_bam bam movie_name)).
Proof.
  induction bam as [|r bam IH] using rev_ind; [constructor|].
  rewrite crunch_snoc.
  destruct (matching movie_name r) eqn:M.
  - rewrite crunch_record_hit by exact M; simpl.
    apply dict_wf_set; exact IH.
  - rewrite crunch_record_skip by exact M; simpl; exact IH.
Qed.

Lemma unrolled_wf bam :
  dict_wf (unrolled (alignment_info_from_bam bam movie_name)).
Proof.
  induction bam as [|r bam IH] using rev_ind; [constructor|].
  rewrite crunch_snoc.
  destruct (matching movie_name r) eqn:M.
  - rewrite crunch_record_hit by exact M; simpl.
    unfold widen, dict_wf; rewrite !dict_keys_adjust.
    unfold dict_setdefault; destruct (dict_mem _ _); [exact IH|].
    apply dict_wf_set; exact IH.
  - rewrite crunch_record_skip by exact M; simpl; exact IH.
Qed.

Lemma prev_zmw_others pre others :
  Forall (fun x => matching movie_name x = false) others ->
  prev_zmw movie_name (pre ++ others) = prev_zmw movie_name pre.
Proof.
  intros F; unfold prev_zmw, matching_records.
  rewrite filter_app.
  replace (filter (matching movie_name) others) with (@nil AlignmentRecord);
    [rewrite app_nil_r; reflexivity|].
  induction F as [|x l Hx F IH]; simpl; [reflexivity|].
  rewrite Hx; exact IH.
Qed.

End DatumFacts.

(* ------------------------------------------------------------------------- *)
(** ** The table builder *)

Section NumpifyFacts.
Variable reads0 : dict zmw_id_t (Z * Z).
Variable subreads0 : dict subread_id_t row.
Implicit Types (mnames : list string) (st : numpify_state).

Let step := numpify_step reads0 subreads0.

Lemma loop_rl mnames st :
  rl (fold_left step mnames st)
  = rl st ++ flat_map (reads_of reads0) mnames.
Proof.
  revert st; induction mnames as [|nm t IH]; intros st; simpl.
  - rewrite app_nil_r; reflexivity.
  - rewrite IH; simpl; rewrite <- app_assoc; reflexivity.
Qed.

Lemma loop_sl mnames st :
  sl (fold_left step mnames st)
  = sl st ++ flat_map (subreads_of subreads0) mnames.
Proof.
  revert st; induction mnames as [|nm t IH]; intros st; simpl.
  - rewrite app_nil_r; reflexivity.
  - rewrite IH; simpl; rewrite <- app_assoc; reflexivity.
Qed.

Lemma loop_movies mnames st :
  movies_acc (fold_left step mnames st)
  = movies_acc st
    ++ movie_index reads0 subreads0 (cur_rOffs st) (cur_sOffs st) mnames.
Proof.
  revert st; induction mnames as [|nm t IH]; intros st; simpl.
  - rewrite app_nil_r; reflexivity.
  - rewrite IH; simpl; rewrite <- app_assoc; reflexivity.
Qed.

Lemma numpify_loop_rl mnames :
  rl (numpify_loop mnames reads0 subreads0)
  = flat_map (reads_of reads0) mnames.
Proof. unfold numpify_loop; fold step; rewrite loop_rl; reflexivity. Qed.

Lemma numpify_loop_sl mnames :
  sl (numpify_loop mnames reads0 subreads0)
  = flat_map (subreads_of subreads0) mnames.
Proof. unfold numpify_loop; fold step; rewrite loop_sl; reflexivity. Qed.

Lemma numpify_loop_movies mnames :
  movies_acc (numpify_loop mnames reads0 subreads0)
  = movie_index reads0 subreads0 0 0 mnames.
Proof. unfold numpify_loop; fold step; rewrite loop_movies; reflexivity. Qed.

(** *** Lengths add up and offsets are running sums *)

Lemma movie_index_total_rLen ro so mnames :
  total_rLen (movie_index reads0 subreads0 ro so mnames)
  = List.length (flat_map (reads_of reads0) mnames).
Proof.
  revert ro so; induction mnames as [|nm t IH]; intros ro so; simpl.
  - reflexivity.
  - rewrite IH, length_app; reflexivity.
Qed.

Lemma movie_index_total_sLen ro so mnames :
  total_sLen (movie_index reads0 subreads0 ro so mnames)
  = List.length (flat_map (subreads_of subreads0) mnames).
Proof.
  revert ro so; induction mnames as [|nm t IH]; intros ro so; simpl.
  - reflexivity.
  - rewrite IH, length_app; reflexivity.
Qed.

(** An entry's offsets are the totals of the entries before it, and the
    names before it are the movies laid out before it. *)
Lemma movie_index_split ro so mnames ms1 m ms2 :
  movie_index reads0 subreads0 ro so mnames = ms1 ++ m :: ms2 ->
  exists n1 n2,
    mnames = n1 ++ name m :: n2
    /\ ms1 = movie_index reads0 subreads0 ro so n1
    /\ rOffs m = (ro + total_rLen ms1)%nat
    /\ sOffs m = (so + total_sLen ms1)%nat
    /\ rLen m = List.length (reads_of reads0 (name m))
    /\ sLen m = List.length (subreads_of subreads0 (name m)).
Proof.
  revert ro so ms1; induction mnames as [|nm t IH]; intros ro so ms1; simpl.
  - destruct ms1; discriminate.
  - destruct ms1 as [|m1 ms1]; simpl; intros [= E1 E2].
    + subst m; exists [], t; simpl; repeat split; lia.
    + destruct (IH _ _ _ E2) as (n1 & n2 & -> & -> & Hr & Hs & Lr & Ls).
      exists (nm :: n1), n2; subst m1; simpl.
      repeat split; auto; lia.
Qed.

Lemma py_slice_app {A : Type} (a b c : list A) :
  py_slice (List.length a) (List.length a + List.length b) (a ++ b ++ c) = b.
Proof.
  unfold py_slice.
  rewrite skipn_app, skipn_all, Nat.sub_diag; simpl.
  replace (List.length a + List.length b - List.length a)%nat
    with (List.length b + 0)%nat by lia.
  rewrite firstn_app_2; simpl; apply app_nil_r.
Qed.

End NumpifyFacts.

(** *** Each item is collected once when the names are distinct *)

Section Collect.
Context {A B : Type}.
Variable mv : A -> string.
Variable g : A -> B.

Let pick (l : list A) (nm : string) : list B :=
  map g (filter (fun kv => String.eqb (mv kv) nm) l).

Lemma collect_cons (x : A) (l : list A) (mnames : list string) :
  List.length (flat_map (pick (x :: l)) mnames)
  = (List.length (filter (String.eqb (mv x)) mnames)
     + List.length (flat_map (pick l) mnames))%nat.
Proof.
  induction mnames as [|nm t IH]; simpl; [reflexivity|].
  rewrite !length_app, IH; unfold pick at 1 3; simpl.
  destruct (String.eqb (mv x) nm); simpl; lia.
Qed.

Lemma filter_eqb_absent (x : string) (mnames : list string) :
  ~ In x mnames -> filter (String.eqb x) mnames = [].
Proof.
  induction mnames as [|nm t IH]; simpl; intros N; [reflexivity|].
  destruct (String.eqb x nm) eqn:E.
  - apply String.eqb_eq in E; subst; tauto.
  - apply IH; tauto.
Qed.

Lemma filter_eqb_once (x : string) (mnames : list string) :
  NoDup mnames -> In x mnames ->
  List.length (filter (String.eqb x) mnames) = 1%nat.
Proof.
  induction 1 as [|nm t Hnm ND IH]; simpl; intros I; [contradiction|].
  destruct (String.eqb x nm) eqn:E.
  - apply String.eqb_eq in E; subst nm.
    rewrite filter_eqb_absent by exact Hnm; reflexivity.
  - apply String.eqb_neq in E.
    destruct I as [->|I]; [contradiction | auto].
Qed.

Lemma collect_length (l : list A) (mnames : list string) :
  NoDup mnames ->
  (forall x, In x l -> In (mv x) mnames) ->
  List.length (flat_map (pick l) mnames) = List.length l.
Proof.
  intros ND; induction l as [|x l IH]; intros Hin.
  - induction mnames as [|nm t IHn]; simpl; [reflexivity|].
    inversion ND; subst; apply IHn; [assumption | intros ? []].
  - rewrite collect_cons, filter_eqb_once.
    + rewrite IH; [reflexivity|].
      intros y I; apply Hin; right; exact I.
    + exact ND.
    + apply Hin; left; reflexivity.
Qed.

End Collect.

Section DistinctFacts.
Context {K : Type} `{EqbKeyOk K}.

Lemma existsb_keqb_In (k : K) (ks : list K) :
  existsb (keqb k) ks = true <-> In k ks.
Proof.
  rewrite existsb_exists; split.
  - intros (x & I & E); apply keqb_eq in E; subst; exact I.
  - intros I; exists k; split; [exact I | apply keqb_refl].
Qed.

Lemma distinct_count_NoDup (ks : list K) :
  NoDup ks -> distinct_count ks = List.length ks.
Proof.
  induction 1 as [|k t Hk ND IH]; simpl; [reflexivity|].
  destruct (existsb (keqb k) t) eqn:E.
  - apply existsb_keqb_In in E; contradiction.
  - rewrite IH; reflexivity.
Qed.

End DistinctFacts.

(* ------------------------------------------------------------------------- *)
(** ** The percentile helper *)

Section IndexFacts.
Context {A : Type}.
Implicit Types (l : list A).

Lemma py_index_nonneg l (i : Z) :
  0 <= i < Z.of_nat (List.length l) ->
  exists x, py_index l i = Ok x /\ nth_error l (Z.to_nat i) = Some x.
Proof.
  intros [Lo Hi]; unfold py_index; cbv zeta.
  assert (E1 : (i <? 0) = false) by (apply Z.ltb_ge; lia).
  assert (E2 : (Z.of_nat (List.length l) <=? i) = false)
    by (apply Z.leb_gt; lia).
  rewrite E1, E1, E2; cbv beta iota delta [orb].
  destruct (nth_error l (Z.to_nat i)) as [x|] eqn:G.
  - exists x; split; reflexivity.
  - apply nth_error_None in G; lia.
Qed.

Lemma py_index_last l :
  l <> [] ->
  exists x, py_index l (-1) = Ok x
            /\ nth_error l (List.length l - 1) = Some x.
Proof.
  intros NE; unfold py_index.
  assert (Hn : (0 < List.length l)%nat)
    by (destruct l; [contradiction | simpl; lia]).
  change (-1 <? 0) with true; cbv beta iota zeta.
  assert (E1 : (-1 + Z.of_nat (List.length l) <? 0) = false)
    by (apply Z.ltb_ge; lia).
  assert (E2 : (Z.of_nat (List.length l)
                <=? -1 + Z.of_nat (List.length l)) = false)
    by (apply Z.leb_gt; lia).
  rewrite E1, E2; cbv beta iota zeta delta [orb].
  replace (Z.to_nat (-1 + Z.of_nat (List.length l)))
    with (List.length l - 1)%nat by lia.
  destruct (nth_error l (List.length l - 1)) as [x|] eqn:G.
  - exists x; split; reflexivity.
  - apply nth_error_None in G; lia.
Qed.

Lemma py_index_empty (i : Z) : py_index (@nil A) i = Raise IndexError_out_of_range.
Proof.
  unfold py_index; simpl.
  destruct (i <? 0) eqn:E; simpl.
  - rewrite Z.add_0_r, E; reflexivity.
  - destruct (0 <=? i) eqn:E2; [rewrite orb_true_r; reflexivity|].
    apply Z.ltb_ge in E; apply Z.leb_gt in E2; lia.
Qed.

End IndexFacts.

Section SortFacts.
Variable A : Type.
Variable leb : A -> A -> bool.
Hypothesis leb_total : forall a b, leb a b = true \/ leb b a = true.

Let le (a b : A) : Prop := leb a b = true.

Lemma sort_insert_perm (x : A) (l : list A) :
  Permutation (x :: l) (sort_insert leb x l).
Proof.
  induction l as [|y t IH]; simpl; [reflexivity|].
  destruct (leb x y); [reflexivity|].
  rewrite perm_swap; apply perm_skip; exact IH.
Qed.

Lemma np_sort_perm (v : list A) : Permutation v (np_sort leb v).
Proof.
  induction v as [|x t IH]; simpl; [constructor|].
  rewrite <- sort_insert_perm; apply perm_skip; exact IH.
Qed.

Lemma np_sort_length (v : list A) :
  List.length (np_sort leb v) = List.length v.
Proof. symmetry; apply Permutation_length, np_sort_perm. Qed.

Lemma sort_insert_hdrel (a x : A) (l : list A) :
  le a x -> HdRel le a l -> HdRel le a (sort_insert leb x l).
Proof.
  intros Hax Hl; destruct l as [|y t]; simpl.
  - constructor; exact Hax.
  - destruct (leb x y); constructor; [exact Hax|].
    inversion Hl; assumption.
Qed.

Lemma sort_insert_sorted (x : A) (l : list A) :
  Sorted le l -> Sorted le (sort_insert leb x l).
Proof.
  induction 1 as [|y t St IH Hd]; simpl.
  - repeat constructor.
  - destruct (leb x y) eqn:E.
    + constructor; [constructor; assumption | constructor; exact E].
    + constructor; [exact IH|].
      apply sort_insert_hdrel; [|exact Hd].
      destruct (leb_total x y) as [T|T]; [congruence | exact T].
Qed.

Lemma np_sort_sorted (v : list A) : Sorted le (np_sort leb v).
Proof.
  induction v as [|x t IH]; simpl; [constructor|].
  apply sort_insert_sorted; exact IH.
Qed.

(** [_getPct] returns only through the clamp: the index has reached the
    length, and the result is the last element of the sorted vector. *)
Lemma getPct_Ok (percentile : float) (v : list A) (x : A) :
  _getPct leb percentile v = Ok x ->
  index_ge_len (pct_index percentile (List.length v)) (List.length v) = true
  /\ nth_error (np_sort leb v) (List.length v - 1) = Some x.
Proof.
  unfold _getPct; rewrite np_sort_length.
  destruct (index_ge_len _ _); [|discriminate].
  intros G; split; [reflexivity|].
  destruct (np_sort leb v) as [|y t] eqn:E;
    [rewrite py_index_empty in G; discriminate|].
  destruct (@py_index_last _ (y :: t)) as (x' & Hx & Hn); [discriminate|].
  rewrite <- E, np_sort_length in Hn.
  congruence.
Qed.

(** When the index reaches the length of a non-empty vector, [_getPct]
    returns the last element of the sorted vector. *)
Lemma getPct_clamped (percentile : float) (v : list A) :
  v <> [] ->
  index_ge_len (pct_index percentile (List.length v)) (List.length v) = true ->
  exists x,
    _getPct leb percentile v = Ok x
    /\ nth_error (np_sort leb v) (List.length v - 1) = Some x.
Proof.
  intros NE C; unfold _getPct; rewrite np_sort_length, C.
  assert (NEs : np_sort leb v <> []).
  { intros E; apply NE.
    apply Permutation_nil; rewrite <- E; symmetry; apply np_sort_perm. }
  destruct (py_index_last NEs) as (x & Hx & Hn).
  exists x; split; [exact Hx|].
  rewrite np_sort_length in Hn; exact Hn.
Qed.

(** Below the length, the float index is used as it is, and numpy
    refuses it. *)
Lemma getPct_below (percentile : float) (v : list A) :
  index_ge_len (pct_index percentile (List.length v)) (List.length v) = false ->
  _getPct leb percentile v = Raise IndexError_float_index.
Proof.
  intros C; unfold _getPct; rewrite np_sort_length, C; reflexivity.
Qed.

End SortFacts.

(* ------------------------------------------------------------------------- *)
(** ** From the crunching pass to the table *)

Section DictSetIn.
Context {K V : Type} `{EqbKeyOk K}.

Lemma dict_set_In (k k' : K) (v v' : V) (d : dict K V) :
  In (k', v') (dict_set k v d) -> (k' = k /\ v' = v) \/ In (k', v') d.
Proof.
  induction d as [|[k0 v0] t IH]; simpl.
  - intros [[= <- <-]|[]]; left; split; reflexivity.
  - destruct (keqb k k0) eqn:E; simpl.
    + apply keqb_eq in E; subst k0.
      intros [[= <- <-]|I]; [left; split; reflexivity | right; right; exact I].
    + intros [E'|I]; [right; left; exact E'|].
      destruct (IH I) as [L|R]; [left; exact L | right; right; exact R].
Qed.

End DictSetIn.

Section PipelineFacts.
Variable movie_name : string.
Implicit Types (bam : list AlignmentRecord).

Lemma matching_movie (r : AlignmentRecord) :
  matching movie_name r = true -> MovieName r = movie_name.
Proof. unfold matching; intros E; apply String.eqb_eq in E; auto. Qed.

(** Every stored row is the tuple [this_a] built for a record of the target
    movie, stored under that record's SubreadId. *)
Lemma datum_rows bam (k : subread_id_t) (rw : row) :
  In (k, rw) (datum (alignment_info_from_bam bam movie_name)) ->
  exists r last,
    In r bam /\ matching movie_name r = true
    /\ k = subread_id_of r /\ rw = this_a last r.
Proof.
  induction bam as [|r bam IH] using rev_ind; [intros []|].
  rewrite crunch_snoc.
  destruct (matching movie_name r) eqn:M.
  - rewrite crunch_record_hit by exact M; simpl; intros I.
    apply dict_set_In in I; destruct I as [[-> ->]|I].
    + exists r, (last_zmw_id (alignment_info_from_bam bam movie_name)).
      repeat split; [apply in_or_app; right; left; reflexivity | exact M].
    + destruct (IH I) as (r0 & last & I0 & M0 & Ek & Er).
      exists r0, last; repeat split; auto.
      apply in_or_app; left; exact I0.
  - rewrite crunch_record_skip by exact M; simpl; intros I.
    destruct (IH I) as (r0 & last & I0 & M0 & Ek & Er).
    exists r0, last; repeat split; auto.
    apply in_or_app; left; exact I0.
Qed.

Lemma datum_rows_width bam (k : subread_id_t) (rw : row) :
  In (k, rw) (datum (alignment_info_from_bam bam movie_name)) ->
  List.length rw = 5%nat /\ subread_movie k = movie_name.
Proof.
  intros I; destruct (datum_rows _ _ _ I) as (r & last & _ & M & -> & ->).
  split; [reflexivity | apply matching_movie; exact M].
Qed.

Lemma set_add_In (x y : string) (s : list string) :
  In x (set_add y s) <-> x = y \/ In x s.
Proof.
  unfold set_add; destruct (existsb (String.eqb y) s) eqn:E.
  - split; [auto|]. intros [->|I]; [|exact I].
    apply existsb_exists in E; destruct E as (z & I & E).
    apply String.eqb_eq in E; subst; exact I.
  - rewrite in_app_iff; simpl; intuition congruence.
Qed.

Lemma set_add_NoDup (y : string) (s : list string) :
  NoDup s -> NoDup (set_add y s).
Proof.
  intros ND; unfold set_add; destruct (existsb (String.eqb y) s) eqn:E.
  - exact ND.
  - apply NoDup_rev in ND; rewrite <- (rev_involutive (_ ++ _)).
    apply NoDup_rev; rewrite rev_app_distr; simpl.
    constructor; [|exact ND].
    rewrite <- in_rev; intros I.
    assert (X : existsb (String.eqb y) s = true)
      by (apply existsb_exists; exists y; split;
          [exact I | apply String.eqb_refl]).
    congruence.
Qed.

(** Every movie of the file is listed, once, whatever the target is. *)
Lemma movie_names_spec bam :
  NoDup (movie_names (alignment_info_from_bam bam movie_name))
  /\ forall nm,
       In nm (movie_names (alignment_info_from_bam bam movie_name))
       <-> In nm (map MovieName bam).
Proof.
  induction bam as [|r bam [ND IH]] using rev_ind.
  - split; [constructor | intros nm; reflexivity].
  - rewrite crunch_snoc.
    assert (E : movie_names
                  (crunch_record movie_name
                     (alignment_info_from_bam bam movie_name) r)
                = set_add (MovieName r)
                    (movie_names (alignment_info_from_bam bam movie_name))).
    { destruct (matching movie_name r) eqn:M;
        [rewrite crunch_record_hit | rewrite crunch_record_skip];
        auto. }
    rewrite E; split; [apply set_add_NoDup; exact ND|].
    intros nm; rewrite set_add_In, map_app, in_app_iff, IH; simpl.
    intuition congruence.
Qed.

Lemma datum_nonempty_target_listed bam :
  datum (alignment_info_from_bam bam movie_name) <> [] ->
  In movie_name (movie_names (alignment_info_from_bam bam movie_name)).
Proof.
  induction bam as [|r bam IH] using rev_ind; [intros N; contradiction|].
  rewrite crunch_snoc.
  destruct (matching movie_name r) eqn:M.
  - rewrite crunch_record_hit by exact M; simpl; intros _.
    apply set_add_In; left; symmetry; apply matching_movie; exact M.
  - rewrite crunch_record_skip by exact M; simpl; intros N.
    apply set_add_In; right; apply IH; exact N.
Qed.

End PipelineFacts.

Section BuildFacts.
Implicit Types (mnames cols : list string).
Implicit Types (rds : dict zmw_id_t (Z * Z)) (subs : dict subread_id_t row).

Lemma subreads_of_In subs (nm : string) (rw : row) :
  In rw (subreads_of subs nm)
  <-> exists k, In (k, rw) subs /\ subread_movie k = nm.
Proof.
  unfold subreads_of; rewrite in_map_iff; split.
  - intros ([k v] & E & I); simpl in E; subst v.
    apply filter_In in I; destruct I as [I F]; simpl in F.
    apply String.eqb_eq in F; exists k; split; assumption.
  - intros (k & I & E); exists (k, rw); split; [reflexivity|].
    apply filter_In; split; [exact I | simpl; apply String.eqb_eq; exact E].
Qed.

Lemma collected_rows_In subs mnames (rw : row) :
  In rw (flat_map (subreads_of subs) mnames)
  <-> exists k, In (k, rw) subs /\ In (subread_movie k) mnames.
Proof.
  rewrite in_flat_map; split.
  - intros (nm & Inm & I); apply subreads_of_In in I.
    destruct I as (k & I & <-); exists k; split; assumption.
  - intros (k & I & Inm); exists (subread_movie k); split; [exact Inm|].
    apply subreads_of_In; exists k; split; [exact I | reflexivity].
Qed.

Lemma collected_rows_nil mnames :
  flat_map (subreads_of []) mnames = [].
Proof. induction mnames as [|nm t IH]; simpl; auto. Qed.

(** What a successful build holds. *)
Lemma numpify_Ok_inv mnames rds subs cols (t : CrunchedAlignments) :
  _numpify mnames rds subs cols = Ok t ->
  _movies t = movie_index rds subs 0 0 mnames
  /\ _nReads t = flat_map (reads_of rds) mnames
  /\ _nSubreads t = flat_map (subreads_of subs) mnames.
Proof.
  unfold _numpify.
  rewrite numpify_loop_sl, numpify_loop_rl, numpify_loop_movies.
  destruct (flat_map (subreads_of subs) mnames) as [|first rest] eqn:S;
    [discriminate|].
  destruct (negb _); [discriminate|].
  unfold np_array_struct.
  destruct (negb (distinct_fields cols)); [discriminate|].
  destruct (forallb _ _); [|discriminate].
  intros [= <-]; simpl; auto.
Qed.

(** With distinct column names, rows as wide as the column list and at
    least one row collected, the build succeeds. *)
Lemma numpify_Ok mnames rds subs cols :
  distinct_fields cols = true ->
  (forall k rw, In (k, rw) subs -> List.length rw = List.length cols) ->
  flat_map (subreads_of subs) mnames <> [] ->
  exists t, _numpify mnames rds subs cols = Ok t.
Proof.
  intros D W NE; unfold _numpify; rewrite numpify_loop_sl.
  assert (Wsl : forall rw, In rw (flat_map (subreads_of subs) mnames) ->
                           List.length rw = List.length cols).
  { intros rw I; apply collected_rows_In in I.
    destruct I as (k & I & _); apply (W k); exact I. }
  destruct (flat_map (subreads_of subs) mnames) as [|first rest] eqn:S;
    [contradiction|].
  rewrite (Wsl first) by (left; reflexivity).
  rewrite Nat.eqb_refl; simpl.
  unfold np_array_struct; rewrite D; cbv beta iota delta [negb].
  replace (forallb _ (first :: rest)) with true; [eexists; reflexivity|].
  symmetry; apply forallb_forall; intros rw I.
  apply Nat.eqb_eq, Wsl; exact I.
Qed.

(** With rows as wide as the column list, the width check never fires. *)
Lemma numpify_no_mismatch mnames rds subs cols (n c : nat) :
  (forall k rw, In (k, rw) subs -> List.length rw = List.length cols) ->
  _numpify mnames rds subs cols <> Raise (IndexError_incompatible n c).
Proof.
  intros W; unfold _numpify; rewrite numpify_loop_sl.
  assert (Wsl : forall rw, In rw (flat_map (subreads_of subs) mnames) ->
                           List.length rw = List.length cols).
  { intros rw I; apply collected_rows_In in I.
    destruct I as (k & I & _); apply (W k); exact I. }
  destruct (flat_map (subreads_of subs) mnames) as [|first rest] eqn:S;
    [discriminate|].
  rewrite (Wsl first) by (left; reflexivity).
  rewrite Nat.eqb_refl; cbv beta iota delta [negb].
  unfold np_array_struct.
  destruct (negb (distinct_fields cols)); [discriminate|].
  destruct (forallb _ _); discriminate.
Qed.

End BuildFacts.

(* ------------------------------------------------------------------------- *)
(** ** What the span bookkeeping computes *)

Section SpanFacts.
Variable movie_name : string.
Implicit Types (bam : list AlignmentRecord) (k : zmw_id_t).

Lemma union_span_snoc k bam (r : AlignmentRecord) :
  union_span movie_name k (bam ++ [r])
  = if matching movie_name r && zmw_eqb (zmw_id_of r) k
    then span_join (union_span movie_name k bam) (aStart r) (aEnd r)
    else union_span movie_name k bam.
Proof. unfold union_span; rewrite fold_left_app; reflexivity. Qed.

End SpanFacts.

(* ========================================================================= *)
(** * The claims *)

Local Open Scope string_scope.
Local Open Scope list_scope.
Local Open Scope Z_scope.

(** C1. Building a table from no movie, no read span and no subread row is
    claimed to give an empty table.  The code evaluates [sl[0]] on the empty
    list it has collected: the build raises IndexError and returns no
    table, whatever the column list.  The same happens for any movie names
    and read spans as long as there is no subread row. *)
Theorem C1_empty_build_raises (cols : list string) :
  sl (numpify_loop [] [] []) = []
  /\ _numpify [] [] [] cols = Raise IndexError_out_of_range
  /\ (forall t, _numpify [] [] [] cols <> Ok t)
  /\ (forall mnames rds,
        _numpify mnames rds [] cols = Raise IndexError_out_of_range).
Proof.
  split; [reflexivity|].
  split; [reflexivity|].
  split; [intros t; discriminate|].
  intros mnames rds; unfold _numpify.
  rewrite numpify_loop_sl, collected_rows_nil; reflexivity.
Qed.

(** C2. The pair stored for a read is claimed to be the union span (least
    start, greatest end) of its records.  The code starts every read from
    the pair [[99999, 0]], so what it stores is the union span joined with
    that pair; for the read of [far_bam], aligned at 100000..100100, the
    stored start is 99999 and not 100000. *)
Theorem C2_read_span_start_stops_at_99999 :
  (forall bam movie_name k,
      dict_get k (unrolled (alignment_info_from_bam bam movie_name))
      = option_map (fun v => (Z.min 99999 (fst v), Z.max 0 (snd v)))
          (union_span movie_name k bam))
  /\ union_span "m1" ("m1", 8) far_bam = Some (100000, 100100)
  /\ dict_get ("m1", 8) (unrolled (alignment_info_from_bam far_bam "m1"))
     = Some (99999, 100100).
Proof.
  split; [|split; reflexivity].
  intros bam movie_name k.
  induction bam as [|r bam IH] using rev_ind; [reflexivity|].
  rewrite crunch_snoc, union_span_snoc.
  destruct (matching movie_name r) eqn:M; simpl.
  - rewrite crunch_record_hit by exact M; simpl.
    destruct (zmw_eqb (zmw_id_of r) k) eqn:E.
    + change (keqb (zmw_id_of r) k = true) in E.
      apply keqb_eq in E; subst k.
      rewrite widen_get_eq, IH.
      destruct (union_span movie_name (zmw_id_of r) bam) as [[s0 e0]|];
        simpl; f_equal; f_equal; lia.
    + rewrite widen_get_neq; [exact IH|].
      intros X; rewrite X in E; change (keqb k k = false) in E.
      rewrite keqb_refl in E; discriminate.
  - rewrite crunch_record_skip by exact M; simpl; exact IH.
Qed.

(** C3.  [_getPct] sorts its input ascending and takes
    [ceil((p / 100.0) * N)] as the index.  When that index reaches N the
    last element is returned: [percentile(100, [1,2,3,4])] is 4.  Below N
    the index, which [np.ceil] returns as a float, is used as it is, and
    numpy raises IndexError: no element is returned, and
    [percentile(50, [1,2,3,4])], whose index is 2, raises where the
    element 3 is expected. *)
Theorem C3_percentile_raises_below_the_clamp :
  (forall (A : Type) (leb : A -> A -> bool) (p : float) (v : list A),
      index_ge_len (pct_index p (List.length v)) (List.length v) = false ->
      _getPct leb p v = Raise IndexError_float_index)
  /\ (forall (A : Type) (leb : A -> A -> bool) (p : float) (v : list A),
        v <> [] ->
        index_ge_len (pct_index p (List.length v)) (List.length v) = true ->
        Permutation v (np_sort leb v)
        /\ exists x,
             _getPct leb p v = Ok x
             /\ nth_error (np_sort leb v) (List.length v - 1) = Some x)
  /\ (forall (A : Type) (leb : A -> A -> bool) (p : float) (v : list A)
        (x : A),
        _getPct leb p v = Ok x ->
        index_ge_len (pct_index p (List.length v)) (List.length v) = true
        /\ nth_error (np_sort leb v) (List.length v - 1) = Some x)
  /\ pct_index 50 4 = IntegralZ 2
  /\ nth_error (np_sort Z.leb [1; 2; 3; 4]) 2 = Some 3
  /\ _getPct Z.leb 50 [1; 2; 3; 4] = Raise IndexError_float_index
  /\ pct_index 100 4 = IntegralZ 4
  /\ _getPct Z.leb 100 [1; 2; 3; 4] = Ok 4.
Proof.
  split; [intros A leb p v; apply getPct_below|].
  split.
  { intros A leb p v NE C; split; [apply np_sort_perm|].
    apply getPct_clamped; assumption. }
  split; [intros A leb p v x; apply getPct_Ok|].
  repeat split; vm_compute; reflexivity.
Qed.

(** C4. The row stored for a record has [isFirst] 1.0 exactly when the
    record's ZmwId differs from that of the latest earlier record of the
    target movie (or there is none), and 0.0 otherwise; records of other
    movies in between change nothing.  Three records of the target movie
    with ZmwIds A, A, B get 1.0, 0.0, 1.0. *)
Theorem C4_isFirst_marks_change_of_zmw movie_name :
  (forall pre r post,
      matching movie_name r = true ->
      (forall x, In x post -> matching movie_name x = true ->
                 subread_id_of x <> subread_id_of r) ->
      (stored_isFirst movie_name (pre ++ r :: post) r = Some (VFloat 1)
       <-> prev_zmw movie_name pre <> Some (zmw_id_of r))
      /\ (stored_isFirst movie_name (pre ++ r :: post) r = Some (VFloat 0)
          <-> prev_zmw movie_name pre = Some (zmw_id_of r)))
  /\ (forall o0 o1 o2 a1 a2 b,
        Forall (fun x => matching movie_name x = false) (o0 ++ o1 ++ o2) ->
        matching movie_name a1 = true ->
        matching movie_name a2 = true ->
        matching movie_name b = true ->
        zmw_id_of a1 = zmw_id_of a2 ->
        zmw_id_of b <> zmw_id_of a2 ->
        let s1 := o0 ++ [a1] in
        let s2 := s1 ++ o1 ++ [a2] in
        let s3 := s2 ++ o2 ++ [b] in
        stored_isFirst movie_name s1 a1 = Some (VFloat 1)
        /\ stored_isFirst movie_name s2 a2 = Some (VFloat 0)
        /\ stored_isFirst movie_name s3 b = Some (VFloat 1)).
Proof.
  assert (General : forall pre r,
             matching movie_name r = true ->
             stored_isFirst movie_name (pre ++ [r]) r
             = isFirst_of (this_a (prev_zmw movie_name pre) r)).
  { intros pre r M; unfold stored_isFirst.
    rewrite (@datum_latest movie_name pre r []); [reflexivity | exact M|].
    intros x []. }
  split.
  - intros pre r post M Hpost; unfold stored_isFirst.
    rewrite (@datum_latest movie_name pre r post M Hpost).
    split; [apply isFirst_one_iff | apply isFirst_zero_iff].
  - intros o0 o1 o2 a1 a2 b F M1 M2 Mb E12 Nb s1 s2 s3.
    apply Forall_app in F; destruct F as [F0 F].
    apply Forall_app in F; destruct F as [F1 F2].
    assert (P1 : prev_zmw movie_name s1 = Some (zmw_id_of a1))
      by (unfold s1; rewrite prev_zmw_snoc, M1; reflexivity).
    assert (P2 : prev_zmw movie_name s2 = Some (zmw_id_of a2)).
    { unfold s2; rewrite app_assoc, prev_zmw_snoc, M2; reflexivity. }
    split; [|split].
    + unfold s1; rewrite General by exact M1.
      apply isFirst_one_iff.
      assert (P0 : prev_zmw movie_name o0 = None)
        by (apply (prev_zmw_others movie_name [] F0)).
      rewrite P0; discriminate.
    + unfold s2; rewrite app_assoc, General by exact M2.
      apply isFirst_zero_iff.
      rewrite (prev_zmw_others movie_name s1 F1), P1, E12; reflexivity.
    + unfold s3; rewrite app_assoc, General by exact Mb.
      apply isFirst_one_iff.
      rewrite (prev_zmw_others movie_name s2 F2), P2.
      intros X; apply Nb; congruence.
Qed.

Lemma C4_witness :
  let other := aln "m2" 3 0 50 0 50 in
  let a1 := aln "m1" 7 0 100 10 110 in
  let a2 := aln "m1" 7 100 250 10 160 in
  let b := aln "m1" 9 0 40 20 60 in
  Forall (fun x => matching "m1" x = false) ([other] ++ [other] ++ [])
  /\ zmw_id_of a1 = zmw_id_of a2
  /\ zmw_id_of b <> zmw_id_of a2
  /\ stored_isFirst "m1" ([other] ++ [a1]) a1 = Some (VFloat 1)
  /\ stored_isFirst "m1" (([other] ++ [a1]) ++ [other] ++ [a2]) a2
     = Some (VFloat 0)
  /\ stored_isFirst "m1"
       ((([other] ++ [a1]) ++ [other] ++ [a2]) ++ [] ++ [b]) b
     = Some (VFloat 1).
Proof.
  intros other a1 a2 b.
  assert (F : Forall (fun x => matching "m1" x = false)
                ([other] ++ [other] ++ []))
    by (repeat constructor).
  assert (E : zmw_id_of a1 = zmw_id_of a2) by reflexivity.
  assert (N : zmw_id_of b <> zmw_id_of a2) by discriminate.
  repeat (split; [assumption|]).
  exact (proj2 (C4_isFirst_marks_change_of_zmw "m1")
           [other] [other] [] a1 a2 b F
           eq_refl eq_refl eq_refl E N).
Defined.

(** C5. A record whose SubreadId is already stored does not stop the pass:
    the row found under a SubreadId is the one built for the last record that
    produced it, and each record adds one warning exactly when it overwrites
    a row.  Two records with the same SubreadId, in this order, leave the
    second record's row (its length field is the second record's length) and
    exactly one warning. *)
Theorem C5_duplicate_subread_latest_wins movie_name :
  (forall pre r post,
      matching movie_name r = true ->
      (forall x, In x post -> matching movie_name x = true ->
                 subread_id_of x <> subread_id_of r) ->
      exists rw,
        dict_get (subread_id_of r)
          (datum (alignment_info_from_bam (pre ++ r :: post) movie_name))
        = Some rw
        /\ rw = this_a (prev_zmw movie_name pre) r
        /\ length_of rw = Some (VInt (subread_length r)))
  /\ (forall bam r,
        warned (alignment_info_from_bam (bam ++ [r]) movie_name)
        = warned (alignment_info_from_bam bam movie_name)
          ++ (if matching movie_name r
                 && dict_mem (subread_id_of r)
                      (datum (alignment_info_from_bam bam movie_name))
              then [Duplicate_subread (subread_id_of r)] else []))
  /\ (forall r1 r2,
        matching movie_name r1 = true ->
        matching movie_name r2 = true ->
        subread_id_of r1 = subread_id_of r2 ->
        let st := alignment_info_from_bam [r1; r2] movie_name in
        (exists rw,
            dict_get (subread_id_of r1) (datum st) = Some rw
            /\ length_of rw = Some (VInt (subread_length r2)))
        /\ dict_len (datum st) = 1%nat
        /\ warned st = [Duplicate_subread (subread_id_of r2)]).
Proof.
  split; [|split].
  - intros pre r post M Hpost.
    exists (this_a (prev_zmw movie_name pre) r).
    split; [apply datum_latest; assumption | split; reflexivity].
  - intros bam r; apply warned_snoc.
  - intros r1 r2 M1 M2 E st.
    assert (S1 : alignment_info_from_bam [r1] movie_name
                 = crunch_record movie_name crunch_init r1) by reflexivity.
    rewrite crunch_record_hit in S1 by exact M1; simpl in S1.
    assert (Mem : dict_mem (subread_id_of r2)
                    (datum (alignment_info_from_bam [r1] movie_name))
                  = true).
    { rewrite S1; unfold dict_mem; simpl.
      rewrite <- E.
      change (subread_eqb (subread_id_of r1) (subread_id_of r1))
        with (keqb (subread_id_of r1) (subread_id_of r1)).
      rewrite keqb_refl; reflexivity. }
    split; [|split].
    + exists (this_a (prev_zmw movie_name [r1]) r2); split; [|reflexivity].
      rewrite E; unfold st.
      apply (@datum_latest movie_name [r1] r2 []); [exact M2 | intros x []].
    + pose proof (warned_count movie_name [r1; r2]) as C.
      pose proof (warned_snoc movie_name [r1] r2) as W.
      simpl app in W; fold st in C, W.
      rewrite M2, Mem, S1 in W; simpl in W.
      rewrite W in C; unfold matching_records in C; simpl in C.
      rewrite M1, M2 in C; simpl in C; lia.
    + pose proof (warned_snoc movie_name [r1] r2) as W.
      simpl app in W; fold st in W.
      rewrite M2, Mem, S1 in W; exact W.
Qed.

Lemma C5_witness :
  subread_id_of dup_first = subread_id_of dup_second
  /\ subread_length dup_first = 100
  /\ subread_length dup_second = 150
  /\ (exists rw,
         dict_get (subread_id_of dup_first)
           (datum (alignment_info_from_bam [dup_first; dup_second] "m1"))
         = Some rw
         /\ length_of rw = Some (VInt (subread_length dup_second)))
  /\ dict_len (datum (alignment_info_from_bam [dup_first; dup_second] "m1"))
     = 1%nat
  /\ warned (alignment_info_from_bam [dup_first; dup_second] "m1")
     = [Duplicate_subread (subread_id_of dup_second)].
Proof.
  split; [reflexivity|].
  split; [reflexivity|].
  split; [reflexivity|].
  exact (proj2 (proj2 (C5_duplicate_subread_latest_wins "m1"))
           dup_first dup_second eq_refl eq_refl eq_refl).
Defined.

(** C6. When the builder has collected at least one subread row and the
    first collected row is not as wide as the column list, [_numpify] raises
    the IndexError that reports both lengths, and no table is returned.
    The collected rows are those of the listed movies, movie by movie. *)
Theorem C6_width_mismatch_raises mnames rds subs cols (first : row) rest :
  sl (numpify_loop mnames rds subs) = first :: rest ->
  List.length first <> List.length cols ->
  sl (numpify_loop mnames rds subs) = flat_map (subreads_of subs) mnames
  /\ _numpify mnames rds subs cols
     = Raise (IndexError_incompatible (List.length first) (List.length cols))
  /\ forall t, _numpify mnames rds subs cols <> Ok t.
Proof.
  intros S N.
  assert (R : _numpify mnames rds subs cols
              = Raise (IndexError_incompatible (List.length first)
                         (List.length cols))).
  { unfold _numpify; rewrite S.
    apply Nat.eqb_neq in N; rewrite N; reflexivity. }
  split; [apply numpify_loop_sl|].
  split; [exact R|].
  intros t; rewrite R; discriminate.
Qed.

Lemma C6_witness :
  List.length columns = 5%nat
  /\ Forall (fun kv => List.length (snd kv) = 4%nat) narrow_subreads
  /\ _numpify ["m1"] [] narrow_subreads columns
     = Raise (IndexError_incompatible 4 5)
  /\ forall t, _numpify ["m1"] [] narrow_subreads columns <> Ok t.
Proof.
  split; [reflexivity|].
  split; [repeat constructor|].
  refine (proj2 (@C6_width_mismatch_raises ["m1"] [] narrow_subreads columns
                   narrow_row [] eq_refl _)).
  simpl; lia.
Defined.

(** C7. For a built table whose movie names are pairwise distinct and
    cover the movies of the keys of both dictionaries: the read lengths of
    the index entries add up to the number of distinct ZmwId keys, the
    subread lengths to the number of distinct SubreadId keys; both arrays
    have exactly these lengths; the offsets of an entry are the sums of the
    lengths of the entries before it; and the slice an entry designates in
    either array is exactly what was collected for its movie. *)
Theorem C7_movie_index_partitions mnames rds subs cols t :
  NoDup mnames ->
  (forall k v, In (k, v) rds -> In (zmw_movie k) mnames) ->
  (forall k v, In (k, v) subs -> In (subread_movie k) mnames) ->
  dict_wf rds -> dict_wf subs ->
  _numpify mnames rds subs cols = Ok t ->
  total_rLen (_movies t) = distinct_count (map fst rds)
  /\ total_sLen (_movies t) = distinct_count (map fst subs)
  /\ List.length (reads t None) = total_rLen (_movies t)
  /\ List.length (subreads t None) = total_sLen (_movies t)
  /\ forall ms1 m ms2,
       _movies t = ms1 ++ m :: ms2 ->
       rOffs m = total_rLen ms1
       /\ sOffs m = total_sLen ms1
       /\ reads t (Some m) = reads_of rds (name m)
       /\ subreads t (Some m) = subreads_of subs (name m).
Proof.
  intros ND Hr Hs Wr Ws B.
  destruct (numpify_Ok_inv _ _ _ _ B) as (Em & Er & Es).
  assert (Lr : List.length (flat_map (reads_of rds) mnames)
               = List.length rds).
  { apply (collect_length (fun kv => zmw_movie (fst kv))
             (fun kv : zmw_id_t * (Z * Z) => snd (snd kv) - fst (snd kv))
             rds ND).
    intros [k v] I; apply (Hr k v I). }
  assert (Ls : List.length (flat_map (subreads_of subs) mnames)
               = List.length subs).
  { apply (collect_length (fun kv => subread_movie (fst kv))
             (fun kv : subread_id_t * row => snd kv) subs ND).
    intros [k v] I; apply (Hs k v I). }
  assert (Tr : total_rLen (_movies t) = List.length rds)
    by (rewrite Em, movie_index_total_rLen; exact Lr).
  assert (Ts : total_sLen (_movies t) = List.length subs)
    by (rewrite Em, movie_index_total_sLen; exact Ls).
  split; [rewrite Tr, (distinct_count_NoDup Wr), length_map; reflexivity|].
  split; [rewrite Ts, (distinct_count_NoDup Ws), length_map; reflexivity|].
  split; [simpl; rewrite Er, Tr; exact Lr|].
  split; [simpl; rewrite Es, Ts; exact Ls|].
  intros ms1 m ms2 E; rewrite Em in E.
  destruct (movie_index_split _ _ _ _ _ _ _ _ E)
    as (n1 & n2 & En & E1 & Or & Os & Nr & Ns).
  simpl in Or, Os.
  assert (Pr : total_rLen ms1 = List.length (flat_map (reads_of rds) n1))
    by (rewrite E1; apply movie_index_total_rLen).
  assert (Ps : total_sLen ms1
               = List.length (flat_map (subreads_of subs) n1))
    by (rewrite E1; apply movie_index_total_sLen).
  split; [exact Or|]; split; [exact Os|]; simpl.
  rewrite Er, Es, En, !flat_map_app; simpl.
  rewrite Or, Os, Nr, Ns, Pr, Ps.
  split; apply py_slice_app.
Qed.

Lemma C7_witness :
  NoDup sample_names
  /\ dict_wf sample_reads /\ dict_wf sample_subreads
  /\ exists t,
       _numpify sample_names sample_reads sample_subreads columns = Ok t
       /\ map name (_movies t) = ["m1"; "m2"]
       /\ total_rLen (_movies t) = 2%nat
       /\ total_sLen (_movies t) = 4%nat
       /\ total_rLen (_movies t) = distinct_count (map fst sample_reads)
       /\ total_sLen (_movies t) = distinct_count (map fst sample_subreads).
Proof.
  assert (ND : NoDup sample_names)
    by (apply (proj1 (movie_names_spec "m1" sample_bam))).
  assert (Wr : dict_wf sample_reads) by apply unrolled_wf.
  assert (Ws : dict_wf sample_subreads) by apply datum_wf.
  assert (Hr : forall k v, In (k, v) sample_reads ->
                           In (zmw_movie k) sample_names).
  { intros k v I; vm_compute in I.
    repeat (destruct I as [[= <- <-]|I]; [left; reflexivity|]).
    contradiction. }
  assert (Hs : forall k v, In (k, v) sample_subreads ->
                           In (subread_movie k) sample_names).
  { intros k v I; vm_compute in I.
    repeat (destruct I as [[= <- <-]|I]; [left; reflexivity|]).
    contradiction. }
  repeat (split; [assumption|]).
  destruct (_numpify sample_names sample_reads sample_subreads columns)
    as [t|e] eqn:B; [|vm_compute in B; discriminate].
  exists t.
  pose proof (@C7_movie_index_partitions sample_names sample_reads
                sample_subreads columns t ND Hr Hs Wr Ws B)
    as (Tr & Ts & _).
  split; [reflexivity|].
  assert (Em : _movies t
               = movie_index sample_reads sample_subreads 0 0 sample_names)
    by (apply (numpify_Ok_inv _ _ _ _ B)).
  split; [rewrite Em; reflexivity|].
  split; [rewrite Em; reflexivity|].
  split; [rewrite Em; reflexivity|].
  split; assumption.
Defined.

(** C8. When every record of the target movie has start <= end, every
    stored read span has start <= end after every record processed (after
    every prefix of the stream), and a read has a span as soon as one of its
    records has been processed. *)
Theorem C8_read_span_start_le_end movie_name bam (n : nat) :
  (forall r, In r bam -> matching movie_name r = true ->
             aStart r <= aEnd r) ->
  let st := alignment_info_from_bam (firstn n bam) movie_name in
  (forall k s e, dict_get k (unrolled st) = Some (s, e) -> s <= e)
  /\ (forall r, In r (firstn n bam) -> matching movie_name r = true ->
        exists s e,
          dict_get (zmw_id_of r) (unrolled st) = Some (s, e) /\ s <= e).
Proof.
  intros Hord st.
  assert (Hpre : forall r, In r (firstn n bam) ->
                           matching movie_name r = true ->
                           aStart r <= aEnd r).
  { intros r I; apply Hord.
    rewrite <- (firstn_skipn n bam); apply in_or_app; left; exact I. }
  assert (Hall : forall k s e, dict_get k (unrolled st) = Some (s, e) ->
                               s <= e)
    by (apply unrolled_ordered; exact Hpre).
  split; [exact Hall|].
  intros r I M.
  destruct (dict_get (zmw_id_of r) (unrolled st)) as [[s e]|] eqn:G.
  - exists s, e; split; [reflexivity | apply (Hall _ _ _ G)].
  - exfalso; exact (@unrolled_present movie_name _ r I M G).
Qed.

Lemma C8_witness :
  (forall r, In r sample_bam -> matching "m1" r = true -> aStart r <= aEnd r)
  /\ dict_get ("m1", 7)
       (unrolled (alignment_info_from_bam (firstn 4 sample_bam) "m1"))
     = Some (0, 160)
  /\ (forall k s e,
        dict_get k
          (unrolled (alignment_info_from_bam (firstn 4 sample_bam) "m1"))
        = Some (s, e) -> s <= e).
Proof.
  assert (H : forall r, In r sample_bam -> matching "m1" r = true ->
                        aStart r <= aEnd r).
  { intros r I _; simpl in I.
    repeat (destruct I as [<-|I]; [simpl; lia|]); contradiction. }
  split; [exact H|].
  split; [reflexivity|].
  exact (proj1 (@C8_read_span_start_le_end "m1" sample_bam 4 H)).
Defined.

(** C9. The longest-subread index has an entry for every read of the
    target movie seen so far; the entry is the SubreadId and length of one
    record of that read, no record of the read is longer, and every record
    of the read before it in the stream is strictly shorter (the first of
    several longest subreads is kept). *)
Theorem C9_longest_subread_first_maximum movie_name bam :
  (forall r, In r bam -> matching movie_name r = true ->
     dict_get (zmw_id_of r)
       (max_subread (alignment_info_from_bam bam movie_name)) <> None)
  /\ (forall k sid len,
        dict_get k (max_subread (alignment_info_from_bam bam movie_name))
        = Some (sid, len) ->
        exists pre r post,
          bam = pre ++ r :: post
          /\ of_zmw movie_name k r
          /\ sid = subread_id_of r /\ len = subread_length r
          /\ (forall x, In x pre -> of_zmw movie_name k x ->
                        subread_length x < len)
          /\ (forall x, In x post -> of_zmw movie_name k x ->
                        subread_length x <= len)).
Proof.
  split; [intros r I M; apply max_subread_present; assumption|].
  induction bam as [|x bam IH] using rev_ind; intros k sid len.
  - discriminate.
  - rewrite crunch_snoc.
    destruct (matching movie_name x) eqn:Mx.
    + rewrite crunch_record_hit by exact Mx; simpl.
      destruct (keqb_dec (zmw_id_of x) k) as [E|N].
      * subst k; rewrite keep_longest_get_eq.
        destruct (dict_get (zmw_id_of x) _) as [[sid0 best]|] eqn:G.
        -- destruct (IH _ _ _ G)
             as (pre & r & post & Ebam & Hr & Es & El & Hpre & Hpost).
           destruct (best <? subread_length x) eqn:L; intros [= <- <-].
           ++ apply Z.ltb_lt in L.
              exists bam, x, []; repeat split; auto.
              ** intros y Iy Hy; rewrite Ebam in Iy.
                 apply in_app_or in Iy; destruct Iy as [Iy|[<-|Iy]].
                 --- specialize (Hpre y Iy Hy); lia.
                 --- lia.
                 --- specialize (Hpost y Iy Hy); lia.
              ** intros y [].
           ++ apply Z.ltb_ge in L.
              exists pre, r, (post ++ [x]); repeat split; auto.
              ** rewrite Ebam, <- app_assoc; reflexivity.
              ** apply Hr.
              ** apply Hr.
              ** intros y Iy Hy.
                 apply in_app_or in Iy; destruct Iy as [Iy|[<-|[]]];
                   [apply Hpost; assumption | lia].
        -- intros [= <- <-].
           exists bam, x, []; repeat split; auto.
           ++ intros y Iy [My Ey]; exfalso.
              apply (@max_subread_present movie_name bam y Iy My).
              rewrite Ey; exact G.
           ++ intros y [].
      * rewrite keep_longest_get_neq by exact N; intros G.
        destruct (IH _ _ _ G)
          as (pre & r & post & Ebam & Hr & Es & El & Hpre & Hpost).
        exists pre, r, (post ++ [x]); repeat split; auto.
        -- rewrite Ebam, <- app_assoc; reflexivity.
        -- apply Hr.
        -- apply Hr.
        -- intros y Iy Hy.
           apply in_app_or in Iy; destruct Iy as [Iy|[<-|[]]];
             [apply Hpost; assumption | destruct Hy; contradiction].
    + rewrite crunch_record_skip by exact Mx; simpl; intros G.
      destruct (IH _ _ _ G)
        as (pre & r & post & Ebam & Hr & Es & El & Hpre & Hpost).
      exists pre, r, (post ++ [x]); repeat split; auto.
      * rewrite Ebam, <- app_assoc; reflexivity.
      * apply Hr.
      * apply Hr.
      * intros y Iy Hy.
        apply in_app_or in Iy; destruct Iy as [Iy|[<-|[]]];
          [apply Hpost; assumption | destruct Hy; congruence].
Qed.

Lemma C9_witness :
  dict_get ("m1", 7) (max_subread (alignment_info_from_bam sample_bam "m1"))
  = Some (("m1", 7, 100, 250), 150)
  /\ exists pre r post,
       sample_bam = pre ++ r :: post
       /\ of_zmw "m1" ("m1", 7) r
       /\ ("m1", 7, 100, 250) = subread_id_of r /\ 150 = subread_length r
       /\ (forall x, In x pre -> of_zmw "m1" ("m1", 7) x ->
                     subread_length x < 150)
       /\ (forall x, In x post -> of_zmw "m1" ("m1", 7) x ->
                     subread_length x <= 150).
Proof.
  split; [reflexivity|].
  apply (proj2 (C9_longest_subread_first_maximum "m1" sample_bam)).
  reflexivity.
Defined.

(** C10. Every row the crunching pass stores has exactly five fields, as
    many as the column list [from_alignment_file] returns.  Hence, whatever
    order the dictionaries and the movie names are iterated in, a build from
    the result of [from_alignment_file] never raises the width-mismatch
    error, and it succeeds as soon as one row is stored. *)
Theorem C10_five_fields_width_check_passes movie_name bam :
  let st := alignment_info_from_bam bam movie_name in
  from_alignment_file movie_name bam
  = (movie_names st, unrolled st, datum st, columns)
  /\ (forall k rw, In (k, rw) (datum st) ->
        (exists r last,
            In r bam /\ k = subread_id_of r
            /\ rw = [ VInt (subread_length r); VFloat (identity r);
                      VFloat (readQual r);
                      VFloat (if zmw_differs (zmw_id_of r) last
                              then 1%float else 0%float);
                      VInt 99999 ])
        /\ List.length rw = 5%nat
        /\ List.length rw = List.length columns)
  /\ (forall mnames rds subs,
        Permutation subs (datum st) ->
        (forall n c,
            _numpify mnames rds subs columns
            <> Raise (IndexError_incompatible n c))
        /\ (Permutation mnames (movie_names st) ->
            datum st <> [] ->
            exists t, _numpify mnames rds subs columns = Ok t)).
Proof.
  intros st.
  assert (W : forall k rw, In (k, rw) (datum st) ->
                List.length rw = 5%nat /\ subread_movie k = movie_name)
    by (intros k rw I; apply (datum_rows_width _ _ _ _ I)).
  split; [reflexivity|].
  split.
  { intros k rw I; split; [|split; apply (W k rw I)].
    destruct (datum_rows _ _ _ _ I) as (r & last & Ir & _ & Ek & Er).
    exists r, last; repeat split; assumption. }
  intros mnames rds subs Ps.
  assert (Wsubs : forall k rw, In (k, rw) subs ->
                    List.length rw = List.length columns).
  { intros k rw I; apply (W k).
    apply (Permutation_in _ Ps); exact I. }
  split.
  - intros n c; apply numpify_no_mismatch; exact Wsubs.
  - intros Pn NE.
    apply numpify_Ok; [reflexivity | exact Wsubs|].
    destruct subs as [|[k rw] subs'].
    + apply Permutation_nil in Ps; congruence.
    + assert (I : In (k, rw) (datum st))
        by (apply (Permutation_in _ Ps); left; reflexivity).
      assert (Inm : In (subread_movie k) mnames).
      { rewrite (proj2 (W k rw I)).
        apply (Permutation_in _ (Permutation_sym Pn)).
        apply datum_nonempty_target_listed; exact NE. }
      intros E.
      assert (X : In rw (flat_map (subreads_of ((k, rw) :: subs')) mnames)).
      { apply collected_rows_In; exists k; split;
          [left; reflexivity | exact Inm]. }
      rewrite E in X; contradiction.
Qed.

Lemma C10_witness :
  Permutation (rev sample_subreads) sample_subreads
  /\ Permutation (rev sample_names) sample_names
  /\ sample_subreads <> []
  /\ exists t,
       _numpify (rev sample_names) sample_reads (rev sample_subreads) columns
       = Ok t.
Proof.
  assert (Ps : Permutation (rev sample_subreads) sample_subreads)
    by (apply Permutation_sym, Permutation_rev).
  assert (Pn : Permutation (rev sample_names) sample_names)
    by (apply Permutation_sym, Permutation_rev).
  assert (NE : sample_subreads <> []) by (vm_compute; discriminate).
  repeat (split; [assumption|]).
  exact (proj2 (proj2 (proj2 (C10_five_fields_width_check_passes
                                "m1" sample_bam))
                  (rev sample_names) sample_reads (rev sample_subreads) Ps)
           Pn NE).
Defined.

(* ========================================================================= *)
(** * Further properties of the crunching pass *)

Section DistinctCount.
Context {K : Type} `{EqbKeyOk K}.

Lemma distinct_count_same_elements (l1 l2 : list K) :
  NoDup l1 -> (forall x, In x l1 <-> In x l2) ->
  List.length l1 = distinct_count l2.
Proof.
  revert l1; induction l2 as [|k t IH]; intros l1 ND Hin; simpl.
  - destruct l1 as [|x l1]; [reflexivity|].
    exfalso; apply (proj1 (Hin x)); left; reflexivity.
  - destruct (existsb (keqb k) t) eqn:E.
    + apply existsb_keqb_In in E.
      apply IH; [exact ND|].
      intros x; rewrite Hin; simpl; split; [intros [<-|I]; assumption | auto].
    + assert (Nk : ~ In k t).
      { intros I; apply existsb_keqb_In in I; congruence. }
      assert (Ik : In k l1) by (apply Hin; left; reflexivity).
      apply in_split in Ik; destruct Ik as (a & b & ->).
      apply NoDup_remove in ND; destruct ND as [ND Na].
      rewrite length_app; simpl; rewrite Nat.add_succ_r, <- length_app.
      f_equal; apply IH; [exact ND|].
      intros x; split.
      * intros I.
        assert (I' : In x (a ++ k :: b)).
        { apply in_app_or in I; apply in_or_app; simpl; tauto. }
        apply Hin in I'; destruct I' as [<-|I']; [contradiction | exact I'].
      * intros I.
        assert (I' : In x (a ++ k :: b)) by (apply Hin; right; exact I).
        apply in_app_or in I'; apply in_or_app.
        destruct I' as [I'|[<-|I']]; [tauto | contradiction | tauto].
Qed.

Lemma distinct_count_le (l : list K) :
  (distinct_count l <= List.length l)%nat.
Proof.
  induction l as [|k t IH]; simpl; [lia|].
  destruct (existsb (keqb k) t); lia.
Qed.

Lemma distinct_count_full (l : list K) :
  distinct_count l = List.length l -> NoDup l.
Proof.
  induction l as [|k t IH]; simpl; [constructor|].
  destruct (existsb (keqb k) t) eqn:E; intros L.
  - pose proof (distinct_count_le t); lia.
  - constructor; [|apply IH; lia].
    intros I; apply existsb_keqb_In in I; congruence.
Qed.

Lemma dict_mem_existsb {V : Type} (k : K) (d : dict K V) :
  dict_mem k d = existsb (keqb k) (map fst d).
Proof.
  unfold dict_mem; induction d as [|[k0 v0] t IH]; simpl; [reflexivity|].
  destruct (keqb k k0); [reflexivity | exact IH].
Qed.

Lemma dict_get_Some_In {V : Type} (k : K) (v : V) (d : dict K V) :
  dict_get k d = Some v -> In (k, v) d.
Proof.
  induction d as [|[k0 v0] t IH]; simpl; [discriminate|].
  destruct (keqb k k0) eqn:E.
  - apply keqb_eq in E; subst k0; intros [= ->]; left; reflexivity.
  - intros G; right; apply IH; exact G.
Qed.

Lemma dict_get_present {V : Type} (k : K) (d : dict K V) :
  dict_get k d <> None <-> In k (map fst d).
Proof.
  pose proof (dict_get_None k d) as N.
  destruct (dict_get k d) eqn:G.
  - split; [intros _|discriminate].
    apply dict_get_Some_In in G.
    apply in_map_iff; exists (k, v); split; [reflexivity | exact G].
  - split; [congruence|].
    intros I _; apply (proj1 N); auto.
Qed.

End DistinctCount.

(** The keys of each of the three dictionaries, in the order the pass
    creates them: a record of the target movie adds its key when it is
    new. *)
Section KeyTrace.
Context {K : Type} `{EqbKeyOk K}.
Variable movie_name : string.
Variable keysof : crunch_state -> list K.
Variable key : AlignmentRecord -> K.
Hypothesis keys_init : keysof crunch_init = [].
Hypothesis keys_step : forall st r,
  keysof (crunch_record movie_name st r)
  = if matching movie_name r
    then (if existsb (keqb (key r)) (keysof st)
          then keysof st else keysof st ++ [key r])
    else keysof st.

Lemma key_trace_spec (bam : list AlignmentRecord) :
  NoDup (keysof (alignment_info_from_bam bam movie_name))
  /\ forall k,
       In k (keysof (alignment_info_from_bam bam movie_name))
       <-> exists r, In r bam /\ matching movie_name r = true /\ key r = k.
Proof.
  induction bam as [|x bam [ND IH]] using rev_ind.
  - unfold alignment_info_from_bam; simpl; rewrite keys_init.
    split; [constructor|].
    intros k; split; [intros [] | intros (r & [] & _)].
  - rewrite crunch_snoc, keys_step.
    destruct (matching movie_name x) eqn:M.
    + destruct (existsb (keqb (key x)) _) eqn:E.
      * split; [exact ND|].
        intros k; rewrite IH; split.
        -- intros (r & I & Mr & Er); exists r; split; [|auto].
           apply in_or_app; left; exact I.
        -- intros (r & I & Mr & Er).
           apply in_app_or in I; destruct I as [I|[<-|[]]].
           ++ exists r; auto.
           ++ apply IH; subst k; apply existsb_keqb_In; exact E.
      * assert (N : ~ In (key x)
                      (keysof (alignment_info_from_bam bam movie_name))).
        { intros I; apply existsb_keqb_In in I; congruence. }
        split.
        -- apply NoDup_rev in ND; rewrite <- (rev_involutive (_ ++ _)).
           apply NoDup_rev; rewrite rev_app_distr; simpl.
           constructor; [rewrite <- in_rev; exact N | exact ND].
        -- intros k; rewrite in_app_iff, IH; simpl; split.
           ++ intros [(r & I & Mr & Er)|[<-|[]]].
              ** exists r; split; [apply in_or_app; left; exact I | auto].
              ** exists x; split;
                   [apply in_or_app; right; left; reflexivity | auto].
           ++ intros (r & I & Mr & Er).
              apply in_app_or in I; destruct I as [I|[<-|[]]].
              ** left; exists r; auto.
              ** right; left; exact Er.
    + split; [exact ND|].
      intros k; rewrite IH; split.
      * intros (r & I & Mr & Er); exists r; split; [|auto].
        apply in_or_app; left; exact I.
      * intros (r & I & Mr & Er).
        apply in_app_or in I; destruct I as [I|[<-|[]]];
          [exists r; auto | congruence].
Qed.

Lemma key_trace_count (bam : list AlignmentRecord) :
  List.length (keysof (alignment_info_from_bam bam movie_name))
  = distinct_count (map key (matching_records movie_name bam)).
Proof.
  destruct (key_trace_spec bam) as [ND Hin].
  apply distinct_count_same_elements; [exact ND|].
  intros k; rewrite Hin, in_map_iff; unfold matching_records; split.
  - intros (r & I & M & E); exists r; split; [exact E|].
    apply filter_In; auto.
  - intros (r & E & I); apply filter_In in I; exists r; tauto.
Qed.

End KeyTrace.

Section KeysOfThePass.
Variable movie_name : string.
Implicit Types (st : crunch_state) (r : AlignmentRecord).

Lemma datum_keys_step st r :
  map fst (datum (crunch_record movie_name st r))
  = if matching movie_name r
    then (if existsb (keqb (subread_id_of r)) (map fst (datum st))
          then map fst (datum st)
          else map fst (datum st) ++ [subread_id_of r])
    else map fst (datum st).
Proof.
  destruct (matching movie_name r) eqn:M.
  - rewrite crunch_record_hit by exact M; simpl.
    rewrite dict_keys_set, dict_mem_existsb; reflexivity.
  - rewrite crunch_record_skip by exact M; reflexivity.
Qed.

Lemma unrolled_keys_step st r :
  map fst (unrolled (crunch_record movie_name st r))
  = if matching movie_name r
    then (if existsb (keqb (zmw_id_of r)) (map fst (unrolled st))
          then map fst (unrolled st)
          else map fst (unrolled st) ++ [zmw_id_of r])
    else map fst (unrolled st).
Proof.
  destruct (matching movie_name r) eqn:M.
  - rewrite crunch_record_hit by exact M; simpl.
    unfold widen; rewrite !dict_keys_adjust; unfold dict_setdefault.
    rewrite <- dict_mem_existsb.
    destruct (dict_mem (zmw_id_of r) (unrolled st)) eqn:E; [reflexivity|].
    rewrite dict_keys_set, E; reflexivity.
  - rewrite crunch_record_skip by exact M; reflexivity.
Qed.

Lemma max_subread_keys_step st r :
  map fst (max_subread (crunch_record movie_name st r))
  = if matching movie_name r
    then (if existsb (keqb (zmw_id_of r)) (map fst (max_subread st))
          then map fst (max_subread st)
          else map fst (max_subread st) ++ [zmw_id_of r])
    else map fst (max_subread st).
Proof.
  destruct (matching movie_name r) eqn:M.
  - rewrite crunch_record_hit by exact M; simpl.
    rewrite <- dict_mem_existsb; unfold keep_longest, dict_mem.
    destruct (dict_get (zmw_id_of r) (max_subread st)) as [[sid0 best]|]
      eqn:G.
    + destruct (best <? subread_length r); [|reflexivity].
      rewrite dict_keys_set; unfold dict_mem; rewrite G; reflexivity.
    + rewrite dict_keys_set; unfold dict_mem; rewrite G; reflexivity.
  - rewrite crunch_record_skip by exact M; reflexivity.
Qed.

(** The span dictionary and the longest-subread dictionary hold the same
    reads, created in the same order. *)
Lemma unrolled_max_subread_keys (bam : list AlignmentRecord) :
  map fst (unrolled (alignment_info_from_bam bam movie_name))
  = map fst (max_subread (alignment_info_from_bam bam movie_name)).
Proof.
  induction bam as [|r bam IH] using rev_ind; [reflexivity|].
  rewrite crunch_snoc, unrolled_keys_step, max_subread_keys_step, IH.
  reflexivity.
Qed.

Lemma crunch_matching_records (bam : list AlignmentRecord) :
  let st := alignment_info_from_bam bam movie_name in
  let st' :=
    alignment_info_from_bam (matching_records movie_name bam) movie_name in
  datum st = datum st' /\ unrolled st = unrolled st'
  /\ max_subread st = max_subread st'
  /\ last_zmw_id st = last_zmw_id st' /\ warned st = warned st'.
Proof.
  induction bam as [|r bam IH] using rev_ind; [repeat split|].
  simpl in IH; destruct IH as (Ed & Eu & Em & El & Ew).
  rewrite matching_records_snoc; simpl.
  destruct (matching movie_name r) eqn:M.
  - rewrite !crunch_snoc, !crunch_record_hit by exact M; simpl.
    rewrite Ed, Eu, Em, El, Ew; repeat split.
  - rewrite app_nil_r, crunch_snoc, crunch_record_skip by exact M; simpl.
    repeat split; assumption.
Qed.

End KeysOfThePass.

(** X1. The pass lists every movie of the file exactly once, whatever the
    target movie is: the list of names does not depend on the target. *)
Theorem movie_names_cover_the_file bam movie_name other :
  NoDup (movie_names (alignment_info_from_bam bam movie_name))
  /\ (forall nm,
        In nm (movie_names (alignment_info_from_bam bam movie_name))
        <-> exists r, In r bam /\ MovieName r = nm)
  /\ movie_names (alignment_info_from_bam bam other)
     = movie_names (alignment_info_from_bam bam movie_name)
  /\ List.length (movie_names (alignment_info_from_bam bam movie_name))
     = List.length (nodup string_dec (map MovieName bam)).
Proof.
  assert (Fold : forall m,
             movie_names (alignment_info_from_bam bam m)
             = fold_left (fun s r => set_add (MovieName r) s) bam []).
  { intros m; induction bam as [|r bam IH] using rev_ind; [reflexivity|].
    rewrite crunch_snoc, fold_left_app; simpl; rewrite <- IH.
    destruct (matching m r) eqn:M;
      [rewrite crunch_record_hit | rewrite crunch_record_skip]; auto. }
  destruct (movie_names_spec movie_name bam) as [ND Hin].
  split; [exact ND|].
  split.
  - intros nm; rewrite Hin, in_map_iff; split.
    + intros (r & E & I); exists r; auto.
    + intros (r & I & E); exists r; auto.
  - split; [rewrite !Fold; reflexivity|].
    apply Permutation_length, NoDup_Permutation;
      [exact ND | apply NoDup_nodup|].
    intros nm; rewrite Hin, nodup_In; reflexivity.
Qed.

(** X2. Records of other movies leave no trace in the three dictionaries,
    in the last ZmwId or in the warnings: crunching the whole file gives
    there what crunching only the records of the target movie gives. *)
Theorem other_movies_leave_no_trace bam movie_name :
  let st := alignment_info_from_bam bam movie_name in
  let st' :=
    alignment_info_from_bam (matching_records movie_name bam) movie_name in
  datum st = datum st' /\ unrolled st = unrolled st'
  /\ max_subread st = max_subread st'
  /\ last_zmw_id st = last_zmw_id st' /\ warned st = warned st'
  /\ (forall pre others post,
        Forall (fun x => matching movie_name x = false) others ->
        datum (alignment_info_from_bam (pre ++ others ++ post) movie_name)
        = datum (alignment_info_from_bam (pre ++ post) movie_name)).
Proof.
  intros st st'.
  destruct (crunch_matching_records movie_name bam)
    as (Ed & Eu & Em & El & Ew).
  repeat (split; [assumption|]).
  intros pre others post F.
  assert (E : matching_records movie_name (pre ++ others ++ post)
              = matching_records movie_name (pre ++ post)).
  { unfold matching_records; rewrite !filter_app.
    replace (filter (matching movie_name) others)
      with (@nil AlignmentRecord); [reflexivity|].
    induction F as [|x l Hx F IH]; simpl; [reflexivity|].
    rewrite Hx; exact IH. }
  rewrite (proj1 (crunch_matching_records movie_name (pre ++ others ++ post))).
  rewrite (proj1 (crunch_matching_records movie_name (pre ++ post))).
  rewrite E; reflexivity.
Qed.

(** X3. Each dictionary has exactly one entry per key seen for the target
    movie: a SubreadId is in the row dictionary iff a record of the target
    movie produces it, a ZmwId is in the span dictionary and in the
    longest-subread dictionary iff the target movie has a record of that
    read, and the sizes are the numbers of distinct ids. *)
Theorem one_entry_per_id_seen bam movie_name :
  let st := alignment_info_from_bam bam movie_name in
  let seen := matching_records movie_name bam in
  (forall k, dict_get k (datum st) <> None
             <-> exists r, In r seen /\ subread_id_of r = k)
  /\ (forall k, dict_get k (unrolled st) <> None
                <-> exists r, In r seen /\ zmw_id_of r = k)
  /\ (forall k, dict_get k (max_subread st) <> None
                <-> dict_get k (unrolled st) <> None)
  /\ dict_wf (datum st) /\ dict_wf (unrolled st) /\ dict_wf (max_subread st)
  /\ dict_len (datum st) = distinct_count (map subread_id_of seen)
  /\ dict_len (unrolled st) = distinct_count (map zmw_id_of seen)
  /\ dict_len (max_subread st) = dict_len (unrolled st).
Proof.
  intros st seen.
  pose proof (@key_trace_spec subread_id_t _ _ movie_name
                (fun s => map fst (datum s)) subread_id_of eq_refl
                (datum_keys_step movie_name) bam) as [NDd Hd].
  pose proof (@key_trace_spec zmw_id_t _ _ movie_name
                (fun s => map fst (unrolled s)) zmw_id_of eq_refl
                (unrolled_keys_step movie_name) bam) as [NDu Hu].
  pose proof (unrolled_max_subread_keys movie_name bam) as Ek.
  assert (Seen : forall (P : AlignmentRecord -> Prop),
             (exists r, In r bam /\ matching movie_name r = true /\ P r)
             <-> (exists r, In r seen /\ P r)).
  { intros P; unfold seen, matching_records; split.
    - intros (r & I & M & H); exists r; split; [apply filter_In|]; auto.
    - intros (r & I & H); apply filter_In in I; exists r; tauto. }
  split; [intros k; rewrite dict_get_present, <- Seen; apply Hd|].
  split; [intros k; rewrite dict_get_present, <- Seen; apply Hu|].
  split; [intros k; rewrite !dict_get_present; fold st in Ek;
          rewrite Ek; reflexivity|].
  split; [exact NDd|].
  split; [exact NDu|].
  split; [unfold dict_wf; fold st in Ek; rewrite <- Ek; exact NDu|].
  split.
  { unfold dict_len; rewrite <- (length_map fst).
    apply (@key_trace_count subread_id_t _ _ movie_name
             (fun s => map fst (datum s)) subread_id_of eq_refl
             (datum_keys_step movie_name) bam). }
  split.
  { unfold dict_len; rewrite <- (length_map fst).
    apply (@key_trace_count zmw_id_t _ _ movie_name
             (fun s => map fst (unrolled s)) zmw_id_of eq_refl
             (unrolled_keys_step movie_name) bam). }
  unfold dict_len; rewrite <- (length_map fst), <- (length_map fst (unrolled st)).
  fold st in Ek; rewrite Ek; reflexivity.
Qed.

Section SpanAndLongest.
Variable movie_name : string.
Implicit Types (bam : list AlignmentRecord) (r : AlignmentRecord).

Lemma span_invariant bam :
  (forall k s e,
      dict_get k (unrolled (alignment_info_from_bam bam movie_name))
      = Some (s, e) -> s <= 99999 /\ 0 <= e)
  /\ (forall r, In r bam -> matching movie_name r = true ->
        exists s e,
          dict_get (zmw_id_of r)
            (unrolled (alignment_info_from_bam bam movie_name)) = Some (s, e)
          /\ s <= aStart r /\ aEnd r <= e).
Proof.
  induction bam as [|x bam [Hb Hc]] using rev_ind.
  - split; [discriminate | intros r []].
  - rewrite crunch_snoc.
    destruct (matching movie_name x) eqn:Mx.
    + rewrite crunch_record_hit by exact Mx; simpl.
      assert (New : exists s e,
                 dict_get (zmw_id_of x)
                   (widen (zmw_id_of x) (aStart x) (aEnd x)
                      (unrolled (alignment_info_from_bam bam movie_name)))
                 = Some (s, e)
                 /\ s <= aStart x /\ aEnd x <= e /\ s <= 99999 /\ 0 <= e
                 /\ forall s0 e0,
                      dict_get (zmw_id_of x)
                        (unrolled (alignment_info_from_bam bam movie_name))
                      = Some (s0, e0) -> s <= s0 /\ e0 <= e).
      { rewrite widen_get_eq.
        destruct (dict_get (zmw_id_of x) _) as [[s0 e0]|] eqn:G; simpl.
        - destruct (Hb _ _ _ G) as [B1 B2].
          eexists; eexists; split; [reflexivity|].
          split; [lia|]; split; [lia|]; split; [lia|]; split; [lia|].
          intros s1 e1 E1; inversion E1; subst; lia.
        - eexists; eexists; split; [reflexivity|].
          split; [lia|]; split; [lia|]; split; [lia|]; split; [lia|].
          intros s1 e1; discriminate. }
      destruct New as (s & e & G & L1 & L2 & L3 & L4 & Old).
      split.
      * intros k s1 e1.
        destruct (keqb_dec (zmw_id_of x) k) as [<-|N].
        -- rewrite G; intros [= <- <-]; split; assumption.
        -- rewrite widen_get_neq by exact N; apply Hb.
      * intros r I M.
        apply in_app_or in I; destruct I as [I|[<-|[]]].
        -- destruct (Hc r I M) as (s1 & e1 & G1 & C1 & C2).
           destruct (keqb_dec (zmw_id_of x) (zmw_id_of r)) as [E|N].
           ++ rewrite <- E in G1 |- *.
              destruct (Old _ _ G1) as [O1 O2].
              exists s, e; split; [exact G|]; lia.
           ++ rewrite widen_get_neq by exact N.
              exists s1, e1; auto.
        -- exists s, e; auto.
    + rewrite crunch_record_skip by exact Mx; simpl.
      split; [exact Hb|].
      intros r I M.
      apply in_app_or in I; destruct I as [I|[<-|[]]];
        [apply Hc; assumption | congruence].
Qed.

Lemma max_subread_origin bam k sid len :
  dict_get k (max_subread (alignment_info_from_bam bam movie_name))
  = Some (sid, len) ->
  exists r, In r bam /\ of_zmw movie_name k r
            /\ sid = subread_id_of r /\ len = subread_length r.
Proof.
  revert k sid len.
  induction bam as [|x bam IH] using rev_ind; intros k sid len;
    [discriminate|].
  assert (Keep : forall G : dict_get k
                     (max_subread (alignment_info_from_bam bam movie_name))
                   = Some (sid, len),
             exists r, In r (bam ++ [x]) /\ of_zmw movie_name k r
                       /\ sid = subread_id_of r /\ len = subread_length r).
  { intros G; destruct (IH _ _ _ G) as (r & I & H).
    exists r; split; [apply in_or_app; left; exact I | exact H]. }
  rewrite crunch_snoc.
  destruct (matching movie_name x) eqn:Mx.
  - rewrite crunch_record_hit by exact Mx; simpl.
    destruct (keqb_dec (zmw_id_of x) k) as [E|N].
    + subst k; rewrite keep_longest_get_eq.
      assert (Here : exists r, In r (bam ++ [x])
                     /\ of_zmw movie_name (zmw_id_of x) r
                     /\ subread_id_of x = subread_id_of r
                     /\ subread_length x = subread_length r).
      { exists x; split; [apply in_or_app; right; left; reflexivity|].
        repeat split; assumption. }
      destruct (dict_get (zmw_id_of x) _) as [[sid0 best]|] eqn:G.
      * destruct (best <? subread_length x); intros [= <- <-];
          [exact Here | apply Keep; reflexivity].
      * intros [= <- <-]; exact Here.
    + rewrite keep_longest_get_neq by exact N; exact Keep.
  - rewrite crunch_record_skip by exact Mx; simpl; exact Keep.
Qed.

Lemma warned_origin bam (k : subread_id_t) :
  In (Duplicate_subread k) (warned (alignment_info_from_bam bam movie_name)) ->
  exists r, In r bam /\ matching movie_name r = true /\ subread_id_of r = k.
Proof.
  induction bam as [|x bam IH] using rev_ind; [intros []|].
  rewrite warned_snoc, in_app_iff; intros [I|I].
  - destruct (IH I) as (r & Ir & H); exists r; split; [|exact H].
    apply in_or_app; left; exact Ir.
  - destruct (matching movie_name x) eqn:M; simpl in I; [|contradiction].
    destruct (dict_mem _ _); simpl in I; [|contradiction].
    destruct I as [[= <-]|[]].
    exists x; split; [apply in_or_app; right; left; reflexivity | auto].
Qed.

End SpanAndLongest.

(** X4. The pass warns once per overwritten row: the number of warnings is
    the number of records of the target movie minus the number of stored
    rows, every warning names a stored SubreadId, and there is no warning
    exactly when the records of the target movie have pairwise distinct
    SubreadIds. *)
Theorem warnings_count_the_overwrites bam movie_name :
  let st := alignment_info_from_bam bam movie_name in
  let seen := matching_records movie_name bam in
  (List.length (warned st) + dict_len (datum st))%nat = List.length seen
  /\ (forall k, In (Duplicate_subread k) (warned st) ->
                dict_get k (datum st) <> None)
  /\ (warned st = [] <-> NoDup (map subread_id_of seen)).
Proof.
  intros st seen.
  pose proof (warned_count movie_name bam) as C; fold st seen in C.
  pose proof (@key_trace_spec subread_id_t _ _ movie_name
                (fun s => map fst (datum s)) subread_id_of eq_refl
                (datum_keys_step movie_name) bam) as [_ Hd].
  pose proof (@key_trace_count subread_id_t _ _ movie_name
                (fun s => map fst (datum s)) subread_id_of eq_refl
                (datum_keys_step movie_name) bam) as Cd.
  simpl in Cd; rewrite length_map in Cd; fold st seen in Cd.
  unfold dict_len in C |- *.
  split; [exact C|].
  split.
  - intros k I; apply dict_get_present, Hd.
    apply (warned_origin movie_name bam k I).
  - split.
    + intros E; rewrite E in C; simpl in C.
      apply distinct_count_full; rewrite length_map; lia.
    + intros ND; apply distinct_count_NoDup in ND.
      rewrite length_map in ND.
      destruct (warned st); [reflexivity | simpl in C; lia].
Qed.

(** X5. The span stored for a read covers every record of that read: its
    start is at most the record's start and its end at least the record's
    end; it also never starts after 99999 nor ends before 0, the pair every
    read starts from. *)
Theorem read_span_covers_every_record bam movie_name r :
  In r bam -> matching movie_name r = true ->
  exists s e,
    dict_get (zmw_id_of r) (unrolled (alignment_info_from_bam bam movie_name))
    = Some (s, e)
    /\ s <= aStart r /\ aEnd r <= e
    /\ s <= 99999 /\ 0 <= e.
Proof.
  intros I M.
  destruct (span_invariant movie_name bam) as [Hb Hc].
  destruct (Hc r I M) as (s & e & G & C1 & C2).
  destruct (Hb _ _ _ G) as [B1 B2].
  exists s, e; repeat split; assumption.
Qed.

Lemma read_span_covers_every_record_witness :
  In (aln "m1" 7 100 250 10 160) sample_bam
  /\ matching "m1" (aln "m1" 7 100 250 10 160) = true
  /\ exists s e,
       dict_get ("m1", 7) (unrolled (alignment_info_from_bam sample_bam "m1"))
       = Some (s, e)
       /\ s <= 10 /\ 160 <= e /\ s <= 99999 /\ 0 <= e.
Proof.
  assert (I : In (aln "m1" 7 100 250 10 160) sample_bam)
    by (right; right; left; reflexivity).
  assert (M : matching "m1" (aln "m1" 7 100 250 10 160) = true)
    by reflexivity.
  split; [exact I|]; split; [exact M|].
  exact (@read_span_covers_every_record sample_bam "m1" _ I M).
Defined.

(** X6. When every record of the target movie has start <= end, so that
    no length wraps around, the longest-subread entry of a read is
    consistent with the other two dictionaries: its SubreadId belongs to
    that read and has a stored row, the read has a span, and the recorded
    length is not negative and at most the width of that span. *)
Theorem longest_subread_fits_the_span bam movie_name k sid len :
  (forall r, In r bam -> matching movie_name r = true ->
             aStart r <= aEnd r) ->
  dict_get k (max_subread (alignment_info_from_bam bam movie_name))
  = Some (sid, len) ->
  let st := alignment_info_from_bam bam movie_name in
  (fst (fst (fst sid)), snd (fst (fst sid))) = k
  /\ dict_get sid (datum st) <> None
  /\ exists s e,
       dict_get k (unrolled st) = Some (s, e) /\ 0 <= len <= e - s.
Proof.
  intros Hord G st.
  destruct (@max_subread_origin movie_name bam k sid len G)
    as (r & I & [M Ek] & Es & El).
  pose proof (@key_trace_spec subread_id_t _ _ movie_name
                (fun s => map fst (datum s)) subread_id_of eq_refl
                (datum_keys_step movie_name) bam) as [_ Hd].
  destruct (span_invariant movie_name bam) as [_ Hc].
  destruct (Hc r I M) as (s & e & Gs & C1 & C2).
  split; [subst sid; exact Ek|].
  split.
  - apply dict_get_present, Hd; exists r; auto.
  - exists s, e; split; [rewrite <- Ek; exact Gs|].
    subst len; unfold subread_length, uint32_sub.
    pose proof (Hord r I M) as Hr.
    pose proof (Z.mod_pos_bound (aEnd r - aStart r) (2 ^ 32) eq_refl).
    pose proof (Z.mod_le (aEnd r - aStart r) (2 ^ 32)
                  ltac:(lia) eq_refl).
    lia.
Qed.

Lemma longest_subread_fits_the_span_witness :
  (forall r, In r sample_bam -> matching "m1" r = true -> aStart r <= aEnd r)
  /\ dict_get ("m1", 7)
       (max_subread (alignment_info_from_bam sample_bam "m1"))
     = Some (("m1", 7, 100, 250), 150)
  /\ dict_get ("m1", 7, 100, 250)
       (datum (alignment_info_from_bam sample_bam "m1")) <> None
  /\ exists s e,
       dict_get ("m1", 7) (unrolled (alignment_info_from_bam sample_bam "m1"))
       = Some (s, e) /\ 0 <= 150 <= e - s.
Proof.
  assert (H : forall r, In r sample_bam -> matching "m1" r = true ->
                        aStart r <= aEnd r).
  { intros r I _; simpl in I.
    repeat (destruct I as [<-|I]; [simpl; lia|]); contradiction. }
  assert (G : dict_get ("m1", 7)
                (max_subread (alignment_info_from_bam sample_bam "m1"))
              = Some (("m1", 7, 100, 250), 150)) by reflexivity.
  split; [exact H|]; split; [exact G|].
  exact (proj2 (@longest_subread_fits_the_span sample_bam "m1" _ _ _ H G)).
Defined.

(* ========================================================================= *)
(** * Further properties of the table builder *)

Section TableFacts.
Variable rds : dict zmw_id_t (Z * Z).
Variable subs : dict subread_id_t row.

Lemma movie_index_names ro so mnames :
  map name (movie_index rds subs ro so mnames) = mnames.
Proof.
  revert ro so; induction mnames as [|nm t IH]; intros ro so; simpl;
    [reflexivity | rewrite IH; reflexivity].
Qed.

Lemma reads_of_In (nm : string) (x : Z) :
  In x (reads_of rds nm)
  <-> exists k v, In (k, v) rds /\ zmw_movie k = nm /\ x = snd v - fst v.
Proof.
  unfold reads_of; rewrite in_map_iff; split.
  - intros ([k v] & E & I); simpl in E.
    apply filter_In in I; destruct I as [I F]; simpl in F.
    apply String.eqb_eq in F; exists k, v; auto.
  - intros (k & v & I & E & ->); exists (k, v); split; [reflexivity|].
    apply filter_In; split; [exact I | simpl; apply String.eqb_eq; exact E].
Qed.

(** The slices the index entries designate, taken in order, tile the
    array. *)
Lemma read_slices_tile ro so mnames (pre arr : list Z) :
  List.length pre = ro ->
  arr = pre ++ flat_map (reads_of rds) mnames ->
  flat_map (fun m => py_slice (rOffs m) (rOffs m + rLen m) arr)
    (movie_index rds subs ro so mnames)
  = flat_map (reads_of rds) mnames.
Proof.
  revert ro so pre; induction mnames as [|nm t IH]; intros ro so pre L E;
    simpl; [reflexivity|].
  f_equal.
  - subst arr ro; simpl; apply py_slice_app.
  - apply (IH _ _ (pre ++ reads_of rds nm)).
    + rewrite length_app; lia.
    + rewrite E; simpl; rewrite app_assoc; reflexivity.
Qed.

Lemma subread_slices_tile ro so mnames (pre arr : list row) :
  List.length pre = so ->
  arr = pre ++ flat_map (subreads_of subs) mnames ->
  flat_map (fun m => py_slice (sOffs m) (sOffs m + sLen m) arr)
    (movie_index rds subs ro so mnames)
  = flat_map (subreads_of subs) mnames.
Proof.
  revert ro so pre; induction mnames as [|nm t IH]; intros ro so pre L E;
    simpl; [reflexivity|].
  f_equal.
  - subst arr so; simpl; apply py_slice_app.
  - apply (IH _ _ (pre ++ subreads_of subs nm)).
    + rewrite length_app; lia.
    + rewrite E; simpl; rewrite app_assoc; reflexivity.
Qed.

End TableFacts.

(** X7. A built table has one index entry per movie name, in the order
    given, and its arrays hold exactly the rows and the span widths of the
    listed movies: what belongs to a movie that is not listed is left
    out. *)
Theorem table_holds_the_listed_movies mnames rds subs cols t :
  _numpify mnames rds subs cols = Ok t ->
  map name (_movies t) = mnames
  /\ (forall rw, In rw (subreads t None)
                 <-> exists k, In (k, rw) subs
                               /\ In (subread_movie k) mnames)
  /\ (forall x, In x (reads t None)
                <-> exists k v, In (k, v) rds /\ In (zmw_movie k) mnames
                                /\ x = snd v - fst v).
Proof.
  intros B; destruct (numpify_Ok_inv _ _ _ _ B) as (Em & Er & Es).
  split; [rewrite Em; apply movie_index_names|].
  split.
  - intros rw; simpl; rewrite Es; apply collected_rows_In.
  - intros x; simpl; rewrite Er, in_flat_map; split.
    + intros (nm & Inm & I); apply reads_of_In in I.
      destruct I as (k & v & I & <- & E); exists k, v; auto.
    + intros (k & v & I & Inm & E); exists (zmw_movie k); split; [exact Inm|].
      apply reads_of_In; exists k, v; auto.
Qed.

Lemma table_holds_the_listed_movies_witness :
  exists t,
    _numpify ["m2"] sample_reads
      ((("m2", 1, 0, 5), narrow_row) :: sample_subreads)
      ["Length"; "Accuracy"; "Read quality"; "isFirst"]
    = Ok t
    /\ map name (_movies t) = ["m2"]
    /\ subreads t None = [narrow_row].
Proof.
  destruct (_numpify ["m2"] sample_reads
              ((("m2", 1, 0, 5), narrow_row) :: sample_subreads)
              ["Length"; "Accuracy"; "Read quality"; "isFirst"])
    as [t|e] eqn:B;
    [|vm_compute in B; discriminate].
  exists t; split; [reflexivity|].
  split; [exact (proj1 (table_holds_the_listed_movies _ _ _ _ B))|].
  apply (numpify_Ok_inv _ _ _ _ B).
Defined.

(** X8. The slices that the index entries of a built table designate,
    taken in index order, tile both arrays: concatenated they give the whole
    array, whatever the movie names are (repeated names included). *)
Theorem movie_slices_tile_the_arrays mnames rds subs cols t :
  _numpify mnames rds subs cols = Ok t ->
  flat_map (fun m => reads t (Some m)) (_movies t) = reads t None
  /\ flat_map (fun m => subreads t (Some m)) (_movies t) = subreads t None.
Proof.
  intros B; destruct (numpify_Ok_inv _ _ _ _ B) as (Em & Er & Es).
  simpl; rewrite Em; split.
  - transitivity (flat_map (reads_of rds) mnames); [|symmetry; exact Er].
    apply (@read_slices_tile rds subs 0 0 mnames []); [reflexivity|exact Er].
  - transitivity (flat_map (subreads_of subs) mnames); [|symmetry; exact Es].
    apply (@subread_slices_tile rds subs 0 0 mnames []);
      [reflexivity|exact Es].
Qed.

Lemma movie_slices_tile_the_arrays_witness :
  exists t,
    _numpify ["m1"; "m2"; "m1"] sample_reads sample_subreads columns = Ok t
    /\ List.length (reads t None) = 4%nat
    /\ flat_map (fun m => reads t (Some m)) (_movies t) = reads t None.
Proof.
  destruct (_numpify ["m1"; "m2"; "m1"] sample_reads sample_subreads columns)
    as [t|e] eqn:B; [|vm_compute in B; discriminate].
  exists t; split; [reflexivity|].
  split.
  - simpl; rewrite (proj1 (proj2 (numpify_Ok_inv _ _ _ _ B))); reflexivity.
  - exact (proj1 (movie_slices_tile_the_arrays _ _ _ _ B)).
Defined.





(* ========================================================================= *)
(** * The pass and the builder together *)

Section DictInGet.
Context {K V : Type} `{EqbKeyOk K}.

Lemma dict_In_get (k : K) (v : V) (d : dict K V) :
  dict_wf d -> In (k, v) d -> dict_get k d = Some v.
Proof.
  unfold dict_wf; induction d as [|[k0 v0] t IH]; simpl; [intros _ []|].
  intros ND [E|I]; inversion ND as [|? ? Hk NDt]; subst.
  - inversion E; subst; rewrite keqb_refl; reflexivity.
  - destruct (keqb k k0) eqn:Ek; [|apply IH; assumption].
    apply keqb_eq in Ek; subst k0; exfalso; apply Hk.
    apply in_map_iff; exists (k, v); split; [reflexivity | exact I].
Qed.

End DictInGet.

Lemma flat_map_all_nil {A B : Type} (f : A -> list B) (l : list A) :
  (forall y, In y l -> f y = []) -> flat_map f l = [].
Proof.
  induction l as [|a t IH]; simpl; intros Hf; [reflexivity|].
  rewrite (Hf a) by (left; reflexivity); simpl.
  apply IH; intros y I; apply Hf; right; exact I.
Qed.

Lemma flat_map_single {A B : Type} (f : A -> list B) (x : A) (l : list A) :
  NoDup l -> In x l -> (forall y, In y l -> y <> x -> f y = []) ->
  flat_map f l = f x.
Proof.
  induction 1 as [|a t Ha ND IH]; simpl; [intros []|].
  intros [->|I] Hf.
  - rewrite flat_map_all_nil; [apply app_nil_r|].
    intros y Iy; apply Hf; [right; exact Iy | intros ->; contradiction].
  - rewrite (Hf a) by (try (left; reflexivity); intros ->; contradiction).
    simpl; apply IH; [exact I|].
    intros y Iy; apply Hf; right; exact Iy.
Qed.

Section PipelineTable.
Variable movie_name : string.
Variable bam : list AlignmentRecord.
Let st := alignment_info_from_bam bam movie_name.

Lemma unrolled_keys_movie (k : zmw_id_t) (v : Z * Z) :
  In (k, v) (unrolled st) -> zmw_movie k = movie_name.
Proof.
  intros I.
  pose proof (@key_trace_spec zmw_id_t _ _ movie_name
                (fun s => map fst (unrolled s)) zmw_id_of eq_refl
                (unrolled_keys_step movie_name) bam) as [_ Hu].
  assert (Ik : In k (map fst (unrolled st)))
    by (apply in_map_iff; exists (k, v); split; [reflexivity | exact I]).
  apply Hu in Ik; destruct Ik as (r & _ & M & <-).
  apply matching_movie; exact M.
Qed.

Lemma reads_of_target (rds : dict zmw_id_t (Z * Z)) (nm : string) :
  Permutation rds (unrolled st) ->
  reads_of rds nm
  = if String.eqb nm movie_name
    then map (fun kv => snd (snd kv) - fst (snd kv)) rds else [].
Proof.
  intros P; unfold reads_of.
  assert (A : forall kv, In kv rds -> zmw_movie (fst kv) = movie_name).
  { intros [k v] I; apply (@unrolled_keys_movie k v).
    apply (Permutation_in _ P); exact I. }
  clear P; induction rds as [|kv t IH]; simpl;
    [destruct (String.eqb nm movie_name); reflexivity|].
  rewrite (A kv) by (left; reflexivity).
  rewrite String.eqb_sym.
  assert (IH' := IH (fun x I => A x (or_intror I))).
  destruct (String.eqb nm movie_name); simpl; rewrite IH'; reflexivity.
Qed.

Lemma subreads_of_target (subs : dict subread_id_t row) (nm : string) :
  Permutation subs (datum st) ->
  subreads_of subs nm = if String.eqb nm movie_name then map snd subs else [].
Proof.
  intros P; unfold subreads_of.
  assert (A : forall kv, In kv subs -> subread_movie (fst kv) = movie_name).
  { intros [k v] I.
    apply (proj2 (@datum_rows_width movie_name bam k v
                    (Permutation_in _ P I))). }
  clear P; induction subs as [|kv t IH]; simpl;
    [destruct (String.eqb nm movie_name); reflexivity|].
  rewrite (A kv) by (left; reflexivity).
  rewrite String.eqb_sym.
  assert (IH' := IH (fun x I => A x (or_intror I))).
  destruct (String.eqb nm movie_name); simpl; rewrite IH'; reflexivity.
Qed.

End PipelineTable.

(** What the index entry at some position of a built table designates. *)
Lemma slice_of_entry mnames rds subs cols t ms1 m ms2 :
  _numpify mnames rds subs cols = Ok t ->
  _movies t = ms1 ++ m :: ms2 ->
  reads t (Some m) = reads_of rds (name m)
  /\ subreads t (Some m) = subreads_of subs (name m)
  /\ rLen m = List.length (reads_of rds (name m))
  /\ sLen m = List.length (subreads_of subs (name m))
  /\ In (name m) mnames.
Proof.
  intros B E; destruct (numpify_Ok_inv _ _ _ _ B) as (Em & Er & Es).
  rewrite Em in E.
  destruct (movie_index_split _ _ _ _ _ _ _ _ E)
    as (n1 & n2 & En & E1 & Or & Os & Nr & Ns).
  simpl in Or, Os.
  assert (Pr : total_rLen ms1 = List.length (flat_map (reads_of rds) n1))
    by (rewrite E1; apply movie_index_total_rLen).
  assert (Ps : total_sLen ms1
               = List.length (flat_map (subreads_of subs) n1))
    by (rewrite E1; apply movie_index_total_sLen).
  simpl; rewrite Er, Es, En, !flat_map_app; simpl.
  rewrite Or, Os, Pr, Ps.
  split; [rewrite Nr; apply py_slice_app|].
  split; [rewrite Ns; apply py_slice_app|].
  split; [exact Nr|]; split; [exact Ns|].
  apply in_or_app; right; left; reflexivity.
Qed.

(** X10. In a table built from what [from_alignment_file] returns, in any
    iteration order, only the target movie has data: its index entry spans
    both arrays entirely, and the entry of every other movie of the file has
    length 0 and designates an empty slice. *)
Theorem only_the_target_movie_has_data movie_name bam mnames rds subs t m :
  let st := alignment_info_from_bam bam movie_name in
  Permutation mnames (movie_names st) ->
  Permutation rds (unrolled st) ->
  Permutation subs (datum st) ->
  _numpify mnames rds subs columns = Ok t ->
  In m (_movies t) ->
  (name m = movie_name ->
     reads t (Some m) = reads t None
     /\ subreads t (Some m) = subreads t None
     /\ rLen m = dict_len (unrolled st) /\ sLen m = dict_len (datum st))
  /\ (name m <> movie_name ->
        rLen m = 0%nat /\ sLen m = 0%nat
        /\ reads t (Some m) = [] /\ subreads t (Some m) = []).
Proof.
  intros st Pn Pr Ps B I.
  apply in_split in I; destruct I as (ms1 & ms2 & E).
  destruct (@slice_of_entry mnames rds subs columns t ms1 m ms2 B E)
    as (Sr & Ss & Lr & Ls & Inm).
  destruct (numpify_Ok_inv _ _ _ _ B) as (_ & Er & Es).
  assert (ND : NoDup mnames).
  { apply (Permutation_NoDup (Permutation_sym Pn)).
    apply (proj1 (movie_names_spec movie_name bam)). }
  pose proof (fun nm => @reads_of_target movie_name bam rds nm Pr) as Fr.
  pose proof (fun nm => @subreads_of_target movie_name bam subs nm Ps) as Fs.
  split.
  - intros En; rewrite En in *.
    assert (Wr : reads t None = reads_of rds movie_name).
    { simpl; rewrite Er; apply flat_map_single; [exact ND | exact Inm|].
      intros y _ Ny; rewrite Fr.
      apply String.eqb_neq in Ny; rewrite Ny; reflexivity. }
    assert (Ws : subreads t None = subreads_of subs movie_name).
    { simpl; rewrite Es; apply flat_map_single; [exact ND | exact Inm|].
      intros y _ Ny; rewrite Fs.
      apply String.eqb_neq in Ny; rewrite Ny; reflexivity. }
    split; [rewrite Sr, Wr; reflexivity|].
    split; [rewrite Ss, Ws; reflexivity|].
    rewrite Lr, Ls, Fr, Fs, String.eqb_refl, !length_map.
    unfold dict_len; split; apply Permutation_length; assumption.
  - intros Ne; apply String.eqb_neq in Ne.
    rewrite Sr, Ss, Lr, Ls, Fr, Fs, Ne; repeat split.
Qed.

Lemma only_the_target_movie_has_data_witness :
  exists t,
    _numpify (rev sample_names) sample_reads (rev sample_subreads) columns
    = Ok t
    /\ map name (_movies t) = ["m2"; "m1"]
    /\ forall m, In m (_movies t) ->
         (name m = "m1" -> reads t (Some m) = reads t None)
         /\ (name m <> "m1" -> sLen m = 0%nat).
Proof.
  assert (Pn : Permutation (rev sample_names) sample_names)
    by (apply Permutation_sym, Permutation_rev).
  assert (Pr : Permutation sample_reads sample_reads)
    by apply Permutation_refl.
  assert (Ps : Permutation (rev sample_subreads) sample_subreads)
    by (apply Permutation_sym, Permutation_rev).
  destruct (_numpify (rev sample_names) sample_reads (rev sample_subreads)
              columns) as [t|e] eqn:B; [|vm_compute in B; discriminate].
  exists t; split; [reflexivity|].
  split.
  - rewrite (proj1 (numpify_Ok_inv _ _ _ _ B)); reflexivity.
  - intros m I.
    destruct (@only_the_target_movie_has_data "m1" sample_bam _ _ _ t m
                Pn Pr Ps B I) as [H1 H2].
    split; [intros E; apply (H1 E) | intros N; apply (H2 N)].
Defined.

(** X11. When every record of the target movie has start <= end, every
    read length in a table built from the spans of the pass is
    non-negative. *)
Theorem read_lengths_are_not_negative movie_name bam mnames rds subs cols t x :
  (forall r, In r bam -> matching movie_name r = true ->
             aStart r <= aEnd r) ->
  Permutation rds (unrolled (alignment_info_from_bam bam movie_name)) ->
  _numpify mnames rds subs cols = Ok t ->
  In x (reads t None) ->
  0 <= x.
Proof.
  intros Hord P B I.
  destruct (numpify_Ok_inv _ _ _ _ B) as (_ & Er & _).
  simpl in I; rewrite Er in I; apply in_flat_map in I.
  destruct I as (nm & _ & I); apply reads_of_In in I.
  destruct I as (k & [s e] & Ik & _ & ->); simpl.
  assert (G : dict_get k (unrolled (alignment_info_from_bam bam movie_name))
              = Some (s, e)).
  { apply dict_In_get; [apply unrolled_wf|].
    apply (Permutation_in _ P); exact Ik. }
  pose proof (@unrolled_ordered movie_name bam Hord k s e G); lia.
Qed.

Lemma read_lengths_are_not_negative_witness :
  (forall r, In r sample_bam -> matching "m1" r = true -> aStart r <= aEnd r)
  /\ exists t,
       _numpify sample_names sample_reads sample_subreads columns = Ok t
       /\ reads t None = [160; 40]
       /\ forall x, In x (reads t None) -> 0 <= x.
Proof.
  assert (H : forall r, In r sample_bam -> matching "m1" r = true ->
                        aStart r <= aEnd r).
  { intros r I _; simpl in I.
    repeat (destruct I as [<-|I]; [simpl; lia|]); contradiction. }
  split; [exact H|].
  destruct (_numpify sample_names sample_reads sample_subreads columns)
    as [t|e] eqn:B; [|vm_compute in B; discriminate].
  exists t; split; [reflexivity|].
  split.
  - simpl; rewrite (proj1 (proj2 (numpify_Ok_inv _ _ _ _ B))); reflexivity.
  - intros x I.
    exact (@read_lengths_are_not_negative "m1" sample_bam _ _ _ _ t x H
             (Permutation_refl _) B I).
Defined.

(* ========================================================================= *)
(** * Further properties of the percentile helper *)

Section PercentileFacts.
Variable A : Type.
Variable leb : A -> A -> bool.
Let le (a b : A) : Prop := leb a b = true.

Lemma py_index_In (l : list A) (i : Z) (x : A) :
  py_index l i = Ok x -> In x l.
Proof.
  unfold py_index.
  destruct (_ || _); [discriminate|].
  destruct (nth_error l _) as [y|] eqn:G; [|discriminate].
  intros [= <-]; apply (nth_error_In _ _ G).
Qed.

Lemma getPct_In (p : float) (v : list A) (x : A) :
  _getPct leb p v = Ok x -> In x v.
Proof.
  unfold _getPct; intros G.
  apply (Permutation_in _ (Permutation_sym (np_sort_perm leb v))).
  destruct (index_ge_len _ _); [apply (py_index_In _ _ G)|].
  discriminate.
Qed.

Hypothesis leb_total : forall a b, leb a b = true \/ leb b a = true.
Hypothesis leb_trans :
  forall a b c, leb a b = true -> leb b c = true -> leb a c = true.


Lemma np_sort_strongly_sorted (v : list A) :
  StronglySorted le (np_sort leb v).
Proof.
  apply Sorted_StronglySorted; [|apply np_sort_sorted; exact leb_total].
  intros a b c; apply leb_trans.
Qed.


Hypothesis leb_antisym :
  forall a b, leb a b = true -> leb b a = true -> a = b.

Lemma strongly_sorted_unique (l1 l2 : list A) :
  StronglySorted le l1 -> StronglySorted le l2 -> Permutation l1 l2 ->
  l1 = l2.
Proof.
  intros S1; revert l2; induction S1 as [|a t1 St1 IH Ha]; intros l2 S2 P.
  - apply Permutation_nil in P; subst; reflexivity.
  - destruct l2 as [|b t2];
      [apply Permutation_sym, Permutation_nil in P; discriminate|].
    inversion S2 as [|? ? St2 Hb]; subst.
    rewrite Forall_forall in Ha, Hb.
    assert (E : a = b).
    { assert (Ib : In b (a :: t1))
        by (apply (Permutation_in _ (Permutation_sym P)); left; reflexivity).
      assert (Ia : In a (b :: t2))
        by (apply (Permutation_in _ P); left; reflexivity).
      destruct Ib as [E|Ib]; [exact E|].
      destruct Ia as [E|Ia]; [symmetry; exact E|].
      apply leb_antisym; [apply Ha; exact Ib | apply Hb; exact Ia]. }
    subst b; f_equal; apply IH; [exact St2|].
    apply (Permutation_cons_inv P).
Qed.

Lemma np_sort_perm_invariant (v v' : list A) :
  Permutation v v' -> np_sort leb v = np_sort leb v'.
Proof.
  intros P; apply strongly_sorted_unique;
    try apply np_sort_strongly_sorted.
  rewrite <- (np_sort_perm leb v), <- (np_sort_perm leb v'); exact P.
Qed.

End PercentileFacts.

(** X12. [_getPct] never invents a value: what it returns is an element of
    the input vector.  On the empty vector it therefore returns nothing: it
    raises, either the IndexError of [sorted_vector[-1]] or the IndexError
    of the float index. *)
Theorem percentile_is_an_input_element :
  (forall (A : Type) (leb : A -> A -> bool) (p : float) (v : list A) (x : A),
      _getPct leb p v = Ok x -> In x v)
  /\ (forall (A : Type) (leb : A -> A -> bool) (p : float),
        _getPct leb p [] = Raise IndexError_out_of_range
        \/ _getPct leb p [] = Raise IndexError_float_index).
Proof.
  split; [intros A leb p v x; apply getPct_In|].
  intros A leb p; unfold _getPct; simpl.
  destruct (index_ge_len _ _); [left; apply py_index_empty|].
  right; reflexivity.
Qed.

Lemma percentile_is_an_input_element_witness :
  _getPct Z.leb 100 [40; 10; 30; 20] = Ok 40
  /\ In 40 [40; 10; 30; 20]
  /\ _getPct Z.leb 30 [] = Raise IndexError_out_of_range.
Proof.
  assert (G : _getPct Z.leb 100 [40; 10; 30; 20] = Ok 40)
    by (vm_compute; reflexivity).
  split; [exact G|].
  split; [exact (proj1 percentile_is_an_input_element _ _ _ _ _ G)|].
  vm_compute; reflexivity.
Defined.



(** X14. For a total, transitive and antisymmetric order (the order of
    numbers), [_getPct] does not depend on the order of its input: two
    vectors with the same elements give the same result, error included. *)
Theorem percentile_ignores_input_order
    (A : Type) (leb : A -> A -> bool) (p : float) (v v' : list A) :
  (forall a b, leb a b = true \/ leb b a = true) ->
  (forall a b c, leb a b = true -> leb b c = true -> leb a c = true) ->
  (forall a b, leb a b = true -> leb b a = true -> a = b) ->
  Permutation v v' ->
  np_sort leb v = np_sort leb v' /\ _getPct leb p v = _getPct leb p v'.
Proof.
  intros Htot Htrans Hanti P.
  assert (E : np_sort leb v = np_sort leb v')
    by (apply np_sort_perm_invariant; assumption).
  split; [exact E|].
  unfold _getPct; rewrite E; reflexivity.
Qed.

Lemma percentile_ignores_input_order_witness :
  (forall a b, Z.leb a b = true \/ Z.leb b a = true)
  /\ (forall a b c, Z.leb a b = true -> Z.leb b c = true -> Z.leb a c = true)
  /\ (forall a b, Z.leb a b = true -> Z.leb b a = true -> a = b)
  /\ Permutation [40; 10; 30; 20] (rev [40; 10; 30; 20])
  /\ _getPct Z.leb 30 [40; 10; 30; 20]
     = _getPct Z.leb 30 (rev [40; 10; 30; 20]).
Proof.
  assert (T : forall a b, Z.leb a b = true \/ Z.leb b a = true)
    by (intros a b; rewrite !Z.leb_le; lia).
  assert (R : forall a b c, Z.leb a b = true -> Z.leb b c = true ->
                            Z.leb a c = true)
    by (intros a b c; rewrite !Z.leb_le; lia).
  assert (S : forall a b, Z.leb a b = true -> Z.leb b a = true -> a = b)
    by (intros a b; rewrite !Z.leb_le; lia).
  assert (P : Permutation [40; 10; 30; 20] (rev [40; 10; 30; 20]))
    by apply Permutation_rev.
  repeat (split; [assumption|]).
  exact (proj2 (@percentile_ignores_input_order Z Z.leb 30%float _ _
                  T R S P)).
Defined.

(* ========================================================================= *)
(** * Properties of pbreports.report.variants *)

Module VariantsFacts.
Import Variants.
Local Open Scope outcome_scope.

#[export] Instance string_key_ok : EqbKeyOk string.
Proof. intros a b; apply String.eqb_eq. Qed.

(* ------------------------------------------------------------------------- *)
(** ** [_validate_inputs] *)

(** X15. [_validate_inputs] returns normally exactly when every input has
    a value whose path exists.  Otherwise it raises for the first input that
    fails: PbReportError naming the input when its value is None, IOError
    naming the path when the path does not exist. *)
Theorem validate_inputs_reports_the_first_failure
    (path_exists : string -> bool) (files : list (string * option string)) :
  (_validate_inputs path_exists files = Return tt
   <-> Forall (input_ok path_exists) files)
  /\ (forall e,
        _validate_inputs path_exists files = Throw e ->
        exists pre f post,
          files = pre ++ f :: post
          /\ Forall (input_ok path_exists) pre
          /\ ((snd f = None
               /\ e = PbReportError (fst f ++ " cannot be None"))
              \/ (exists path,
                    snd f = Some path /\ path_exists path = false
                    /\ e = IOError (path ++ " does not exist")))).
Proof.
  induction files as [|[n v] rest [IH1 IH2]]; simpl.
  - split; [split; [constructor | reflexivity] | discriminate].
  - destruct v as [path|].
    + destruct (path_exists path) eqn:E.
      * split.
        -- rewrite IH1; split.
           ++ intros F; constructor; [exists path; auto | exact F].
           ++ intros F; inversion F; assumption.
        -- intros e T.
           destruct (IH2 e T) as (pre & f & post & -> & F & H).
           exists ((n, Some path) :: pre), f, post.
           split; [reflexivity|]; split; [|exact H].
           constructor; [exists path; auto | exact F].
      * split.
        -- split; [discriminate|].
           intros F; inversion F as [|? ? (p & Ep & Hp) _]; subst.
           simpl in Ep; inversion Ep; subst; congruence.
        -- intros e [= <-].
           exists [], (n, Some path), rest.
           split; [reflexivity|]; split; [constructor|].
           right; exists path; auto.
    + split.
      * split; [discriminate|].
        intros F; inversion F as [|? ? (p & Ep & _) _]; discriminate.
      * intros e [= <-].
        exists [], (n, None), rest.
        split; [reflexivity|]; split; [constructor|].
        left; auto.
Qed.

(* ------------------------------------------------------------------------- *)
(** ** [_ref_ids_ordered_by_len] *)

Lemma insert_desc_perm (x : string * Z) (l : list (string * Z)) :
  Permutation (x :: l) (insert_desc x l).
Proof.
  induction l as [|y t IH]; simpl; [reflexivity|].
  destruct (snd y <=? snd x); [reflexivity|].
  rewrite perm_swap; apply perm_skip; exact IH.
Qed.

Lemma sorted_desc_perm (l : list (string * Z)) :
  Permutation l (sorted_desc l).
Proof.
  induction l as [|x t IH]; simpl; [constructor|].
  rewrite <- insert_desc_perm; apply perm_skip; exact IH.
Qed.

Lemma insert_desc_sorted (x : string * Z) (l : list (string * Z)) :
  StronglySorted (fun a b => snd b <= snd a) l ->
  StronglySorted (fun a b => snd b <= snd a) (insert_desc x l).
Proof.
  induction 1 as [|y t St IH Hy]; simpl.
  - constructor; constructor.
  - destruct (snd y <=? snd x) eqn:E.
    + apply Z.leb_le in E.
      constructor; [constructor; assumption|].
      constructor; [exact E|].
      rewrite Forall_forall in Hy |- *; intros z I.
      specialize (Hy z I); lia.
    + apply Z.leb_gt in E.
      constructor; [exact IH|].
      rewrite Forall_forall in Hy |- *; intros z I.
      apply (Permutation_in _ (Permutation_sym (insert_desc_perm x t))) in I.
      destruct I as [<-|I]; [lia | apply Hy; exact I].
Qed.

Lemma sorted_desc_sorted (l : list (string * Z)) :
  StronglySorted (fun a b => snd b <= snd a) (sorted_desc l).
Proof.
  induction l as [|x t IH]; simpl; [constructor|].
  apply insert_desc_sorted; exact IH.
Qed.

Lemma insert_desc_stable (z : Z) (x : string * Z) (l : list (string * Z)) :
  filter (fun t => snd t =? z) (insert_desc x l)
  = filter (fun t => snd t =? z) (x :: l).
Proof.
  induction l as [|y t IH]; simpl; [reflexivity|].
  destruct (snd y <=? snd x) eqn:E; [reflexivity|].
  apply Z.leb_gt in E; simpl in IH |- *; rewrite IH.
  destruct (snd x =? z) eqn:Ex; [|reflexivity].
  apply Z.eqb_eq in Ex.
  assert (Ey : (snd y =? z) = false) by (apply Z.eqb_neq; lia).
  rewrite Ey; reflexivity.
Qed.

Lemma sorted_desc_stable (z : Z) (l : list (string * Z)) :
  filter (fun t => snd t =? z) (sorted_desc l)
  = filter (fun t => snd t =? z) l.
Proof.
  induction l as [|x t IH]; simpl; [reflexivity|].
  rewrite insert_desc_stable; simpl; rewrite IH; reflexivity.
Qed.

(** X16. [_ref_ids_ordered_by_len] returns every contig id of [ref_data]
    once, by non-increasing length; contigs of equal length keep the order
    in which the dictionary lists them; so the first id has the greatest
    length, and it is the first such contig of the dictionary. *)
Theorem ref_ids_are_ordered_by_length (ref_data : dict string ref_row) :
  let tuples := map (fun kv => (fst kv, LENGTH (snd kv))) ref_data in
  (exists ordered,
      _ref_ids_ordered_by_len ref_data = map fst ordered
      /\ Permutation ordered tuples
      /\ StronglySorted (fun a b => snd b <= snd a) ordered
      /\ forall z, filter (fun t => snd t =? z) ordered
                   = filter (fun t => snd t =? z) tuples)
  /\ Permutation (_ref_ids_ordered_by_len ref_data) (map fst ref_data)
  /\ (forall first rest,
        _ref_ids_ordered_by_len ref_data = first :: rest ->
        exists row0,
          In (first, row0) ref_data
          /\ (forall k row, In (k, row) ref_data ->
                            LENGTH row <= LENGTH row0)
          /\ hd_error (filter (fun kv => LENGTH (snd kv) =? LENGTH row0)
                         ref_data)
             = Some (first, row0)).
Proof.
  intros tuples.
  pose proof (sorted_desc_perm tuples) as P.
  pose proof (sorted_desc_sorted tuples) as S.
  pose proof (fun z => sorted_desc_stable z tuples) as Stab.
  assert (Ids : _ref_ids_ordered_by_len ref_data
                = map fst (sorted_desc tuples)) by reflexivity.
  split; [exists (sorted_desc tuples); repeat split;
          [apply Permutation_sym; exact P | exact S | exact Stab]|].
  split.
  { rewrite Ids.
    replace (map fst ref_data) with (map fst tuples)
      by (unfold tuples; rewrite map_map; reflexivity).
    apply Permutation_map, Permutation_sym; exact P. }
  intros first rest E; rewrite Ids in E.
  destruct (sorted_desc tuples) as [|[k0 z0] ord] eqn:So; [discriminate|].
  simpl in E; inversion E; subst first rest; clear E.
  inversion S as [|? ? Sord Hmax]; subst.
  rewrite Forall_forall in Hmax.
  assert (Max : forall t, In t tuples -> snd t <= z0).
  { intros t I; apply (Permutation_in _ P) in I.
    destruct I as [<-|I]; [simpl; lia | apply (Hmax t I)]. }
  specialize (Stab z0); simpl in Stab; rewrite Z.eqb_refl in Stab.
  assert (Hd : hd_error (filter (fun t => snd t =? z0) tuples)
               = Some (k0, z0)) by (rewrite <- Stab; reflexivity).
  assert (Conv : forall d : dict string ref_row,
             filter (fun t => snd t =? z0)
               (map (fun kv => (fst kv, LENGTH (snd kv))) d)
             = map (fun kv => (fst kv, LENGTH (snd kv)))
                 (filter (fun kv => LENGTH (snd kv) =? z0) d)).
  { induction d as [|kv d IHd]; simpl; [reflexivity|].
    destruct (LENGTH (snd kv) =? z0); simpl; rewrite IHd; reflexivity. }
  unfold tuples in Hd; rewrite Conv in Hd.
  destruct (filter (fun kv => LENGTH (snd kv) =? z0) ref_data)
    as [|[k1 row1] more] eqn:F; [discriminate|].
  simpl in Hd; injection Hd as Ek Ez; subst k1.
  assert (I1 : In (k0, row1)
                 (filter (fun kv => LENGTH (snd kv) =? z0) ref_data))
    by (rewrite F; left; reflexivity).
  apply filter_In in I1; destruct I1 as [I1 _].
  exists row1; split; [exact I1|].
  split.
  - intros k row I.
    assert (It : In (k, LENGTH row) tuples).
    { unfold tuples; apply in_map_iff; exists (k, row); auto. }
    apply Max in It; simpl in It; lia.
  - rewrite Ez, F; reflexivity.
Qed.

(* ------------------------------------------------------------------------- *)
(** ** [_append_variants_gff_data] *)

Lemma add_err_0 (row : ref_row) : add_err 0 row = row.
Proof. destruct row; unfold add_err; simpl; f_equal; lia. Qed.

Lemma add_err_add (a b : Z) (row : ref_row) :
  add_err a (add_err b row) = add_err (b + a) row.
Proof. unfold add_err; simpl; f_equal; lia. Qed.

Lemma dict_mem_adjust {V : Type} (k k' : string) (f : V -> V)
    (d : dict string V) :
  dict_mem k' (dict_adjust k f d) = dict_mem k' d.
Proof. rewrite !dict_mem_existsb, dict_keys_adjust; reflexivity. Qed.

Lemma of_contig_token (rec : Gff3Record.t) (tok k : string) :
  first_token (Gff3Record.seqid rec) = Return tok ->
  of_contig k rec = String.eqb tok k.
Proof. unfold of_contig; intros ->; reflexivity. Qed.

Lemma unknown_contig_token (ref_data : dict string ref_row)
    (rec : Gff3Record.t) (tok : string) :
  first_token (Gff3Record.seqid rec) = Return tok ->
  unknown_contig ref_data rec = negb (dict_mem tok ref_data).
Proof.
  intros T; unfold unknown_contig; rewrite dict_mem_existsb; f_equal.
  induction (map fst ref_data) as [|k t IH]; simpl; [reflexivity|].
  rewrite (of_contig_token _ k T), IH; reflexivity.
Qed.

Lemma unknown_contig_adjust (ref_data : dict string ref_row) (k : string)
    (f : ref_row -> ref_row) (rec : Gff3Record.t) :
  unknown_contig (dict_adjust k f ref_data) rec
  = unknown_contig ref_data rec.
Proof. unfold unknown_contig; rewrite dict_keys_adjust; reflexivity. Qed.

(** X17. [_append_variants_gff_data] never adds or removes a contig of
    [ref_data] and changes only the error count: each contig's ERR grows by
    the total number of positions (end - start + 1) of the variant records
    whose seqid starts with that contig's id.  A record of an unknown
    contig only adds one warning.  The loop raises IndexError at the first
    record whose seqid has no token; what the records before it did
    remains. *)
Theorem append_variants_adds_error_lengths (variants_gff : string)
    (ref_data : dict string ref_row) (log : list string)
    (reader : list Gff3Record.t) :
  let r := _append_variants_gff_data variants_gff ref_data log reader in
  let ref_data' := fst (fst r) in
  let done := readable reader in
  map fst ref_data' = map fst ref_data
  /\ (forall k,
        dict_get k ref_data'
        = option_map
            (add_err (sum_Z (map span_width (filter (of_contig k) done))))
            (dict_get k ref_data))
  /\ (exists warnings,
        snd (fst r) = log ++ warnings
        /\ List.length warnings
           = List.length (filter (unknown_contig ref_data) done))
  /\ (snd r = Return tt <-> done = reader)
  /\ (snd r = Return tt \/ snd r = Throw IndexError).
Proof.
  revert ref_data log; induction reader as [|rec rest IH];
    intros ref_data log; simpl.
  - split; [reflexivity|].
    split; [intros k; destruct (dict_get k ref_data) as [row|]; simpl;
            [rewrite add_err_0|]; reflexivity|].
    split; [exists []; split; [symmetry; apply app_nil_r | reflexivity]|].
    split; [split; reflexivity | left; reflexivity].
  - destruct (first_token (Gff3Record.seqid rec)) as [tok|e] eqn:T.
    + destruct (dict_mem tok ref_data) eqn:M.
      * specialize (IH (dict_adjust tok
                          (add_err (Gff3Record.end_ rec
                                    - Gff3Record.start rec + 1)) ref_data)
                      log).
        simpl in IH; destruct IH as (K & G & (w & Lw & Cw) & O1 & O2).
        split; [rewrite K; apply dict_keys_adjust|].
        split.
        { intros k; rewrite G; simpl.
          rewrite (of_contig_token _ k T).
          destruct (String.eqb tok k) eqn:E.
          - apply String.eqb_eq in E; subst k.
            rewrite dict_get_adjust_eq.
            destruct (dict_get tok ref_data) as [row|]; simpl; [|reflexivity].
            rewrite add_err_add; reflexivity.
          - apply String.eqb_neq in E.
            rewrite dict_get_adjust_neq by exact E; reflexivity. }
        split.
        { exists w; split; [exact Lw|].
          rewrite Cw; simpl.
          rewrite (unknown_contig_token _ _ T), M; simpl.
          f_equal; apply filter_ext; intros x.
          apply unknown_contig_adjust. }
        split; [|exact O2].
        rewrite O1; split; [intros ->; reflexivity|].
        intros E; inversion E as [E']; rewrite E'; exact E'.
      * specialize (IH ref_data
                      (log ++ [("Unable to find " ++ tok ++ " in "
                                ++ variants_gff)%string])).
        simpl in IH; destruct IH as (K & G & (w & Lw & Cw) & O1 & O2).
        split; [exact K|].
        split.
        { intros k; rewrite G; simpl.
          rewrite (of_contig_token _ k T).
          destruct (String.eqb tok k) eqn:E; [|reflexivity].
          apply String.eqb_eq in E; subst k.
          unfold dict_mem in M.
          destruct (dict_get tok ref_data); [discriminate | reflexivity]. }
        split.
        { eexists; split; [rewrite Lw, <- app_assoc; reflexivity|].
          simpl; rewrite (unknown_contig_token _ _ T), M; simpl.
          rewrite Cw; reflexivity. }
        split; [|exact O2].
        rewrite O1; split; [intros ->; reflexivity|].
        intros E; inversion E as [E']; rewrite E'; exact E'.
    + simpl.
      assert (Ee : e = IndexError).
      { unfold first_token in T.
        destruct (split_ws (Gff3Record.seqid rec)); congruence. }
      subst e.
      split; [reflexivity|].
      split; [intros k; destruct (dict_get k ref_data) as [row|]; simpl;
              [rewrite add_err_0|]; reflexivity|].
      split; [exists []; split; [symmetry; apply app_nil_r | reflexivity]|].
      split; [split; discriminate | right; reflexivity].
Qed.

(* ------------------------------------------------------------------------- *)
(** ** [_extract_alignment_summ_data] *)

Lemma float_sum_snoc (l : list float) (x : float) :
  float_sum (l ++ [x]) = PrimFloat.add (float_sum l) x.
Proof. unfold float_sum; rewrite fold_left_app; reflexivity. Qed.

Section ExtractFacts.
Variable py_int : string -> option Z.
Variable py_float : string -> option float.
Variable md5_hexdigest : string -> string.
Variable contigs : list Contig.t.

Local Abbreviation step :=
  (extract_record py_int py_float md5_hexdigest contigs).
Local Abbreviation loop :=
  (extract_loop py_int py_float md5_hexdigest contigs).

(** What a record that is processed without an error does. *)
Lemma extract_record_Return rd vm rec rd' vm' :
  step (rd, vm) rec = Return (rd', vm') ->
  exists tok,
    first_token (Gff3Record.seqid rec) = Return tok
    /\ ((listed contigs tok = false /\ rd' = rd /\ vm' = vm)
        \/ (listed contigs tok = true
            /\ exists i d s,
                 rd' = dict_adjust tok (add_cov (cov_of py_float rec))
                         (dict_adjust tok (add_gaps (gaps_of py_int rec))
                            (dict_adjust tok
                               (set_length (Gff3Record.end_ rec))
                               (dict_setdefault tok ref_row_init rd)))
                 /\ vm'
                    = dict_set tok
                        (let cv :=
                           match dict_get tok vm with
                           | Some cv => cv
                           | None =>
                               ContigVariants_init md5_hexdigest tok
                                 (_get_name contigs tok)
                           end in
                         {| ContigVariants.seqid := ContigVariants.seqid cv;
                            ContigVariants.name := ContigVariants.name cv;
                            ContigVariants.variants :=
                              ContigVariants.variants cv
                              ++ [(Gff3Record.start rec, i, d, s)];
                            ContigVariants.file_name :=
                              ContigVariants.file_name cv |})
                        vm)).
Proof.
  unfold extract_record; intros H.
  destruct (first_token (Gff3Record.seqid rec)) as [tok|e] eqn:T;
    simpl in H; [|discriminate].
  exists tok; split; [reflexivity|].
  fold (listed contigs tok) in H.
  destruct (listed contigs tok) eqn:L; simpl in H.
  - right; split; [reflexivity|].
    destruct (getitem (Gff3Record.attributes rec) "gaps") as [sg|] eqn:Eg;
      simpl in H; [|discriminate].
    destruct (unpack2 (split_on comma sg)) as [[a b]|] eqn:Eu;
      simpl in H; [|discriminate].
    destruct (parse py_int b) as [n|] eqn:En; simpl in H; [|discriminate].
    destruct (getitem (Gff3Record.attributes rec) "cov2") as [sc|] eqn:Ec;
      simpl in H; [|discriminate].
    destruct (parse py_float (hd ""%string (split_on comma sc))) as [c|]
      eqn:Ef; simpl in H; [|discriminate].
    destruct (float_of_Z (Gff3Record.end_ rec - Gff3Record.start rec + 1))
      as [w|] eqn:Ew; simpl in H; [|discriminate].
    unfold add_data in H.
    destruct (getitem (Gff3Record.attributes rec) "ins") as [si|] eqn:Ei;
      simpl in H; [|discriminate].
    destruct (parse py_int si) as [i|] eqn:Epi; simpl in H; [|discriminate].
    destruct (getitem (Gff3Record.attributes rec) "del") as [sd|] eqn:Ed;
      simpl in H; [|discriminate].
    destruct (parse py_int sd) as [d|] eqn:Epd; simpl in H; [|discriminate].
    destruct (getitem (Gff3Record.attributes rec) "sub") as [ss|] eqn:Es;
      simpl in H; [|discriminate].
    destruct (parse py_int ss) as [s|] eqn:Eps; simpl in H; [|discriminate].
    inversion H; subst rd' vm'; clear H.
    exists i, d, s.
    assert (C : cov_of py_float rec = PrimFloat.mul c w).
    { unfold cov_of; unfold getitem in Ec.
      destruct (dict_get "cov2"%string (Gff3Record.attributes rec));
        [|discriminate].
      inversion Ec; subst sc; unfold parse in Ef.
      destruct (py_float (hd ""%string (split_on comma s0)));
        [|discriminate].
      inversion Ef; subst c; rewrite Ew; reflexivity. }
    assert (G : gaps_of py_int rec = n).
    { unfold gaps_of; unfold getitem in Eg.
      destruct (dict_get "gaps"%string (Gff3Record.attributes rec));
        [|discriminate].
      inversion Eg; subst sg; unfold unpack2 in Eu.
      destruct (split_on comma s0) as [|p1 [|p2 [|p3 ps]]]; try discriminate.
      inversion Eu; subst a b; unfold parse in En.
      destruct (py_int p2); [inversion En; reflexivity | discriminate]. }
    rewrite G, C; split; reflexivity.
  - left; inversion H; auto.
Qed.

Lemma extract_loop_app st recs1 recs2 :
  loop st (recs1 ++ recs2)
  = (st1 <- loop st recs1 ;; loop st1 recs2).
Proof.
  revert st; induction recs1 as [|rec t IH]; intros st; simpl;
    [reflexivity|].
  destruct (step st rec) as [st'|e]; simpl; [apply IH | reflexivity].
Qed.

Lemma extract_loop_snoc st recs rec st' :
  loop st (recs ++ [rec]) = Return st' ->
  exists st1, loop st recs = Return st1 /\ step st1 rec = Return st'.
Proof.
  rewrite extract_loop_app; intros H.
  destruct (loop st recs) as [st1|e]; simpl in H; [|discriminate].
  exists st1; split; [reflexivity|].
  destruct (step st1 rec) as [st2|e]; simpl in H; [exact H | discriminate].
Qed.

Lemma max_end_snoc (recs : list Gff3Record.t) (rec : Gff3Record.t) :
  max_end (recs ++ [rec]) = Z.max (Gff3Record.end_ rec) (max_end recs).
Proof.
  unfold max_end; rewrite map_app; simpl.
  induction (map Gff3Record.end_ recs) as [|e t IH]; simpl; lia.
Qed.

Lemma sum_Z_snoc (l : list Z) (x : Z) : sum_Z (l ++ [x]) = sum_Z l + x.
Proof. unfold sum_Z; induction l as [|y t IH]; simpl; lia. Qed.

Lemma filter_snoc {A : Type} (f : A -> bool) (l : list A) (x : A) :
  filter f (l ++ [x]) = filter f l ++ (if f x then [x] else []).
Proof. rewrite filter_app; simpl; destruct (f x); reflexivity. Qed.

Lemma filter_none {A : Type} (f : A -> bool) (l : list A) :
  (forall x, In x l -> f x = false) -> filter f l = [].
Proof.
  induction l as [|x t IH]; simpl; intros H; [reflexivity|].
  rewrite (H x) by (left; reflexivity).
  apply IH; intros y I; apply H; right; exact I.
Qed.

(** What the two dictionaries hold after the records [recs]. *)
Local Abbreviation summary :=
  (summary_of py_int py_float md5_hexdigest contigs).

Lemma summary_of_step recs rd vm rec rd' vm' :
  summary recs rd vm ->
  step (rd, vm) rec = Return (rd', vm') ->
  summary (recs ++ [rec]) rd' vm'.
Proof.
  intros (I1 & I2 & I3 & I4) H.
  destruct (extract_record_Return _ _ _ H) as (tok & T & [U|L]).
  - destruct U as (Lf & -> & ->).
    assert (Other : forall k, listed contigs k = true ->
                      of_contig k rec = false).
    { intros k Lk; rewrite (of_contig_token _ k T).
      apply String.eqb_neq; intros <-; congruence. }
    assert (Same : forall k, In k (map fst rd) ->
                     filter (of_contig k) (recs ++ [rec])
                     = filter (of_contig k) recs).
    { intros k Ik; rewrite filter_snoc, (Other k (proj1 (proj1 (I2 k) Ik))).
      apply app_nil_r. }
    split; [exact I1|].
    split.
    { intros k; rewrite I2; split.
      - intros (Lk & r & Ir & Hr); split; [exact Lk|].
        exists r; split; [apply in_or_app; left; exact Ir | exact Hr].
      - intros (Lk & r & Ir & Hr); split; [exact Lk|].
        apply in_app_or in Ir; destruct Ir as [Ir|[<-|[]]];
          [exists r; auto | rewrite (Other k Lk) in Hr; discriminate]. }
    split.
    { intros k row G.
      rewrite Same; [apply I3; exact G|].
      apply dict_get_present; congruence. }
    intros k cv G.
    rewrite Same; [apply I4; exact G|].
    rewrite I1; apply dict_get_present; congruence.
  - destruct L as (Lt & i & d & s & -> & ->).
    assert (Mem : dict_mem tok vm = dict_mem tok rd)
      by (rewrite !dict_mem_existsb, I1; reflexivity).
    assert (Keys : map fst
                     (dict_adjust tok (add_cov (cov_of py_float rec))
                        (dict_adjust tok (add_gaps (gaps_of py_int rec))
                           (dict_adjust tok
                              (set_length (Gff3Record.end_ rec))
                              (dict_setdefault tok ref_row_init rd))))
                   = if dict_mem tok rd then map fst rd
                     else map fst rd ++ [tok]).
    { rewrite !dict_keys_adjust; unfold dict_setdefault.
      destruct (dict_mem tok rd) eqn:M; [reflexivity|].
      rewrite dict_keys_set, M; reflexivity. }
    assert (Here : of_contig tok rec = true)
      by (rewrite (of_contig_token _ tok T); apply String.eqb_refl).
    assert (Fresh : dict_mem tok rd = false ->
                    filter (of_contig tok) recs = []).
    { intros M; apply filter_none; intros r Ir.
      destruct (of_contig tok r) eqn:O; [|reflexivity].
      exfalso.
      assert (Ik : In tok (map fst rd))
        by (apply I2; split; [exact Lt | exists r; auto]).
      apply dict_get_present in Ik; unfold dict_mem in M.
      destruct (dict_get tok rd); [discriminate | congruence]. }
    split; [rewrite Keys, dict_keys_set, Mem, I1; reflexivity|].
    split.
    { intros k; rewrite Keys; split.
      - intros Ik.
        assert (Ik' : In k (map fst rd) \/ k = tok).
        { destruct (dict_mem tok rd); [left; exact Ik|].
          apply in_app_or in Ik; destruct Ik as [Ik|[<-|[]]]; auto. }
        destruct Ik' as [Ik'| ->].
        + apply I2 in Ik'; destruct Ik' as (Lk & r & Ir & Hr).
          split; [exact Lk|]; exists r; split; [|exact Hr].
          apply in_or_app; left; exact Ir.
        + split; [exact Lt|]; exists rec; split; [|exact Here].
          apply in_or_app; right; left; reflexivity.
      - intros (Lk & r & Ir & Hr).
        apply in_app_or in Ir; destruct Ir as [Ir|[<-|[]]].
        + assert (Ik : In k (map fst rd))
            by (apply I2; split; [exact Lk | exists r; auto]).
          destruct (dict_mem tok rd); [exact Ik|].
          apply in_or_app; left; exact Ik.
        + rewrite (of_contig_token _ k T) in Hr.
          apply String.eqb_eq in Hr; subst k.
          destruct (dict_mem tok rd) eqn:M.
          * apply dict_get_present; unfold dict_mem in M.
            destruct (dict_get tok rd); [discriminate | discriminate].
          * apply in_or_app; right; left; reflexivity. }
    split.
    { intros k row.
      destruct (keqb_dec tok k) as [<-|N].
      - rewrite !dict_get_adjust_eq, dict_get_setdefault_eq; simpl.
        intros [= <-]; simpl.
        rewrite filter_snoc, Here, !map_app, max_end_snoc; simpl.
        rewrite sum_Z_snoc, float_sum_snoc.
        destruct (dict_get tok rd) as [row0|] eqn:G.
        + destruct (I3 _ _ G) as (A1 & A2 & A3 & A4).
          rewrite A1, A2, A3, A4; repeat split.
        + assert (M : dict_mem tok rd = false)
            by (unfold dict_mem; rewrite G; reflexivity).
          rewrite (Fresh M); simpl; repeat split.
      - rewrite !dict_get_adjust_neq, dict_get_setdefault_neq by exact N.
        intros G; rewrite filter_snoc, (of_contig_token _ k T).
        assert (E : String.eqb tok k = false)
          by (apply String.eqb_neq; exact N).
        rewrite E, app_nil_r; apply I3; exact G. }
    intros k cv.
    destruct (keqb_dec tok k) as [<-|N].
    + rewrite dict_get_set_eq; intros [= <-]; simpl.
      rewrite filter_snoc, Here, map_app; simpl.
      destruct (dict_get tok vm) as [cv0|] eqn:G.
      * destruct (I4 _ _ G) as (B1 & B2 & B3 & B4).
        rewrite map_app, B1; simpl; repeat split; assumption.
      * assert (M : dict_mem tok rd = false)
          by (rewrite <- Mem; unfold dict_mem; rewrite G; reflexivity).
        rewrite (Fresh M); simpl; repeat split.
    + rewrite dict_get_set_neq by exact N.
      intros G; rewrite filter_snoc, (of_contig_token _ k T).
      assert (E : String.eqb tok k = false)
        by (apply String.eqb_neq; exact N).
      rewrite E, app_nil_r; apply I4; exact G.
Qed.

Lemma summary_of_loop recs rd vm :
  loop ([], []) recs = Return (rd, vm) -> summary recs rd vm.
Proof.
  revert rd vm; induction recs as [|rec recs IH] using rev_ind;
    intros rd vm H.
  - simpl in H; inversion H; subst.
    split; [reflexivity|].
    split; [intros k; split; [intros [] | intros (_ & r & [] & _)]|].
    split; intros k v; discriminate.
  - apply extract_loop_snoc in H; destruct H as ([rd1 vm1] & H1 & H2).
    apply (@summary_of_step recs rd1 vm1 rec rd vm (IH _ _ H1) H2).
Qed.

End ExtractFacts.

(** X18. When [_extract_alignment_summ_data] returns, both dictionaries
    have the same keys: the ids of the listed contigs that occur as the
    first token of the seqid of some record.  For each of them, LENGTH is
    the greatest end of its records (never below 0), GAPS is the sum of the
    gap lengths its records announce, ERR is still 0 and COV is the sum,
    taken in the order of the file, of the coverages its records add; its
    [ContigVariants] has one variants row per record, in the order of the
    file and with the record's start, carries the name of the first contig
    with that id, and its file name is built from the md5 digest of the
    id. *)
Theorem extract_summarises_each_listed_contig
    (py_int : string -> option Z) (py_float : string -> option float)
    (md5_hexdigest : string -> string)
    (reader : list Gff3Record.t) (contigs : list Contig.t)
    (rd : dict string ref_row) (vm : dict string ContigVariants.t) :
  _extract_alignment_summ_data py_int py_float md5_hexdigest reader contigs
  = Return (rd, vm) ->
  map fst rd = map fst vm
  /\ (forall k, In k (map fst rd)
                <-> listed contigs k = true
                    /\ exists rec, In rec reader /\ of_contig k rec = true)
  /\ (forall k row, dict_get k rd = Some row ->
        LENGTH row = max_end (filter (of_contig k) reader)
        /\ 0 <= LENGTH row
        /\ GAPS row
           = sum_Z (map (gaps_of py_int) (filter (of_contig k) reader))
        /\ ERR row = 0
        /\ COV row
           = float_sum (map (cov_of py_float) (filter (of_contig k) reader)))
  /\ (forall k cv, dict_get k vm = Some cv ->
        map (fun v => fst (fst (fst v))) (ContigVariants.variants cv)
        = map Gff3Record.start (filter (of_contig k) reader)
        /\ ContigVariants.seqid cv = k
        /\ ContigVariants.name cv
           = match _get_name contigs k with Some n => n | None => k end
        /\ ContigVariants.file_name cv
           = ("variants_plot_" ++ md5_hexdigest k ++ ".png")%string).
Proof.
  intros H.
  destruct (summary_of_loop py_int py_float md5_hexdigest contigs reader H)
    as (I1 & I2 & I3 & I4).
  split; [exact I1|]; split; [exact I2|]; split; [|exact I4].
  intros k row G; destruct (I3 k row G) as (A1 & A2 & A3 & A4).
  split; [exact A1|]; split; [|repeat split; assumption].
  rewrite A1; unfold max_end.
  induction (map Gff3Record.end_ (filter (of_contig k) reader))
    as [|e t IH]; simpl; lia.
Qed.

Lemma extract_summarises_each_listed_contig_witness :
  exists rd vm,
    _extract_alignment_summ_data sample_int sample_float (fun s => s)
      sample_summary sample_contigs = Return (rd, vm)
    /\ map fst rd = ["ctgA"; "ctgB"]%string
    /\ forall k row, dict_get k rd = Some row ->
         LENGTH row = max_end (filter (of_contig k) sample_summary)
         /\ 0 <= LENGTH row
         /\ GAPS row
            = sum_Z (map (gaps_of sample_int)
                       (filter (of_contig k) sample_summary))
         /\ ERR row = 0
         /\ COV row
            = float_sum (map (cov_of sample_float)
                           (filter (of_contig k) sample_summary)).
Proof.
  destruct (_extract_alignment_summ_data sample_int sample_float
              (fun s => s) sample_summary sample_contigs)
    as [[rd vm]|e] eqn:H; [|vm_compute in H; discriminate].
  exists rd, vm; split; [reflexivity|].
  split; [vm_compute in H; inversion H; reflexivity|].
  exact (proj1 (proj2 (proj2
           (extract_summarises_each_listed_contig _ _ _ _ _ H)))).
Defined.

Section IgnoreUnlisted.
Variable py_int : string -> option Z.
Variable py_float : string -> option float.
Variable md5_hexdigest : string -> string.
Variable contigs : list Contig.t.

Lemma extract_record_unlisted st rec :
  has_token rec -> listed_record contigs rec = false ->
  extract_record py_int py_float md5_hexdigest contigs st rec = Return st.
Proof.
  intros (tok & T) L; unfold listed_record in L; rewrite T in L.
  unfold extract_record; destruct st as [rd vm]; rewrite T; simpl.
  fold (listed contigs tok); rewrite L; reflexivity.
Qed.

Lemma extract_loop_ignores_unlisted st reader :
  Forall has_token reader ->
  extract_loop py_int py_float md5_hexdigest contigs st reader
  = extract_loop py_int py_float md5_hexdigest contigs st
      (filter (listed_record contigs) reader).
Proof.
  intros F; revert st; induction F as [|rec rest Hr F IH]; intros st;
    simpl; [reflexivity|].
  destruct (listed_record contigs rec) eqn:L; simpl.
  - destruct (extract_record _ _ _ _ st rec); simpl; [apply IH|reflexivity].
  - rewrite extract_record_unlisted by assumption; simpl; apply IH.
Qed.

End IgnoreUnlisted.

(** X19. Records of contigs that are not listed are skipped before any of
    their attributes is read: when every seqid has a token, the function
    returns (or raises) what it does on the records of the listed contigs
    alone, whatever the other records contain. *)
Theorem unlisted_contigs_are_skipped
    (py_int : string -> option Z) (py_float : string -> option float)
    (md5_hexdigest : string -> string)
    (reader : list Gff3Record.t) (contigs : list Contig.t) :
  Forall has_token reader ->
  _extract_alignment_summ_data py_int py_float md5_hexdigest reader contigs
  = _extract_alignment_summ_data py_int py_float md5_hexdigest
      (filter (listed_record contigs) reader) contigs.
Proof.
  intros F; unfold _extract_alignment_summ_data.
  apply extract_loop_ignores_unlisted; exact F.
Qed.

Lemma unlisted_contigs_are_skipped_witness :
  Forall has_token sample_summary
  /\ List.length (filter (listed_record sample_contigs) sample_summary)
     = 3%nat
  /\ _extract_alignment_summ_data sample_int sample_float (fun s => s)
       sample_summary sample_contigs
     = _extract_alignment_summ_data sample_int sample_float (fun s => s)
         (filter (listed_record sample_contigs) sample_summary)
         sample_contigs.
Proof.
  assert (F : Forall has_token sample_summary).
  { repeat constructor; eexists; vm_compute; reflexivity. }
  split; [exact F|]; split; [reflexivity|].
  exact (unlisted_contigs_are_skipped sample_int sample_float (fun s => s)
           sample_contigs F).
Defined.

(* ------------------------------------------------------------------------- *)
(** ** The two files together *)

Lemma append_variants_get (variants_gff : string)
    (ref_data : dict string ref_row) (log : list string)
    (reader : list Gff3Record.t) (k : string) :
  dict_get k
    (fst (fst (_append_variants_gff_data variants_gff ref_data log reader)))
  = option_map
      (add_err (sum_Z (map span_width
                         (filter (of_contig k) (readable reader)))))
      (dict_get k ref_data).
Proof.
  revert ref_data log; induction reader as [|rec rest IH];
    intros ref_data log; simpl.
  - destruct (dict_get k ref_data) as [row|]; simpl;
      [rewrite add_err_0|]; reflexivity.
  - destruct (first_token (Gff3Record.seqid rec)) as [tok|e] eqn:T; simpl.
    + rewrite (of_contig_token _ k T).
      destruct (dict_mem tok ref_data) eqn:M; rewrite IH.
      * destruct (String.eqb tok k) eqn:E; simpl.
        -- apply String.eqb_eq in E; subst k.
           rewrite dict_get_adjust_eq.
           destruct (dict_get tok ref_data) as [row|]; simpl; [|reflexivity].
           rewrite add_err_add; reflexivity.
        -- apply String.eqb_neq in E.
           rewrite dict_get_adjust_neq by exact E; reflexivity.
      * destruct (String.eqb tok k) eqn:E; [|reflexivity].
        apply String.eqb_eq in E; subst k.
        unfold dict_mem in M.
        destruct (dict_get tok ref_data); [discriminate | reflexivity].
    + destruct (dict_get k ref_data) as [row|]; simpl;
        [rewrite add_err_0|]; reflexivity.
Qed.

(** X20. In [make_variants_report] the dictionary extracted from the
    alignment summary is handed to [_append_variants_gff_data].  After both,
    each contig's LENGTH, GAPS and COV come from the records of the
    alignment summary alone, and its ERR from the variants file alone: the
    total number of positions of the variant records of that contig, also
    when the second loop stops at a record without a token. *)
Theorem error_counts_come_from_the_variants_file
    (py_int : string -> option Z) (py_float : string -> option float)
    (md5_hexdigest : string -> string)
    (reader : list Gff3Record.t) (contigs : list Contig.t)
    (rd : dict string ref_row) (vm : dict string ContigVariants.t)
    (variants_gff : string) (log : list string)
    (variants : list Gff3Record.t) :
  _extract_alignment_summ_data py_int py_float md5_hexdigest reader contigs
  = Return (rd, vm) ->
  let rd' :=
    fst (fst (_append_variants_gff_data variants_gff rd log variants)) in
  forall k row, dict_get k rd' = Some row ->
    listed contigs k = true
    /\ LENGTH row = max_end (filter (of_contig k) reader)
    /\ GAPS row = sum_Z (map (gaps_of py_int) (filter (of_contig k) reader))
    /\ COV row
       = float_sum (map (cov_of py_float) (filter (of_contig k) reader))
    /\ ERR row
       = sum_Z (map span_width (filter (of_contig k) (readable variants))).
Proof.
  intros H rd' k row G; unfold rd' in G.
  rewrite append_variants_get in G.
  destruct (dict_get k rd) as [row0|] eqn:G0; [|discriminate].
  simpl in G; inversion G; subst row; clear G; simpl.
  destruct (summary_of_loop py_int py_float md5_hexdigest contigs reader H)
    as (_ & I2 & I3 & _).
  destruct (I3 k row0 G0) as (A1 & A2 & A3 & A4).
  split; [apply I2; apply dict_get_present; congruence|].
  rewrite A3; repeat split; assumption.
Qed.

Lemma error_counts_come_from_the_variants_file_witness :
  exists rd vm,
    _extract_alignment_summ_data sample_int sample_float (fun s => s)
      sample_summary sample_contigs = Return (rd, vm)
    /\ exists row,
         dict_get "ctgB"%string
           (fst (fst (_append_variants_gff_data "v.gff" rd []
                        sample_variants)))
         = Some row
         /\ listed sample_contigs "ctgB" = true
         /\ LENGTH row = 200 /\ ERR row = 2
         /\ LENGTH row
            = max_end (filter (of_contig "ctgB") sample_summary)
         /\ GAPS row
            = sum_Z (map (gaps_of sample_int)
                       (filter (of_contig "ctgB") sample_summary))
         /\ COV row
            = float_sum (map (cov_of sample_float)
                           (filter (of_contig "ctgB") sample_summary))
         /\ ERR row
            = sum_Z (map span_width
                       (filter (of_contig "ctgB")
                          (readable sample_variants))).
Proof.
  destruct (_extract_alignment_summ_data sample_int sample_float
              (fun s => s) sample_summary sample_contigs)
    as [[rd vm]|e] eqn:H; [|vm_compute in H; discriminate].
  exists rd, vm; split; [reflexivity|].
  destruct (dict_get "ctgB"%string
              (fst (fst (_append_variants_gff_data "v.gff" rd []
                           sample_variants)))) as [row|] eqn:G;
    [|vm_compute in H; inversion H; subst; vm_compute in G; discriminate].
  exists row; split; [reflexivity|].
  destruct (error_counts_come_from_the_variants_file _ _ _ _ _ "v.gff" []
              sample_variants H "ctgB" G) as (B0 & B1 & B2 & B3 & B4).
  split; [exact B0|].
  split; [rewrite B1; reflexivity|].
  split; [rewrite B4; reflexivity|].
  repeat split; assumption.
Defined.

(* ------------------------------------------------------------------------- *)
(** ** [_get_consensus_table_and_attributes] *)

Lemma float_of_Z_0 : float_of_Z 0 = Return 0%float.
Proof. reflexivity. Qed.

Lemma float_div_Return (a b q : float) :
  float_div a b = Return q ->
  PrimFloat.eqb b 0%float = false /\ q = PrimFloat.div a b.
Proof.
  unfold float_div; destruct (PrimFloat.eqb b 0%float); [discriminate|].
  intros [= <-]; auto.
Qed.

Lemma combine_snoc {A B : Type} (l : list A) (l' : list B) (a : A) (b : B) :
  List.length l = List.length l' ->
  combine (l ++ [a]) (l' ++ [b]) = combine l l' ++ [(a, b)].
Proof.
  revert l'; induction l as [|x t IH]; intros [|y t'] E; simpl in *;
    try discriminate; [reflexivity|].
  rewrite IH by congruence; reflexivity.
Qed.

Lemma weighted_sum_snoc (vals lens : list float) (v l : float) :
  List.length vals = List.length lens ->
  weighted_sum (vals ++ [v]) (lens ++ [l])
  = PrimFloat.add (weighted_sum vals lens) (PrimFloat.mul v l).
Proof.
  intros E; unfold weighted_sum.
  rewrite combine_snoc by exact E.
  rewrite fold_left_app; reflexivity.
Qed.

Section ConsensusFacts.
Variable contig_t : Type.
Variable get_contig : string -> outcome contig_t.
Variable name_of : contig_t -> outcome string.
Variable ref_data : dict string ref_row.

(** What one pass of the loop body does when it does not raise. *)
Lemma consensus_row_Return (st st' : consensus_state) (k : string) :
  consensus_row get_contig name_of ref_data st k = Return st' ->
  exists c n x,
    get_contig k = Return c /\ name_of c = Return n
    /\ floats_of ref_data k = Some x
    /\ PrimFloat.eqb (f_length x) 0%float = false
    /\ contig_name (table st') = contig_name (table st) ++ [n]
    /\ contig_len (table st') = contig_len (table st) ++ [f_length x]
    /\ bases_called (table st') = bases_called (table st) ++ [bases_cell x]
    /\ concordance (table st')
       = concordance (table st) ++ [concordance_cell x]
    /\ coverage (table st') = coverage (table st) ++ [coverage_cell x]
    /\ sum_lengths st' = PrimFloat.add (sum_lengths st) (f_length x)
    /\ mean_bases_called st'
       = PrimFloat.add (mean_bases_called st)
           (PrimFloat.mul (bases_cell x) (f_length x))
    /\ mean_coverage st'
       = PrimFloat.add (mean_coverage st)
           (PrimFloat.mul (coverage_cell x) (f_length x))
    /\ (mean_concord st' = NA
        <-> mean_concord st = NA /\ concordance_cell x = NA).
Proof.
  unfold consensus_row, ref_lookup, floats_of.
  destruct (get_contig k) as [c|e] eqn:Gc; simpl; [|discriminate].
  destruct (dict_get k ref_data) as [row|]; simpl; [|discriminate].
  destruct (float_of_Z (LENGTH row)) as [l|e]; simpl; [|discriminate].
  destruct (float_of_Z (GAPS row)) as [g|e]; simpl; [|discriminate].
  destruct (float_of_Z (ERR row)) as [er|e]; simpl; [|discriminate].
  destruct (float_div g l) as [q|e] eqn:Dq; simpl; [|discriminate].
  apply float_div_Return in Dq; destruct Dq as [L0 ->].
  unfold concordance_cell, bases_cell, coverage_cell; simpl.
  destruct (PrimFloat.eqb l g) eqn:Elg; simpl.
  - destruct (float_div (COV row) l) as [cv|e] eqn:Dc; simpl; [|discriminate].
    apply float_div_Return in Dc; destruct Dc as [_ ->].
    destruct (name_of c) as [n|e] eqn:Nc; simpl; [|discriminate].
    intros [= <-]; simpl.
    exists c, n; eexists; split; [reflexivity|]; split; [exact Nc|].
    split; [reflexivity|]; simpl; rewrite Elg.
    repeat (split; [first [exact L0 | reflexivity]|]).
    split; [auto | intros [E _]; exact E].
  - destruct (float_div er (PrimFloat.sub l g)) as [q|e] eqn:De; simpl;
      [|discriminate].
    apply float_div_Return in De; destruct De as [_ ->].
    destruct (float_div (COV row) l) as [cv|e] eqn:Dc; simpl; [|discriminate].
    apply float_div_Return in Dc; destruct Dc as [_ ->].
    destruct (name_of c) as [n|e] eqn:Nc; simpl; [|discriminate].
    intros [= <-]; simpl.
    exists c, n; eexists; split; [reflexivity|]; split; [exact Nc|].
    split; [reflexivity|]; simpl; rewrite Elg.
    repeat (split; [first [exact L0 | reflexivity]|]).
    split; [destruct (mean_concord st); discriminate
           | intros [_ E]; discriminate].
Qed.

Lemma consensus_loop_rows (ids : list string) (st st' : consensus_state) :
  consensus_loop get_contig name_of ref_data st ids = Return st' ->
  exists rows,
    Forall2 (row_of get_contig name_of ref_data) ids rows
    /\ contig_name (table st')
       = contig_name (table st) ++ map fst rows
    /\ contig_len (table st')
       = contig_len (table st) ++ map (fun r => f_length (snd r)) rows
    /\ bases_called (table st')
       = bases_called (table st) ++ map (fun r => bases_cell (snd r)) rows
    /\ concordance (table st')
       = concordance (table st)
         ++ map (fun r => concordance_cell (snd r)) rows
    /\ coverage (table st')
       = coverage (table st) ++ map (fun r => coverage_cell (snd r)) rows.
Proof.
  revert st; induction ids as [|k rest IH]; intros st; simpl.
  - intros [= <-]; exists []; simpl; rewrite !app_nil_r.
    repeat split; constructor.
  - destruct (consensus_row get_contig name_of ref_data st k) as [st1|e]
      eqn:R; simpl; [|discriminate].
    intros L; destruct (IH _ L) as (rows & F & T1 & T2 & T3 & T4 & T5).
    destruct (consensus_row_Return _ _ R)
      as (c & n & x & Gc & Nc & Fx & L0 & C1 & C2 & C3 & C4 & C5 & _).
    exists ((n, x) :: rows); simpl.
    split; [constructor; [|exact F]; repeat split; eauto|].
    rewrite T1, T2, T3, T4, T5, C1, C2, C3, C4, C5, <- !app_assoc.
    repeat split; reflexivity.
Qed.

Lemma sums_inv_init : sums_inv consensus_init.
Proof.
  unfold sums_inv; simpl; repeat split; auto.
Qed.

Lemma sums_inv_row (st st' : consensus_state) (k : string) :
  sums_inv st ->
  consensus_row get_contig name_of ref_data st k = Return st' ->
  sums_inv st'.
Proof.
  intros (L1 & L2 & S1 & S2 & S3 & S4) R.
  destruct (consensus_row_Return _ _ R)
    as (c & n & x & _ & _ & _ & _ & _ & C2 & C3 & C4 & C5
        & E1 & E2 & E3 & E4).
  unfold sums_inv; rewrite C2, C3, C4, C5.
  split; [rewrite !length_app, L1; reflexivity|].
  split; [rewrite !length_app, L2; reflexivity|].
  split; [rewrite float_sum_snoc, E1, S1; reflexivity|].
  split; [rewrite weighted_sum_snoc, E2, S2 by exact L1; reflexivity|].
  split; [rewrite weighted_sum_snoc, E3, S3 by exact L2; reflexivity|].
  rewrite E4, S4, Forall_app; split.
  - intros [F E]; split; [exact F | constructor; [exact E | constructor]].
  - intros [F E]; split; [exact F | inversion E; assumption].
Qed.

Lemma sums_inv_loop (ids : list string) (st st' : consensus_state) :
  sums_inv st ->
  consensus_loop get_contig name_of ref_data st ids = Return st' ->
  sums_inv st'.
Proof.
  revert st; induction ids as [|k rest IH]; intros st I; simpl.
  - intros [= <-]; exact I.
  - destruct (consensus_row get_contig name_of ref_data st k) as [st1|e]
      eqn:R; simpl; [|discriminate].
    apply IH; exact (@sums_inv_row st st1 k I R).
Qed.

End ConsensusFacts.

Lemma ref_ids_perm (ref_data : dict string ref_row) :
  Permutation (_ref_ids_ordered_by_len ref_data) (map fst ref_data).
Proof.
  unfold _ref_ids_ordered_by_len.
  rewrite <- sorted_desc_perm, map_map; reflexivity.
Qed.

Lemma Forall2_In_l {A B : Type} (R : A -> B -> Prop) (l : list A)
    (l' : list B) (x : A) :
  Forall2 R l l' -> In x l -> exists y, In y l' /\ R x y.
Proof.
  induction 1 as [|a b t t' Rab F IH]; simpl; [contradiction|].
  intros [<-|I]; [exists b; auto|].
  destruct (IH I) as (y & Iy & Ry); exists y; auto.
Qed.

Lemma floats_of_length (ref_data : dict string ref_row) (k : string)
    (x : contig_floats) :
  floats_of ref_data k = Some x ->
  PrimFloat.eqb (f_length x) 0%float = false ->
  exists row, dict_get k ref_data = Some row /\ LENGTH row <> 0.
Proof.
  unfold floats_of; destruct (dict_get k ref_data) as [row|]; [|discriminate].
  intros E L0; exists row; split; [reflexivity|]; intros Z0.
  rewrite Z0, float_of_Z_0 in E.
  destruct (float_of_Z (GAPS row)); [|discriminate].
  destruct (float_of_Z (ERR row)); [|discriminate].
  inversion E; subst x; simpl in L0; discriminate.
Qed.

(** What the lines after the loop do when they do not raise. *)
Lemma consensus_Return {contig_t : Type}
    (get_contig : string -> outcome contig_t)
    (name_of : contig_t -> outcome string) (ref_data : dict string ref_row)
    (t : Table) (a : Attributes) :
  _get_consensus_table_and_attributes get_contig name_of ref_data
  = Return (t, a) ->
  exists st n,
    consensus_loop get_contig name_of ref_data consensus_init
      (_ref_ids_ordered_by_len ref_data) = Return st
    /\ t = table st
    /\ float_of_Z (Z.of_nat (List.length (_ref_ids_ordered_by_len ref_data)))
       = Return n
    /\ PrimFloat.eqb n 0%float = false
    /\ PrimFloat.eqb (sum_lengths st) 0%float = false
    /\ mean_contig_length a = PrimFloat.div (sum_lengths st) n
    /\ weighted_mean_bases_called a
       = PrimFloat.div (mean_bases_called st) (sum_lengths st)
    /\ weighted_mean_coverage a
       = PrimFloat.div (mean_coverage st) (sum_lengths st)
    /\ (weighted_mean_concordance a = NA <-> mean_concord st = NA)
    /\ hd_error (_ref_ids_ordered_by_len ref_data)
       = Some (longest_contig_name a).
Proof.
  unfold _get_consensus_table_and_attributes.
  destruct (consensus_loop get_contig name_of ref_data consensus_init
              (_ref_ids_ordered_by_len ref_data)) as [st|e]; simpl;
    [|discriminate].
  destruct (float_of_Z _) as [n|e]; simpl; [|discriminate].
  destruct (float_div (sum_lengths st) n) as [q1|e] eqn:D1; simpl;
    [|discriminate].
  apply float_div_Return in D1; destruct D1 as [N0 ->].
  destruct (float_div (mean_bases_called st) (sum_lengths st)) as [q2|e]
    eqn:D2; simpl; [|discriminate].
  apply float_div_Return in D2; destruct D2 as [S0 ->].
  destruct (mean_concord st) as [|m] eqn:Mc; simpl.
  - destruct (float_div (mean_coverage st) (sum_lengths st)) as [q4|e]
      eqn:D4; simpl; [|discriminate].
    apply float_div_Return in D4; destruct D4 as [_ ->].
    destruct (_ref_ids_ordered_by_len ref_data) as [|first rest]; simpl;
      [discriminate|].
    intros [= <- <-]; simpl.
    exists st, n; repeat split; auto.
  - destruct (float_div m (sum_lengths st)) as [q3|e] eqn:D3; simpl;
      [|discriminate].
    destruct (float_div (mean_coverage st) (sum_lengths st)) as [q4|e]
      eqn:D4; simpl; [|discriminate].
    apply float_div_Return in D4; destruct D4 as [_ ->].
    destruct (_ref_ids_ordered_by_len ref_data) as [|first rest]; simpl;
      [discriminate|].
    intros [= <- <-]; simpl.
    exists st, n; repeat split; auto; intros; congruence.
Qed.

(** X21. [_get_consensus_table_and_attributes] needs at least one contig
    and no contig of length 0: on an empty [ref_data] it raises
    ZeroDivisionError, and whenever it returns, every contig of [ref_data]
    has a length other than 0 and was found in the reference. *)
Theorem consensus_needs_contigs_of_nonzero_length {contig_t : Type}
    (get_contig : string -> outcome contig_t)
    (name_of : contig_t -> outcome string)
    (ref_data : dict string ref_row) :
  (ref_data = [] ->
   _get_consensus_table_and_attributes get_contig name_of ref_data
   = Throw ZeroDivisionError)
  /\ (forall t a,
        _get_consensus_table_and_attributes get_contig name_of ref_data
        = Return (t, a) ->
        ref_data <> []
        /\ forall k, In k (map fst ref_data) ->
             exists row c,
               dict_get k ref_data = Some row /\ LENGTH row <> 0
               /\ get_contig k = Return c).
Proof.
  split; [intros ->; reflexivity|].
  intros t a H; split; [intros ->; discriminate|].
  destruct (consensus_Return _ _ _ H) as (st & n & L & _).
  destruct (consensus_loop_rows _ _ _ _ _ L) as (rows & F & _).
  intros k I.
  apply (Permutation_in _ (Permutation_sym (ref_ids_perm ref_data))) in I.
  destruct (@Forall2_In_l _ _ _ _ _ k F I) as ([nm x] & _ & Fx & L0 & c & Gc & _).
  destruct (@floats_of_length ref_data k x Fx L0) as (row & G & NZ).
  exists row, c; auto.
Qed.

Lemma consensus_needs_contigs_of_nonzero_length_witness :
  _get_consensus_table_and_attributes sample_get_contig sample_name_of []
  = Throw ZeroDivisionError
  /\ exists t a,
       _get_consensus_table_and_attributes sample_get_contig sample_name_of
         sample_ref_data = Return (t, a)
       /\ forall k, In k (map fst sample_ref_data) ->
            exists row c,
              dict_get k sample_ref_data = Some row /\ LENGTH row <> 0
              /\ sample_get_contig k = Return c.
Proof.
  split;
    [exact (proj1 (consensus_needs_contigs_of_nonzero_length
                     sample_get_contig sample_name_of []) eq_refl)|].
  destruct (_get_consensus_table_and_attributes sample_get_contig
              sample_name_of sample_ref_data) as [[t a]|e] eqn:H;
    [|vm_compute in H; discriminate].
  exists t, a; split; [reflexivity|].
  exact (proj2 (proj2 (consensus_needs_contigs_of_nonzero_length
                         sample_get_contig sample_name_of sample_ref_data)
                  t a H)).
Defined.

(** X22. When [_get_consensus_table_and_attributes] returns, the table has
    one row per contig of [ref_data], in the order of
    [_ref_ids_ordered_by_len] (longest first): the name of the contig in the
    reference, its length as a float, 1 - gaps / length, the concordance
    1 - errors / (length - gaps), or 'NA' when the length equals the gaps,
    and coverage / length.  The attribute for the longest contig is the id
    of the first row. *)
Theorem consensus_table_has_one_row_per_contig {contig_t : Type}
    (get_contig : string -> outcome contig_t)
    (name_of : contig_t -> outcome string)
    (ref_data : dict string ref_row) (t : Table) (a : Attributes) :
  _get_consensus_table_and_attributes get_contig name_of ref_data
  = Return (t, a) ->
  exists rows,
    Forall2 (row_of get_contig name_of ref_data)
      (_ref_ids_ordered_by_len ref_data) rows
    /\ List.length rows = List.length ref_data
    /\ contig_name t = map fst rows
    /\ contig_len t = map (fun r => f_length (snd r)) rows
    /\ bases_called t = map (fun r => bases_cell (snd r)) rows
    /\ concordance t = map (fun r => concordance_cell (snd r)) rows
    /\ coverage t = map (fun r => coverage_cell (snd r)) rows
    /\ hd_error (_ref_ids_ordered_by_len ref_data)
       = Some (longest_contig_name a).
Proof.
  intros H.
  destruct (consensus_Return _ _ _ H)
    as (st & n & L & -> & _ & _ & _ & _ & _ & _ & _ & Hd).
  destruct (consensus_loop_rows _ _ _ _ _ L)
    as (rows & F & T1 & T2 & T3 & T4 & T5).
  exists rows; split; [exact F|].
  split.
  { rewrite <- (Forall2_length F).
    rewrite (Permutation_length (ref_ids_perm ref_data)).
    apply length_map. }
  repeat split; assumption.
Qed.

Lemma consensus_table_has_one_row_per_contig_witness :
  exists t a,
    _get_consensus_table_and_attributes sample_get_contig sample_name_of
      sample_ref_data = Return (t, a)
    /\ contig_name t = ["Contig ctgB"; "Contig ctgA"; "Contig ctgC"]%string
    /\ exists rows,
         Forall2 (row_of sample_get_contig sample_name_of sample_ref_data)
           (_ref_ids_ordered_by_len sample_ref_data) rows
         /\ List.length rows = List.length sample_ref_data
         /\ contig_name t = map fst rows
         /\ contig_len t = map (fun r => f_length (snd r)) rows
         /\ bases_called t = map (fun r => bases_cell (snd r)) rows
         /\ concordance t = map (fun r => concordance_cell (snd r)) rows
         /\ coverage t = map (fun r => coverage_cell (snd r)) rows
         /\ hd_error (_ref_ids_ordered_by_len sample_ref_data)
            = Some (longest_contig_name a).
Proof.
  destruct (_get_consensus_table_and_attributes sample_get_contig
              sample_name_of sample_ref_data) as [[t a]|e] eqn:H;
    [|vm_compute in H; discriminate].
  exists t, a; split; [reflexivity|].
  split; [vm_compute in H; inversion H; reflexivity|].
  exact (consensus_table_has_one_row_per_contig _ _ _ H).
Defined.

(** X23. When [_get_consensus_table_and_attributes] returns, its first four
    attributes are computed from the columns of the table: the mean contig
    length is the sum of the lengths over the number of contigs; the mean
    bases called and the mean coverage are the sums of cell * length over
    the sum of the lengths, which is not 0; and the mean concordance is 'NA'
    exactly when every concordance cell is 'NA'. *)
Theorem consensus_attributes_are_weighted_means {contig_t : Type}
    (get_contig : string -> outcome contig_t)
    (name_of : contig_t -> outcome string)
    (ref_data : dict string ref_row) (t : Table) (a : Attributes) :
  _get_consensus_table_and_attributes get_contig name_of ref_data
  = Return (t, a) ->
  let total := float_sum (contig_len t) in
  PrimFloat.eqb total 0%float = false
  /\ (exists n,
        float_of_Z (Z.of_nat (List.length ref_data)) = Return n
        /\ mean_contig_length a = PrimFloat.div total n)
  /\ weighted_mean_bases_called a
     = PrimFloat.div (weighted_sum (bases_called t) (contig_len t)) total
  /\ weighted_mean_coverage a
     = PrimFloat.div (weighted_sum (coverage t) (contig_len t)) total
  /\ (weighted_mean_concordance a = NA
      <-> Forall (fun c => c = NA) (concordance t)).
Proof.
  intros H.
  destruct (consensus_Return _ _ _ H)
    as (st & n & L & -> & Fn & _ & S0 & A1 & A2 & A3 & A4 & _).
  destruct (sums_inv_loop _ _ _ _ sums_inv_init L)
    as (_ & _ & S1 & S2 & S3 & S4).
  simpl; rewrite <- S1, <- S2, <- S3, <- S4.
  split; [exact S0|].
  split; [|repeat split; tauto].
  exists n; split; [|exact A1].
  rewrite <- Fn; do 2 f_equal.
  rewrite (Permutation_length (ref_ids_perm ref_data)).
  symmetry; apply length_map.
Qed.

Lemma consensus_attributes_are_weighted_means_witness :
  exists t a,
    _get_consensus_table_and_attributes sample_get_contig sample_name_of
      sample_ref_data = Return (t, a)
    /\ concordance t <> [NA; NA; NA]
    /\ let total := float_sum (contig_len t) in
       PrimFloat.eqb total 0%float = false
       /\ (exists n,
             float_of_Z (Z.of_nat (List.length sample_ref_data)) = Return n
             /\ mean_contig_length a = PrimFloat.div total n)
       /\ weighted_mean_bases_called a
          = PrimFloat.div (weighted_sum (bases_called t) (contig_len t))
              total
       /\ weighted_mean_coverage a
          = PrimFloat.div (weighted_sum (coverage t) (contig_len t)) total
       /\ (weighted_mean_concordance a = NA
           <-> Forall (fun c => c = NA) (concordance t)).
Proof.
  destruct (_get_consensus_table_and_attributes sample_get_contig
              sample_name_of sample_ref_data) as [[t a]|e] eqn:H;
    [|vm_compute in H; discriminate].
  exists t, a; split; [reflexivity|].
  split; [vm_compute in H; inversion H; discriminate|].
  exact (consensus_attributes_are_weighted_means _ _ _ H).
Defined.

End VariantsFacts.
